(** * hivemind expert server: checkpoints, weight loading, quantization, uids

    A shallow embedding of the Python sources
      hivemind/moe/server/server.py
      hivemind/moe/server/checkpoints.py
      hivemind/moe/server/hf_loader.py
      hivemind/moe/server/bnb_quantization.py
      hivemind/moe/server/module_wrapper.py
    Python integers are [Z], strings are [string], exceptions are values of
    [exn], and code that can raise returns a [res]. *)

From Stdlib Require Import ZArith String Ascii List Bool Lia.
From Stdlib Require Import Decimal DecimalString DecimalZ.
From stdpp Require Import base option list strings gmap.

Import ListNotations.
Set Warnings "-register-all".
Local Open Scope Z_scope.
Local Open Scope string_scope.
Local Open Scope list_scope.
Local Open Scope stdpp_scope.

(** ** Exceptions and results *)

Inductive exn : Set :=
  | TypeError | NameError | KeyError | IndexError | ValueError | RuntimeError
  | AssertionError | RecursionError
  | OSError
  | FileNotFoundError | FileExistsError | NotADirectoryError
  | IsADirectoryError | SameFileError
  | SafetensorError
  | RepositoryNotFoundError | EntryNotFoundError.

Inductive res (A : Type) : Type :=
  | Ok (a : A)
  | Raise (e : exn).
Arguments Ok {A} a.
Arguments Raise {A} e.

#[global] Instance res_ret : MRet res := fun A a => Ok a.
#[global] Instance res_bind : MBind res := fun A B k r =>
  match r with
  | Ok a => k a
  | Raise e => Raise e
  end.

(** [for x in xs: acc = body x acc], stopping at the first exception. *)
Fixpoint for_each {A S} (xs : list A) (body : A -> S -> res S) (s : S) : res S :=
  match xs with
  | [] => Ok s
  | x :: xs' => s' ← body x s; for_each xs' body s'
  end.

(** ** Python built-ins used by the sources *)

(** [range(start, stop)] *)
Definition py_range (start stop : Z) : list Z :=
  map (fun i => start + Z.of_nat i) (seq 0 (Z.to_nat (stop - start))).

(** [str(n)] for an integer *)
Definition str_of_int (n : Z) : string :=
  NilZero.string_of_int (Z.to_int n).

(** [s in t] for strings: [s] occurs in [t] as a contiguous substring. *)
Fixpoint str_in (s t : string) : bool :=
  String.prefix s t ||
  match t with
  | EmptyString => false
  | String _ t' => str_in s t'
  end.

(** A format string as [string.Formatter().parse] splits it: literal text
    and replacement fields [{name}].  The name of a field is a plain
    argument name: attribute and index access ([{a.b}], [{a[0]}]),
    conversions and format specs are outside this model. *)
Inductive piece : Set :=
  | Lit (text : string)
  | Field (name : string).

Definition pattern := list piece.

Definition is_digit (c : ascii) : bool :=
  let n := nat_of_ascii c in (48 <=? n)%nat && (n <=? 57)%nat.

Fixpoint all_digits (s : string) : bool :=
  match s with
  | EmptyString => true
  | String c s' => is_digit c && all_digits s'
  end.

Fixpoint kw_lookup (name : string) (kwargs : list (string * Z)) : option Z :=
  match kwargs with
  | [] => None
  | (k, v) :: rest => if String.eqb k name then Some v else kw_lookup name rest
  end.

(** [PY_SSIZE_T_MAX] (of a 64-bit build) *)
Definition PY_SSIZE_T_MAX : Z := 2 ^ 63 - 1.

(** The index that a numbered field names, digit by digit ([None]: "Too
    many decimal digits in format string"). *)
Fixpoint get_integer (s : string) (accumulator : Z) : option Z :=
  match s with
  | EmptyString => Some accumulator
  | String c s' =>
      let digitval := Z.of_nat (nat_of_ascii c) - 48 in
      if accumulator >? (PY_SSIZE_T_MAX - digitval) / 10 then None
      else get_integer s' (accumulator * 10 + digitval)
  end.

(** [fmt.format(k1=v1, k2=v2)] with integer keyword arguments and no
    positional ones: an auto-numbered or numbered field has no argument to take
    (IndexError; ValueError when the number has too many digits), a name
    that is not a keyword is a KeyError. *)
Fixpoint format (fmt : pattern) (kwargs : list (string * Z)) : res string :=
  match fmt with
  | [] => Ok ""
  | Lit text :: rest =>
      tail ← format rest kwargs; Ok (text +:+ tail)
  | Field name :: rest =>
      if all_digits name then
        match get_integer name 0 with
        | Some _ => Raise IndexError
        | None => Raise ValueError
        end
      else match kw_lookup name kwargs with
           | None => Raise KeyError
           | Some v =>
               tail ← format rest kwargs; Ok (str_of_int v +:+ tail)
           end
  end.

(** ** server.py: expert uids *)

Record ExpertUID : Set := mkExpertUID {
  uid : string;
  expert_id : Z;
  layer_id : Z
}.

Section GenerateUids.

(** [hivemind.dht.DHT] and [hivemind.moe.server.dht_handler.get_experts]
  are imported by server.py; the lookup answers one optional remote
  expert per uid asked. *)
Variable DHT : Type.
Variable RemoteExpert : Type.
Variable get_experts : DHT -> list string -> list (option RemoteExpert).

Definition _generate_uid (expert_pattern : pattern) (layer_id expert_id : Z)
: res string :=
format expert_pattern [("expert_id", expert_id); ("layer_id", layer_id)].

(** The check of the lookup results: the first result that is not [None]
  raises. *)
Fixpoint check_found (found : list (option RemoteExpert)) : res unit :=
match found with
| [] => Ok tt
| f :: rest =>
    match f with
    | Some _ => Raise NameError
    | None => check_found rest
    end
end.

Definition _generate_uids (num_experts num_layers layers_start : Z)
  (expert_pattern : pattern) (dht : option DHT) (attempts_per_expert : Z)
: res (list ExpertUID) :=
(* 1. sample uids *)
new_uids ←
  for_each (py_range layers_start num_layers) (fun layer_id new_uids =>
    for_each (py_range 0 num_experts) (fun expert_id new_uids =>
      new_uid ← _generate_uid expert_pattern layer_id expert_id;
      Ok (new_uids ++ [mkExpertUID new_uid expert_id layer_id]))
      new_uids)
    [];
(* 2. look into DHT (if given) *)
match dht with
| Some d =>
    let found := get_experts d (map uid new_uids) in
    _ ← check_found found;
    Ok new_uids
| None => Ok new_uids
end.

End GenerateUids.

Arguments check_found {RemoteExpert} found.
Arguments _generate_uids {DHT RemoteExpert} get_experts num_experts num_layers
  layers_start expert_pattern dht attempts_per_expert.

(** ** torch: tensors and modules *)

Inductive dtype : Set :=
  | float16 | bfloat16 | float32 | float64
  | int8 | uint8 | int32 | int64 | bool_.

#[global] Instance dtype_eq_dec : EqDecision dtype.
Proof. solve_decision. Defined.

(** A tensor: its element type, its shape and its elements (as stored). *)
Record Tensor : Set := mkTensor {
  t_dtype : dtype;
  t_shape : list nat;
  t_data : list Z
}.

#[global] Instance Tensor_eq_dec : EqDecision Tensor.
Proof. solve_decision. Defined.

(** How elements are re-encoded from one element type to another; the
    rounding itself is torch's. *)
Class Casting := cast_data : dtype -> dtype -> list Z -> list Z.

(** [torch.is_floating_point(t)] *)
Definition is_floating_point (t : Tensor) : bool :=
  match t_dtype t with
  | float16 | bfloat16 | float32 | float64 => true
  | _ => false
  end.

(** [t.to(dtype)]: the tensor itself when it already has that element type,
    otherwise a NEW tensor; [t] is never modified. *)
Definition Tensor_to {cast : Casting} (t : Tensor) (d : dtype) : Tensor :=
  if decide (t_dtype t = d) then t
  else mkTensor d (t_shape t) (cast_data (t_dtype t) d (t_data t)).

(** [p.copy_(src)]: the elements of [src] written into [p], which keeps its
    own element type. *)
Definition Tensor_copy_ {cast : Casting} (p src : Tensor) : Tensor :=
  mkTensor (t_dtype p) (t_shape p) (cast_data (t_dtype src) (t_dtype p) (t_data src)).

Record nn_Parameter : Set := mkParameter {
  p_data : Tensor;
  p_requires_grad : bool
}.

(** The classes of layers the sources tell apart.  [bnb.nn.Linear8bitLt] and
    [bnb.nn.Linear4bit] are subclasses of [torch.nn.Linear]. *)
Inductive module_class : Set :=
  | Linear (in_features out_features : nat)
  | Linear8bitLt (in_features out_features : nat) (has_fp16_weights : bool)
      (threshold : Z)
  | Linear4bit (in_features out_features : nat) (compute_dtype : dtype)
      (compress_statistics : bool) (quant_type : string)
  | OtherModule (class_name : string).

(** A module: its class, its own parameters ([_parameters], in order), its
    named children ([_modules], in order) and the two flags that
    [quantization] attaches. *)
Inductive nn_Module : Set := mkModule {
  m_class : module_class;
  m_parameters : list (string * nn_Parameter);
  m_children : list (string * nn_Module);
  is_loaded_in_4bit : option bool;
  is_loaded_in_8bit : option bool
}.

Definition isinstance_Linear (m : nn_Module) : bool :=
  match m_class m with
  | Linear _ _ | Linear8bitLt _ _ _ _ | Linear4bit _ _ _ _ _ => true
  | OtherModule _ => false
  end.

Definition in_features_of (m : nn_Module) : nat :=
  match m_class m with
  | Linear i _ | Linear8bitLt i _ _ _ | Linear4bit i _ _ _ _ => i
  | OtherModule _ => 0%nat
  end.

Definition out_features_of (m : nn_Module) : nat :=
  match m_class m with
  | Linear _ o | Linear8bitLt _ o _ _ | Linear4bit _ o _ _ _ => o
  | OtherModule _ => 0%nat
  end.

Fixpoint assoc {A} (k : string) (l : list (string * A)) : option A :=
  match l with
  | [] => None
  | (k', v) :: rest => if String.eqb k' k then Some v else assoc k rest
  end.

(** [module.weight], [module.bias] *)
Definition weight_of (m : nn_Module) : option nn_Parameter := assoc "weight" (m_parameters m).
Definition bias_of (m : nn_Module) : option nn_Parameter := assoc "bias" (m_parameters m).

(** [prefix + name] of [state_dict]: the dotted key of an entry. *)
Definition dotted (prefix name : string) : string :=
  if String.eqb prefix "" then name else prefix +:+ "." +:+ name.

(** [module.state_dict()]: the module's own parameters, then each child's,
    keyed by dotted path, in order. *)
Fixpoint state_dict_from (prefix : string) (m : nn_Module) : list (string * Tensor) :=
  map (fun '(n, p) => (dotted prefix n, p_data p)) (m_parameters m) ++
  (fix children_sd (cs : list (string * nn_Module)) : list (string * Tensor) :=
     match cs with
     | [] => []
     | (n, c) :: rest => state_dict_from (dotted prefix n) c ++ children_sd rest
     end) (m_children m).

Definition state_dict (m : nn_Module) : list (string * Tensor) := state_dict_from "" m.

(** ** bnb_quantization.py *)

(** [accelerate.utils.BnbQuantizationConfig], the fields the sources read. *)
Record BnbQuantizationConfig : Set := mkBnbQuantizationConfig {
  load_in_8bit : bool;
  load_in_4bit : bool;
  llm_int8_threshold : Z;
  bnb_4bit_compute_dtype : dtype;
  bnb_4bit_use_double_quant : bool;
  bnb_4bit_quant_type : string;
  torch_dtype : dtype
}.

(** [BnbQuantizationConfig(load_in_4bit=True,
    bnb_4bit_compute_dtype=torch.float16, bnb_4bit_use_double_quant=True,
    bnb_4bit_quant_type="nf4")]: [load_in_8bit] and the threshold keep their
    defaults, and a 4-bit configuration built without [torch_dtype] takes
    its compute dtype for it. *)
Definition BASE_QUANT_CONFIG : BnbQuantizationConfig :=
  {| load_in_8bit := false;
     load_in_4bit := true;
     llm_int8_threshold := 6;
     bnb_4bit_compute_dtype := float16;
     bnb_4bit_use_double_quant := true;
     bnb_4bit_quant_type := "nf4";
     torch_dtype := float16 |}.

(** [name not in modules_to_not_convert] is the negation of this. *)
Definition str_mem (name : string) (l : list string) : bool :=
  existsb (String.eqb name) l.

(** The scan of the exclusion list in [_replace_with_bnb_layers]:
    [proceed] starts [True] and the first key that matches sets it [False]
    and leaves the loop. *)
Fixpoint proceed_scan (modules_to_not_convert : list string)
    (current_key_name_str : string) : bool :=
  match modules_to_not_convert with
  | [] => true
  | key :: rest =>
      if (str_in key current_key_name_str
            && str_in (key +:+ ".") current_key_name_str)
         || String.eqb key current_key_name_str
      then false
      else proceed_scan rest current_key_name_str
  end.

(** The replacement layer: built empty, then [weight.data] and (when the
    linear layer has one) [bias.data] are taken from the layer it replaces
    and [requires_grad_(False)] is applied. *)
Definition bnb_parameters (module : nn_Module) : list (string * nn_Parameter) :=
  match weight_of module with
  | Some w => [("weight", mkParameter (p_data w) false)]
  | None => []
  end ++
  match bias_of module with
  | Some b => [("bias", mkParameter (p_data b) false)]
  | None => []
  end.

Definition bnb_layer (cfg : BnbQuantizationConfig) (module : nn_Module)
  : res nn_Module :=
  if load_in_8bit cfg then
    Ok (mkModule
          (Linear8bitLt (in_features_of module) (out_features_of module)
             false (llm_int8_threshold cfg))
          (bnb_parameters module) [] None None)
  else if load_in_4bit cfg then
    Ok (mkModule
          (Linear4bit (in_features_of module) (out_features_of module)
             (bnb_4bit_compute_dtype cfg) (bnb_4bit_use_double_quant cfg)
             (bnb_4bit_quant_type cfg))
          (bnb_parameters module) [] None None)
  else Raise ValueError.

Section NamedChildren.

(** The recursive call, the configuration, the exclusion list and the
  key of the module whose children are visited. *)
Variable recurse : nn_Module -> list string -> res (nn_Module * bool).
Variable bnb_quantization_config : BnbQuantizationConfig.
Variable modules_to_not_convert : list string.
Variable current_key_name : list string.

(** One turn of the loop [for name, module in model.named_children()]:
  the child that [model] holds under [name] afterwards, and the flag.
  A child that is replaced is [setattr]-ed on [model]; the recursion
  then still runs on the old [module] object, which only contributes
  its flag.  A child that is kept is the object the recursion works
  on. *)
Definition visit_child (name : string) (module : nn_Module)
  (has_been_replaced : bool) : res (nn_Module * bool) :=
let current_key_name := current_key_name ++ [name] in
'(child, replaced, has_been_replaced) ←
  (if isinstance_Linear module
        && negb (str_mem name modules_to_not_convert)
   then
     (* Check if the current key is not in the `modules_to_not_convert` *)
     let current_key_name_str := String.concat "." current_key_name in
     if proceed_scan modules_to_not_convert current_key_name_str then
       bnb_module ← bnb_layer bnb_quantization_config module;
       Ok (bnb_module, true, true)
     else Ok (module, false, has_been_replaced)
   else Ok (module, false, has_been_replaced)
   : res (nn_Module * bool * bool));
if (0 <? length (m_children module))%nat then
  '(module', _has_been_replaced) ← recurse module current_key_name;
  Ok (if replaced : bool then child else module',
      has_been_replaced || _has_been_replaced)
else Ok (child, has_been_replaced).

Fixpoint named_children_loop (cs : list (string * nn_Module))
  (has_been_replaced : bool) {struct cs}
: res (list (string * nn_Module) * bool) :=
match cs with
| [] => Ok ([], has_been_replaced)
| (name, module) :: rest =>
    '(child, has_been_replaced) ← visit_child name module has_been_replaced;
    '(rest', has_been_replaced) ← named_children_loop rest has_been_replaced;
    Ok ((name, child) :: rest', has_been_replaced)
end.

End NamedChildren.

(** [_replace_with_bnb_layers(model, cfg, modules_to_not_convert,
    current_key_name)].  [current_key_name] is the list the source appends
    the child's name to and pops it from again ([None] is the empty list);
    the children are visited in order. *)
Fixpoint _replace_with_bnb_layers (model : nn_Module)
    (bnb_quantization_config : BnbQuantizationConfig)
    (modules_to_not_convert : list string) (current_key_name : list string)
    {struct model} : res (nn_Module * bool) :=
  '(children', has_been_replaced) ←
    named_children_loop
      (fun module key =>
         _replace_with_bnb_layers module bnb_quantization_config
           modules_to_not_convert key)
      bnb_quantization_config modules_to_not_convert current_key_name
      (m_children model) false;
  Ok (mkModule (m_class model) (m_parameters model) children'
        (is_loaded_in_4bit model) (is_loaded_in_8bit model),
      has_been_replaced).

Definition replace_with_bnb_layers (model : nn_Module)
    (bnb_quantization_config : BnbQuantizationConfig)
    (modules_to_not_convert : option (list string))
    (current_key_name : list string) : res nn_Module :=
  let modules_to_not_convert := default [] modules_to_not_convert in
  '(model, has_been_replaced) ←
    _replace_with_bnb_layers model bnb_quantization_config
      modules_to_not_convert current_key_name;
  Ok model.

(** The loop [for name, param in model.state_dict().items()]: the value of
    [param.to(dtype)] is dropped, nothing is stored. *)
Fixpoint cast_loop {cast : Casting} (items : list (string * Tensor)) (dtype : dtype) : unit :=
  match items with
  | [] => tt
  | (name, param) :: rest =>
      let _ := if is_floating_point param then Some (Tensor_to param dtype) else None in
      cast_loop rest dtype
  end.

Definition quantization {cast : Casting} (model : nn_Module) : res nn_Module :=
  (* compatibility with peft *)
  let model :=
    mkModule (m_class model) (m_parameters model) (m_children model)
      (Some (load_in_4bit BASE_QUANT_CONFIG))
      (Some (load_in_8bit BASE_QUANT_CONFIG)) in
  model ← replace_with_bnb_layers model BASE_QUANT_CONFIG None [];
  let dtype := torch_dtype BASE_QUANT_CONFIG in
  let _ := cast_loop (state_dict model) dtype in
  Ok model.

(** ** The file system, the loaded modules and the log *)

(** A path is the list of its components from the root.  Resolution goes
    through directories only and follows a symbolic link when it is the last
    component, which is how the sources use links (to checkpoint files); a
    path that runs through a link to a directory is outside this model. *)
Definition path := list string.

Inductive content : Set :=
  | Safetensors (tensors : list (string * Tensor))
  | Bytes (data : list Z).

Inductive node : Set :=
  | File (c : content)
  | Dir (entries : list (string * node))
  | Symlink (target : path).

Definition is_dir_node (n : option node) : bool :=
  match n with Some (Dir _) => true | _ => false end.

(** [lstat]: the node a path names, links not followed. *)
Fixpoint lookup_node (p : path) (n : node) : option node :=
  match p with
  | [] => Some n
  | c :: p' =>
      match n with
      | Dir es => match assoc c es with
                  | Some child => lookup_node p' child
                  | None => None
                  end
      | _ => None
      end
  end.

(** Why a path names nothing: a name is missing from a directory (ENOENT),
    or the path goes on below an entry that is not a directory (ENOTDIR). *)
Fixpoint lookup_error (p : path) (n : node) : exn :=
  match p with
  | [] => FileNotFoundError
  | c :: p' =>
      match n with
      | Dir es => match assoc c es with
                  | Some child => lookup_error p' child
                  | None => FileNotFoundError
                  end
      | _ => NotADirectoryError
      end
  end.

(** The path a name finally stands for, after at most [hops] links
    ([None]: too many levels of symbolic links, ELOOP). *)
Fixpoint resolve (hops : nat) (root : node) (p : path) : option path :=
  match lookup_node p root with
  | Some (Symlink t) =>
      match hops with
      | O => None
      | S h => resolve h root t
      end
  | _ => Some p
  end.

Definition MAXSYMLINKS : nat := 40.

(** [stat]: the node a path names, links followed. *)
Definition stat (root : node) (p : path) : option node :=
  match resolve MAXSYMLINKS root p with
  | Some q => lookup_node q root
  | None => None
  end.

(** The error of a [stat] that finds nothing. *)
Definition stat_error (root : node) (p : path) : exn :=
  match resolve MAXSYMLINKS root p with
  | Some q => lookup_error q root
  | None => OSError
  end.

(** A directory's entries keep their order; a name that is there is
    replaced in place, a new name goes last. *)
Fixpoint set_entry (c : string) (v : node) (es : list (string * node))
  : list (string * node) :=
  match es with
  | [] => [(c, v)]
  | (k, x) :: rest =>
      if String.eqb k c then (k, v) :: rest else (k, x) :: set_entry c v rest
  end.

Fixpoint del_entry (c : string) (es : list (string * node))
  : list (string * node) :=
  match es with
  | [] => []
  | (k, x) :: rest =>
      if String.eqb k c then rest else (k, x) :: del_entry c rest
  end.

(** Put [v] at [p]; the parent of [p] has to be a directory. *)
Fixpoint set_node (p : path) (v : node) (n : node) : option node :=
  match p with
  | [] => Some v
  | c :: p' =>
      match n with
      | Dir es =>
          match p' with
          | [] => Some (Dir (set_entry c v es))
          | _ :: _ =>
              match assoc c es with
              | Some child =>
                  match set_node p' v child with
                  | Some child' => Some (Dir (set_entry c child' es))
                  | None => None
                  end
              | None => None
              end
          end
      | _ => None
      end
  end.

(** Remove the entry at [p] (with all that is below it). *)
Fixpoint remove_node (p : path) (n : node) : option node :=
  match p with
  | [] => None
  | c :: p' =>
      match n with
      | Dir es =>
          match p' with
          | [] => Some (Dir (del_entry c es))
          | _ :: _ =>
              match assoc c es with
              | Some child =>
                  match remove_node p' child with
                  | Some child' => Some (Dir (set_entry c child' es))
                  | None => None
                  end
              | None => None
              end
          end
      | _ => None
      end
  end.

(** The levels of [logging] that the sources log at. *)
Inductive level : Set := DEBUG | INFO | WARNING.

(** What a run can change: the file system (the cache directory that
    [huggingface_hub] keeps for its downloads left aside), the modules that
    live in the process (by object identity) and the log: the records
    handed to the logger, each with its level (which of them a handler
    writes out is the configuration's). *)
Record World : Type := mkWorld {
  w_fs : node;
  w_modules : gmap nat nn_Module;
  w_log : list (level * string)
}.

Definition IO (A : Type) : Type := World -> res A * World.

#[global] Instance IO_ret : MRet IO := fun A a w => (Ok a, w).
#[global] Instance IO_bind : MBind IO := fun A B k m w =>
  match m w with
  | (Ok a, w') => k a w'
  | (Raise e, w') => (Raise e, w')
  end.

Definition raise {A} (e : exn) : IO A := fun w => (Raise e, w).
Definition get_fs : IO node := fun w => (Ok (w_fs w), w).
Definition put_fs (fs : node) : IO unit :=
  fun w => (Ok tt, mkWorld fs (w_modules w) (w_log w)).

(** [try: m  finally: cleanup] *)
Definition finally {A} (m : IO A) (cleanup : IO unit) : IO A := fun w =>
  match m w with
  | (r, w') =>
      match cleanup w' with
      | (Ok _, w'') => (r, w'')
      | (Raise e, w'') => (Raise e, w'')
      end
  end.

(** [for x in xs: body x] *)
Fixpoint for_ {A} (xs : list A) (body : A -> IO unit) : IO unit :=
  match xs with
  | [] => mret tt
  | x :: xs' => _ ← body x; for_ xs' body
  end.

(** *** os, os.path, pathlib, shutil *)

Definition parent (p : path) : path := List.removelast p.
Definition basename (p : path) : string := List.last p "".

Definition os_path_exists (p : path) : IO bool :=
  fs ← get_fs; mret (bool_decide (is_Some (stat fs p))).

Definition os_path_isdir (p : path) : IO bool :=
  fs ← get_fs; mret (is_dir_node (stat fs p)).

Definition os_path_isfile (p : path) : IO bool :=
  fs ← get_fs; mret (match stat fs p with Some (File _) => true | _ => false end).

Definition os_listdir (p : path) : IO (list string) :=
  fs ← get_fs;
  match stat fs p with
  | Some (Dir es) => mret (map fst es)
  | Some _ => raise NotADirectoryError
  | None => raise (stat_error fs p)
  end.

(** Create the entry [p] as [v]; it must not be there, its parent must. *)
Definition create (p : path) (v : node) : IO unit :=
  fs ← get_fs;
  match lookup_node p fs with
  | Some _ => raise FileExistsError
  | None =>
      match lookup_node (parent p) fs with
      | Some (Dir _) =>
          match set_node p v fs with
          | Some fs' => put_fs fs'
          | None => raise FileNotFoundError
          end
      | Some _ => raise NotADirectoryError
      | None => raise (lookup_error (parent p) fs)
      end
  end.

Definition os_mkdir (p : path) : IO unit := create p (Dir []).

Definition os_symlink (target link : path) : IO unit := create link (Symlink target).

(** [try: m  except FileExistsError: pass] *)
Definition pass_FileExistsError (m : IO unit) : IO unit := fun w =>
  match m w with
  | (Raise FileExistsError, w') => (Ok tt, w')
  | r => r
  end.

(** [os.makedirs(name)]: the missing ancestors are made first (one that
    turns out to exist is passed over), then [name] itself. *)
Fixpoint makedirs_from (head tail : path) : IO unit :=
  match tail with
  | [] => raise FileExistsError
  | [name] => os_mkdir (head ++ [name])
  | name :: rest =>
      e ← os_path_exists (head ++ [name]);
      _ ← (if e : bool then mret tt
           else pass_FileExistsError (os_mkdir (head ++ [name])));
      makedirs_from (head ++ [name]) rest
  end.

Definition os_makedirs (name : path) : IO unit := makedirs_from [] name.

(** [open(p, 'rb').read()] *)
Definition read_file (p : path) : IO content :=
  fs ← get_fs;
  match stat fs p with
  | Some (File c) => mret c
  | Some _ => raise IsADirectoryError
  | None => raise (stat_error fs p)
  end.

(** [open(p, 'wb').write(c)]: a link is followed, the file is made when it
    is not there, its directory has to be. *)
Definition write_file (p : path) (c : content) : IO unit :=
  fs ← get_fs;
  match resolve MAXSYMLINKS fs p with
  | None => raise OSError
  | Some q =>
      match lookup_node q fs with
      | Some (Dir _) => raise IsADirectoryError
      | _ =>
          match lookup_node (parent q) fs, q with
          | Some (Dir _), _ :: _ =>
              match set_node q (File c) fs with
              | Some fs' => put_fs fs'
              | None => raise FileNotFoundError
              end
          | Some _, _ => raise NotADirectoryError
          | None, _ => raise (lookup_error (parent q) fs)
          end
      end
  end.

(** [os.path.samefile]-like test of [shutil.copyfile]: both names stand
    for the same existing entry. *)
Definition samefile (src dst : path) : IO bool :=
  fs ← get_fs;
  mret (match resolve MAXSYMLINKS fs src, resolve MAXSYMLINKS fs dst with
        | Some a, Some b =>
            bool_decide (a = b) && bool_decide (is_Some (lookup_node a fs))
        | _, _ => false
        end).

Definition copyfile (src dst : path) : IO unit :=
  same ← samefile src dst;
  if same : bool then raise SameFileError
  else
    c ← read_file src;
    write_file dst c.

(** [shutil.copy2(src, dst)]: into the directory [dst] under the name of
    [src] when [dst] is a directory; links are followed, so the copy of a
    link is a file. *)
Definition copy2 (src dst : path) : IO unit :=
  d ← os_path_isdir dst;
  let dst := if d : bool then dst ++ [basename src] else dst in
  copyfile src dst.

(** [shutil.rmtree], as [TemporaryDirectory] runs it on exit. *)
Definition rmtree (p : path) : IO unit :=
  fs ← get_fs;
  match lookup_node p fs, remove_node p fs with
  | Some _, Some fs' => put_fs fs'
  | _, _ => raise FileNotFoundError
  end.

(** [with TemporaryDirectory() as tmpdirname: body]: [tmpdirname] is the
    name that [mkdtemp] picks, a name that is free. *)
Definition with_TemporaryDirectory {A} (tmpdirname : path) (body : IO A) : IO A :=
  _ ← os_mkdir tmpdirname;
  finally body (rmtree tmpdirname).

(** [logger.debug(msg)], [logger.warning(msg)] *)
Definition logger_log (l : level) (msg : string) : IO unit :=
  fun w => (Ok tt, mkWorld (w_fs w) (w_modules w) (w_log w ++ [(l, msg)])).

Definition logger_debug (msg : string) : IO unit := logger_log DEBUG msg.
Definition logger_warning (msg : string) : IO unit := logger_log WARNING msg.

(** [str(p)] of an absolute path *)
Definition path_str (p : path) : string :=
  match p with
  | [] => "/"
  | _ :: _ => String.concat "" (map (fun c => "/" +:+ c) p)
  end.

(** *** datetime *)

(** A naive [datetime]; the fields are within their ranges (a year has four
    digits, a microsecond six). *)
Record datetime : Set := mkDatetime {
  year : nat; month : nat; day : nat;
  hour : nat; minute : nat; second : nat; microsecond : nat
}.

Definition digit_char (d : nat) : ascii := ascii_of_nat (48 + d mod 10).

(** [n] on exactly [width] decimal digits, as [%0<width>d] prints a number
    that fits. *)
Fixpoint digits (width n : nat) : string :=
  match width with
  | O => ""
  | S w => String (digit_char (n / 10 ^ w)) (digits w n)
  end.

(** [dt.isoformat(sep)] *)
Definition isoformat (sep : string) (dt : datetime) : string :=
  digits 4 (year dt) +:+ "-" +:+ digits 2 (month dt) +:+ "-" +:+ digits 2 (day dt)
  +:+ sep
  +:+ digits 2 (hour dt) +:+ ":" +:+ digits 2 (minute dt) +:+ ":" +:+ digits 2 (second dt)
  +:+ (if Nat.eqb (microsecond dt) 0 then "" else "." +:+ digits 6 (microsecond dt)).

(** *** safetensors *)

(** [safetensors.torch.save_file] *)
Definition save_file (tensors : list (string * Tensor)) (p : path) : IO unit :=
  write_file p (Safetensors tensors).

(** The entries of a dictionary in the order of their keys (strings
    compare by their code points); entries with one key keep their order. *)
Fixpoint insert_by_key {A} (k : string) (v : A) (l : list (string * A))
  : list (string * A) :=
  match l with
  | [] => [(k, v)]
  | (k', v') :: rest =>
      if String.leb k k' then (k, v) :: l else (k', v') :: insert_by_key k v rest
  end.

Definition sort_by_key {A} (l : list (string * A)) : list (string * A) :=
  fold_right (fun kv sorted => insert_by_key kv.1 kv.2 sorted) [] l.

(** [safetensors.torch.load_file]: the tensors of the file, in the order of
    their names. *)
Definition load_file (p : path) : IO (list (string * Tensor)) :=
  c ← read_file p;
  match c with
  | Safetensors tensors => mret (sort_by_key tensors)
  | Bytes _ => raise SafetensorError
  end.

(** *** torch.nn.Module.load_state_dict *)

(** [input_param[0]] of a one-dimensional tensor *)
Definition Tensor_first (t : Tensor) : res Tensor :=
  match t_shape t with
  | [O] => Raise IndexError
  | _ => Ok (mkTensor (t_dtype t) [] (take 1 (t_data t)))
  end.

(** The tensor that is compared and copied for a parameter [param]: the
    given one, but for a parameter without dimensions a one-dimensional
    tensor is taken at its first element ("backward compatibility: loading
    1-dim tensor from 0.3.* to version 0.4+"). *)
Definition input_for (param input_param : Tensor) : res Tensor :=
  if (length (t_shape param) =? 0)%nat && (length (t_shape input_param) =? 1)%nat
  then Tensor_first input_param
  else Ok input_param.

(** One parameter in [_load_from_state_dict]: when its key is given and the
    shape fits, it takes the given elements; a shape that differs and a key
    that is missing leave it as it is (and are reported at the end). *)
Definition load_parameter {cast : Casting} (sd : list (string * Tensor)) (key : string)
    (p : nn_Parameter) : res nn_Parameter :=
  match assoc key sd with
  | Some input_param =>
      input_param ← input_for (p_data p) input_param;
      if decide (t_shape input_param = t_shape (p_data p))
      then Ok (mkParameter (Tensor_copy_ (p_data p) input_param) (p_requires_grad p))
      else Ok p
  | None => Ok p
  end.

(** The parameters of one module, in order; an exception ends the loading
    where it is raised. *)
Fixpoint load_parameters {cast : Casting} (sd : list (string * Tensor)) (prefix : string)
    (ps : list (string * nn_Parameter)) : list (string * nn_Parameter) * option exn :=
  match ps with
  | [] => ([], None)
  | (n, p) :: rest =>
      match load_parameter sd (dotted prefix n) p with
      | Ok p' =>
          let '(rest', e) := load_parameters sd prefix rest in ((n, p') :: rest', e)
      | Raise e => ((n, p) :: rest, Some e)
      end
  end.

Section LoadChildren.

(** The loading of a child under its name. *)
Variable recurse : string -> nn_Module -> nn_Module * option exn.

(** The children of one module, in order: [for name, child in
  module._modules.items(): load(child, prefix + name + '.')]. *)
Fixpoint load_children (cs : list (string * nn_Module))
: list (string * nn_Module) * option exn :=
match cs with
| [] => ([], None)
| (n, c) :: rest =>
    let '(c', e) := recurse n c in
    match e with
    | Some _ => ((n, c') :: rest, e)
    | None => let '(rest', e) := load_children rest in ((n, c') :: rest', e)
    end
end.

End LoadChildren.

(** The module first, then its children in order: what the module is
    afterwards, and the exception that ended the loading, if one did. *)
Fixpoint load_from {cast : Casting} (prefix : string) (sd : list (string * Tensor))
    (m : nn_Module) {struct m} : nn_Module * option exn :=
  let '(ps, e) := load_parameters sd prefix (m_parameters m) in
  let '(cs, e) :=
    match e with
    | Some _ => (m_children m, e)
    | None =>
        load_children (fun n c => load_from (dotted prefix n) sd c) (m_children m)
    end in
  (mkModule (m_class m) ps cs (is_loaded_in_4bit m) (is_loaded_in_8bit m), e).

(** No key is missing, none is unexpected and every shape fits. *)
Definition strict_match (own sd : list (string * Tensor)) : bool :=
  forallb (fun '(k, t) =>
             match assoc k sd with
             | Some t' =>
                 match input_for t t' with
                 | Ok t'' => bool_decide (t_shape t'' = t_shape t)
                 | Raise _ => false
                 end
             | None => false
             end) own
  && forallb (fun '(k, _) => bool_decide (is_Some (assoc k own))) sd.

(** [expert.load_state_dict(sd)] on the module with identity [expert]:
    strict loading; the parameters that fit are loaded also when the call
    raises RuntimeError at its end. *)
Definition load_state_dict {cast : Casting} (expert : nat) (sd : list (string * Tensor))
  : IO unit := fun w =>
  match w_modules w !! expert with
  | None => (Raise RuntimeError, w)
  | Some m =>
      let '(m', e) := load_from "" sd m in
      let w' := mkWorld (w_fs w) (<[expert := m']> (w_modules w)) (w_log w) in
      match e with
      | Some err => (Raise err, w')
      | None =>
          if strict_match (state_dict m) sd then (Ok tt, w') else (Raise RuntimeError, w')
      end
  end.

(** ** hf_loader.py *)

(** The repositories of the hub: per repository id the JSON object of its
    [model.safetensors.index.json] (when it has one; the entries that are
    objects of strings) and its shard files by name.  [snapshot_download]
    and [hf_hub_download] fetch from it into the cache directory of
    [huggingface_hub], which is not part of the file system of the model;
    what is read back from the cache is what the repository holds. *)
Record HubRepo : Type := mkHubRepo {
  index_json : option (list (string * list (string * string)));
  shards : list (string * list (string * Tensor))
}.

Definition Hub := list (string * HubRepo).

Definition mixtral_rules (layer_id expert_id : Z) : list (string * string) :=
  [ ("model.layers." +:+ str_of_int layer_id +:+ ".block_sparse_moe.experts."
       +:+ str_of_int expert_id +:+ ".w1.weight", "block.w1.weight");
    ("model.layers." +:+ str_of_int layer_id +:+ ".block_sparse_moe.experts."
       +:+ str_of_int expert_id +:+ ".w2.weight", "block.w2.weight");
    ("model.layers." +:+ str_of_int layer_id +:+ ".block_sparse_moe.experts."
       +:+ str_of_int expert_id +:+ ".w3.weight", "block.w3.weight") ].

(** [d[k]] of a dict *)
Definition getitem {A} (d : list (string * A)) (k : string) : res A :=
  match assoc k d with
  | Some v => Ok v
  | None => Raise KeyError
  end.

(** [d[k] = v] of a dict *)
Fixpoint setitem {A} (d : list (string * A)) (k : string) (v : A) : list (string * A) :=
  match d with
  | [] => [(k, v)]
  | (k', v') :: rest =>
      if String.eqb k' k then (k', v) :: rest else (k', v') :: setitem rest k v
  end.

Section HfLoader.

Context {cast : Casting}.
Variable hub : Hub.

(** [load_huggingface_rep] then [load_weights_map_from_json]: the weight
  map of the repository's index file.  [snapshot_download] raises
  RepositoryNotFoundError for a repository that is not there; [open]
  raises FileNotFoundError when the snapshot has no index file. *)
Definition load_weights_map (repo_id : string) : res (list (string * string)) :=
match assoc repo_id hub with
| Some repo =>
    match index_json repo with
    | Some json => getitem json "weight_map"
    | None => Raise FileNotFoundError
    end
| None => Raise RepositoryNotFoundError
end.

(** [hf_hub_download] raises RepositoryNotFoundError for a repository that
  is not there and EntryNotFoundError for a file that the repository does
  not hold; the file that it has fetched is read by [load_safetensor]. *)
Definition get_state_dict_by_key (key : string) (weigths_map : list (string * string))
  (repo_id : string) : res (list (string * Tensor)) :=
filename ← getitem weigths_map key;
match assoc repo_id hub with
| Some repo =>
    match assoc filename (shards repo) with
    | Some tensors => Ok (sort_by_key tensors)
    | None => Raise EntryNotFoundError
    end
| None => Raise RepositoryNotFoundError
end.

Definition get_expert_state_dict (state_dict : list (string * Tensor)) (key : string)
: res Tensor :=
getitem state_dict key.

(** The dictionary that the loop over [rule.items()] assembles. *)
Definition assemble_state_dict (rule : list (string * string))
  (weights_map : list (string * string)) (repo_id : string)
: res (list (string * Tensor)) :=
for_each rule (fun '(key, expert_key) module_state_dict =>
  state_dict ← get_state_dict_by_key key weights_map repo_id;
  value ← get_expert_state_dict state_dict key;
  Ok (setitem module_state_dict expert_key value)) [].

Definition lift {A} (r : res A) : IO A := fun w => (r, w).

Definition _load_weights_from_hf (expert : nat) (expert_id layer_id : Z)
  (repo_id : string) : IO unit :=
weights_map ← lift (load_weights_map repo_id);
let rule := mixtral_rules layer_id expert_id in
module_state_dict ← lift (assemble_state_dict rule weights_map repo_id);
load_state_dict expert module_state_dict.

End HfLoader.

(** ** checkpoints.py *)

Definition assert (b : bool) : IO unit :=
  if b then mret tt else raise AssertionError.

Definition is_directory (directory : option path) : IO bool :=
  match directory with
  | None => raise AssertionError
  | Some d =>
      e ← os_path_exists d; _ ← assert e;
      b ← os_path_isdir d; _ ← assert b;
      mret true
  end.

Definition is_file (directory : option path) : IO bool :=
  match directory with
  | None => raise AssertionError
  | Some d =>
      e ← os_path_exists d; _ ← assert e;
      b ← os_path_isfile d; _ ← assert b;
      mret true
  end.

(** [copy_tree(src, dst)]; [depth] is how many nested calls the
    interpreter still allows. *)
Fixpoint copy_tree (depth : nat) (src dst : path) : IO unit :=
  match depth with
  | O => raise RecursionError
  | S depth' =>
      e ← os_path_exists dst;
      _ ← (if e : bool then mret tt else os_makedirs dst);
      items ← os_listdir src;
      for_ items (fun item =>
        let src_entry := src ++ [item] in
        let dst_entry := dst ++ [item] in
        d ← os_path_isdir src_entry;
        if d : bool then copy_tree depth' src_entry dst_entry
        else copy2 src_entry dst_entry)
  end.

(** Modelled from the spec: [ModuleBackend] is imported from
    hivemind.moe.server.module_backend, which is not among the sources; its
    [state_dict()] yields the state dictionary of the module it hosts and
    the state dictionary of the backend (optimizer and scheduler). *)
Record ModuleBackend : Set := mkModuleBackend {
  mb_module : nat;
  mb_backend_state : list (string * Tensor)
}.

Definition ModuleBackend_state_dict (b : ModuleBackend)
  : IO (list (string * Tensor) * list (string * Tensor)) := fun w =>
  match w_modules w !! mb_module b with
  | Some m => (Ok (state_dict m, mb_backend_state b), w)
  | None => (Raise RuntimeError, w)
  end.

(** [store_experts(experts, checkpoint_dir)]: [now] is what
    [datetime.now()] answers and [tmpdirname] the staging directory that
    [TemporaryDirectory()] makes.  A path of the model is absolute, so
    [checkpoint_dir.absolute()] is the path itself; the name of an expert
    is one path component. *)
Definition store_experts (depth : nat) (now : datetime) (tmpdirname : path)
    (experts : list (string * ModuleBackend)) (checkpoint_dir : path) : IO unit :=
  _ ← logger_debug ("Storing experts at " +:+ path_str checkpoint_dir);
  _ ← is_directory (Some checkpoint_dir);
  let timestamp := isoformat "_" now in
  with_TemporaryDirectory tmpdirname (
    _ ← for_ experts (fun '(expert_name, expert_backend) =>
          let expert_dir := tmpdirname ++ [expert_name] in
          _ ← os_mkdir expert_dir;
          '(module_state_dict, backend_state_dict) ← ModuleBackend_state_dict expert_backend;
          let module_checkpoint_name :=
            expert_dir ++ ["module_" +:+ timestamp +:+ ".safetensors"] in
          let backed_checkpoint_name :=
            expert_dir ++ ["checkpoint_" +:+ timestamp +:+ ".safetensors"] in
          _ ← save_file module_state_dict module_checkpoint_name;
          _ ← save_file backend_state_dict backed_checkpoint_name;
          _ ← os_symlink module_checkpoint_name (expert_dir ++ ["module.safetensors"]);
          os_symlink backed_checkpoint_name (expert_dir ++ ["checkpoint_last.safetensors"]));
    copy_tree depth tmpdirname checkpoint_dir).

(** Python values, for the code whose arguments are not of one type. *)
Inductive value : Set :=
  | VNone
  | VStr (s : string)
  | VInt (n : Z)
  | VPath (p : path)
  | VModule (id : nat).

(** [bool(v)] *)
Definition truthy (v : value) : bool :=
  match v with
  | VNone => false
  | VStr s => negb (String.eqb s "")
  | VInt n => negb (Z.eqb n 0)
  | VPath _ => true
  | VModule _ => true
  end.

(** The body of [load_expert].  Its parameter list reads
    [(expert: nn,Module, expert_name: str, checkpoint_dir: Path)]: four
    parameters, [expert] (annotated [nn]), [Module], [expert_name] and
    [checkpoint_dir]. *)
Definition load_expert_body {cast : Casting} (expert Module_ expert_name checkpoint_dir : value)
  : IO unit :=
  match checkpoint_dir, expert_name with
  | VPath dir, VStr name =>
      let checkpoints_folder := dir ++ [name] in
      let latest_checkpoint := checkpoints_folder ++ ["module.safetensors"] in
      e ← os_path_exists latest_checkpoint;
      if e : bool then
        tensors ← load_file latest_checkpoint;
        match expert with
        | VModule id => load_state_dict id tensors
        | _ => raise TypeError
        end
      else
        logger_warning ("Failed to load checkpoint for expert " +:+ name)
  | _, _ => raise TypeError
  end.

(** A call [load_expert(a1, ..., an)] with positional arguments: none of
    the four parameters has a default, so any other number of arguments is
    a TypeError. *)
Definition load_expert {cast : Casting} (args : list value) : IO unit :=
  match args with
  | [expert; Module_; expert_name; checkpoint_dir] =>
      load_expert_body expert Module_ expert_name checkpoint_dir
  | _ => raise TypeError
  end.

Definition load_expert_from_hf {cast : Casting} (hub : Hub) (expert : nat) (repo_id : string)
    (expert_id layer_id : Z) : IO unit :=
  _load_weights_from_hf hub expert expert_id layer_id repo_id.

(** ** server.py: restoring the weights of a new expert *)

(** [Server._load_expert_weights]: [checkpoint_dir] is a path or [None],
    [hugginface_rep] a string or [None]. *)
Definition _load_expert_weights {cast : Casting} (hub : Hub) (expert : nat)
    (expert_uid : ExpertUID) (checkpoint_dir : option path)
    (hugginface_rep : option string) : IO unit :=
  let checkpoint_dir_v := from_option VPath VNone checkpoint_dir in
  let hugginface_rep_v := from_option VStr VNone hugginface_rep in
  if truthy checkpoint_dir_v && negb (truthy hugginface_rep_v) then
    load_expert [VModule expert; VStr (uid expert_uid); checkpoint_dir_v]
  else if negb (truthy checkpoint_dir_v) && truthy hugginface_rep_v then
    match hugginface_rep with
    | Some rep => load_expert_from_hf hub expert rep (expert_id expert_uid) (layer_id expert_uid)
    | None => raise TypeError
    end
  else mret tt.

(** ** Predicates and functions of the statements *)

(** The characters of a decimal numeral. *)
Definition is_num_char (c : ascii) : bool :=
  is_digit c || Ascii.eqb c "-".

Fixpoint all_num (s : string) : bool :=
  match s with
  | EmptyString => true
  | String c s' => is_num_char c && all_num s'
  end.

(** The replacement fields that [_generate_uid] can fill. *)
Definition fields_ok (p : pattern) : bool :=
  forallb (fun pc => match pc with
                     | Lit _ => true
                     | Field n => String.eqb n "expert_id" || String.eqb n "layer_id"
                     end) p.




Definition is_lit (pc : piece) : bool :=
  match pc with Lit _ => true | Field _ => false end.

(** [prefix{layer_id}sep{expert_id}suffix], the separator starting with a
    character that no numeral has. *)
Definition separated (p : pattern) : bool :=
  match p with
  | Lit _ :: Field l :: Lit (String c _) :: Field e :: rest =>
      String.eqb l "layer_id" && String.eqb e "expert_id"
      && negb (is_num_char c) && forallb is_lit rest
  | _ => false
  end.

(** What the pattern renders to (the empty string where it raises). *)
Definition render (p : pattern) (layer_id expert_id : Z) : string :=
  match _generate_uid p layer_id expert_id with
  | Ok s => s
  | Raise _ => ""
  end.

Definition index_pair (u : ExpertUID) : Z * Z := (layer_id u, expert_id u).

(** The list that step 1 of [_generate_uids] builds. *)
Definition sampled (p : pattern) (num_experts num_layers layers_start : Z)
  : list ExpertUID :=
  flat_map (fun l => map (fun e => mkExpertUID (render p l e) e l)
                       (py_range 0 num_experts))
           (py_range layers_start num_layers).


(** The exemption that [_replace_with_bnb_layers] grants: the child's own
    name is listed, or a listed key is the child's dotted path, or a listed
    key followed by a dot occurs somewhere in that path. *)
Definition exempted (name path : string) (modules_to_not_convert : list string)
  : Prop :=
  In name modules_to_not_convert
  \/ exists key, In key modules_to_not_convert
                 /\ (key = path \/ str_in (key +:+ ".") path = true).

(** The exclusion as the specification words it: an entry equals the path,
    or is a prefix of the path that ends at a segment boundary. *)
Definition spec_excluded (path : string) (modules_to_not_convert : list string)
  : bool :=
  existsb (fun key => String.eqb key path || String.prefix (key +:+ ".") path)
    modules_to_not_convert.

(** The name of the [n]-th matrix of an expert in the repository. *)
Definition source_key (layer_id expert_id : Z) (n : string) : string :=
  "model.layers." +:+ str_of_int layer_id +:+ ".block_sparse_moe.experts."
    +:+ str_of_int expert_id +:+ ".w" +:+ n +:+ ".weight".

(** The tensor stored under [key] in the shard that the weight map names
    for [key]. *)
Definition shard_tensor (hub : Hub) (repo_id : string)
    (weights_map : list (string * string)) (key : string) : option Tensor :=
  match assoc key weights_map, assoc repo_id hub with
  | Some filename, Some repo =>
      match assoc filename (shards repo) with
      | Some tensors => assoc key tensors
      | None => None
      end
  | _, _ => None
  end.

(** A re-encoding to run examples with: the elements as they are. *)
Definition id_casting : Casting := fun _ _ data => data.


(** [p] is a prefix of [q], as paths. *)
Fixpoint is_prefix (p q : path) : bool :=
  match p, q with
  | [], _ => true
  | c :: p', d :: q' => String.eqb c d && is_prefix p' q'
  | _ :: _, [] => false
  end.









(** The same world with another file system. *)
Definition with_fs (w : World) (fs : node) : World :=
  mkWorld fs (w_modules w) (w_log w).






(** After its first step (the destination is there), [copy_tree] lists the
    source and copies entry by entry. *)
Definition copy_entries (depth : nat) (src dst : path) : IO unit :=
  items ← os_listdir src;
  for_ items (fun item =>
    d ← os_path_isdir (src ++ [item]);
    if d : bool then copy_tree depth (src ++ [item]) (dst ++ [item])
    else copy2 (src ++ [item]) (dst ++ [item])).


(** ** Storing checkpoints *)

(** The names of the two snapshot files of a store cycle. *)
Definition module_name (timestamp : string) : string :=
  "module_" +:+ timestamp +:+ ".safetensors".

Definition checkpoint_name (timestamp : string) : string :=
  "checkpoint_" +:+ timestamp +:+ ".safetensors".

(** The names that one store cycle stages per expert, in order. *)
Definition stage_names (timestamp : string) : list string :=
  [ module_name timestamp; checkpoint_name timestamp;
    "module.safetensors"; "checkpoint_last.safetensors" ].

(** What [store_experts] stages for one expert in [expert_dir]. *)
Definition staged_dir (expert_dir : path) (timestamp : string)
    (module_state_dict backend_state_dict : list (string * Tensor))
  : list (string * node) :=
  [ (module_name timestamp, File (Safetensors module_state_dict));
    (checkpoint_name timestamp, File (Safetensors backend_state_dict));
    ("module.safetensors", Symlink (expert_dir ++ [module_name timestamp]));
    ("checkpoint_last.safetensors", Symlink (expert_dir ++ [checkpoint_name timestamp])) ].

(** The body of the loop over [experts.items()] in [store_experts]. *)
Definition stage_expert (tmpdirname : path) (timestamp : string)
    (item : string * ModuleBackend) : IO unit :=
  let '(expert_name, expert_backend) := item in
  let expert_dir := tmpdirname ++ [expert_name] in
  _ ← os_mkdir expert_dir;
  '(module_state_dict, backend_state_dict) ← ModuleBackend_state_dict expert_backend;
  let module_checkpoint_name :=
    expert_dir ++ ["module_" +:+ timestamp +:+ ".safetensors"] in
  let backed_checkpoint_name :=
    expert_dir ++ ["checkpoint_" +:+ timestamp +:+ ".safetensors"] in
  _ ← save_file module_state_dict module_checkpoint_name;
  _ ← save_file backend_state_dict backed_checkpoint_name;
  _ ← os_symlink module_checkpoint_name (expert_dir ++ ["module.safetensors"]);
  os_symlink backed_checkpoint_name (expert_dir ++ ["checkpoint_last.safetensors"]).

(** The world once [store_experts] has run its first line: the debug
    record is in the log. *)
Definition storing (checkpoint_dir : path) (w : World) : World :=
  mkWorld (w_fs w) (w_modules w)
    (w_log w ++ [(DEBUG, "Storing experts at " +:+ path_str checkpoint_dir)]).

(** A name joins a listing at its end, unless it is there. *)
Definition add_name (names : list string) (n : string) : list string :=
  if str_mem n names then names else names ++ [n].

(** [new] joins a listing, name by name. *)
Definition add_names (new names : list string) : list string :=
  fold_left add_name new names.

(** The listing of an expert's checkpoint directory after store cycles with
    the given timestamps, in the order the entries came. *)
Definition listing (timestamps : list string) : list string :=
  match timestamps with
  | [] => []
  | t :: rest =>
      stage_names t
      ++ flat_map (fun t' => [module_name t'; checkpoint_name t']) rest
  end.

(** One store cycle: the time, the staging directory that
    [TemporaryDirectory()] makes, and the modules as training has left them
    at that time. *)
Record cycle : Type := mkCycle {
  c_now : datetime;
  c_tmpdirname : path;
  c_modules : gmap nat nn_Module
}.

Definition c_timestamp (c : cycle) : string := isoformat "_" (c_now c).

(** Store cycles one after the other, as the loop of [CheckpointSaver.run]
    (or of a test) makes them. *)
Definition store_cycles (depth : nat) (cycles : list cycle)
    (experts : list (string * ModuleBackend)) (checkpoint_dir : path) : IO unit :=
  for_ cycles (fun c =>
    _ ← (fun w => (Ok tt, mkWorld (w_fs w) (c_modules c) (w_log w)));
    store_experts depth (c_now c) (c_tmpdirname c) experts checkpoint_dir).

(** The entries of the directory of expert [e]: none when it is not there,
    else files with these names. *)
Definition dir_names (checkpoint_dir : path) (e : string) (fs : node)
    (names : list string) : Prop :=
  match lookup_node (checkpoint_dir ++ [e]) fs with
  | None => names = []
  | Some (Dir des) => Forall (fun en => exists c, en.2 = File c) des /\ map fst des = names
  | Some _ => False
  end.

(** An example for [store_experts]: one expert, a linear layer, stored
    twice, a second apart, into the empty directory [ckpt]. *)
Definition example_module : nn_Module :=
  mkModule (Linear 1 1)
    [("weight", mkParameter (mkTensor float32 [1%nat; 1%nat] [1]) true)] [] None None.

Definition example_experts : list (string * ModuleBackend) :=
  [("expert.0", mkModuleBackend 0 [("step", mkTensor int64 [] [0])])].

Definition example_cycles : list cycle :=
  [ mkCycle (mkDatetime 2024 1 2 3 4 5 6) ["tmp"; "tmpa"] {[ 0%nat := example_module ]};
    mkCycle (mkDatetime 2024 1 2 3 4 6 7) ["tmp"; "tmpb"] {[ 0%nat := example_module ]} ].

Definition example_world : World :=
  mkWorld (Dir [("tmp", Dir []); ("ckpt", Dir [])]) ∅ [].

(** A source entry that [copy2] reads as a file with content [c]: a file,
    or a link to a file below [src]. *)
Definition reads_as (src : path) (fs : node) (n : string) (c : content) : Prop :=
  lookup_node (src ++ [n]) fs = Some (File c)
  \/ exists a, lookup_node (src ++ [n]) fs = Some (Symlink a)
               /\ lookup_node a fs = Some (File c)
               /\ src `prefix_of` a.

(** Every entry is a regular file. *)
Definition all_files (es : list (string * node)) : Prop :=
  Forall (fun e => exists c, e.2 = File c) es.

(** The entries of the destination after the files [items] are copied in. *)
Definition copied_in (items : list (string * content)) (des : list (string * node))
  : list (string * node) :=
  fold_left (fun des '(n, c) => set_entry n (File c) des) items des.

(** The names in an expert's directory after cycles with timestamps
    [tss], starting from none. *)
Definition names_after (tss : list string) : list string :=
  fold_left (fun names t => add_names (stage_names t) names) tss [].

(** The state of the staging directory while the files of expert [e] are
    put into it: the directory of [e] holds [cur], every path that is not
    along or below it reads as in [fs0]. *)
Definition staging (tmp : path) (e : string) (es : list (string * node))
    (fs0 fs : node) (cur : list (string * node)) : Prop :=
  lookup_node tmp fs = Some (Dir (set_entry e (Dir cur) es))
  /\ forall q, ~ tmp ++ [e] `prefix_of` q -> ~ q `prefix_of` tmp ++ [e] ->
               lookup_node q fs = lookup_node q fs0.

(** The files that [copy_tree] finds in what was staged for one expert. *)
Definition staged_items (sd bsd : list (string * Tensor)) (ts : string)
  : list (string * content) :=
  [ (module_name ts, Safetensors sd); (checkpoint_name ts, Safetensors bsd);
    ("module.safetensors", Safetensors sd);
    ("checkpoint_last.safetensors", Safetensors bsd) ].


(** ** Further properties: what the statements speak of *)

(** [directory] names a directory (a link to one counts). *)
Definition names_directory (directory : option path) (fs : node) : bool :=
  match directory with
  | Some d => is_dir_node (stat fs d)
  | None => false
  end.

(** [directory] names a regular file (a link to one counts). *)
Definition names_file (directory : option path) (fs : node) : bool :=
  match directory with
  | Some d => match stat fs d with Some (File _) => true | _ => false end
  | None => false
  end.

(** The entries of the directory at [p] (none when no directory is
    there). *)
Definition entries_at (p : path) (fs : node) : list (string * node) :=
  match lookup_node p fs with
  | Some (Dir es) => es
  | _ => []
  end.

(** At [p] there is nothing, or a directory that holds regular files
    only. *)
Definition flat_or_absent (p : path) (fs : node) : Prop :=
  match lookup_node p fs with
  | None => True
  | Some (Dir es) => all_files es
  | Some _ => False
  end.

(** An example for [store_experts]: the module of the expert is loaded, and
    its checkpoint directory holds a file from before. *)
Definition example_world_old : World :=
  mkWorld
    (Dir [ ("tmp", Dir []);
           ("ckpt", Dir [("expert.0", Dir [("old.safetensors", File (Bytes [1]))])]) ])
    {[ 0%nat := example_module ]} [].

(** A property of the world that no write breaks which puts an entry where
    nothing or a regular file was. *)
Definition put_stable (I : World -> Prop) : Prop :=
  forall (w : World) (p : path) (v : node) (fs' : node),
    p <> [] ->
    lookup_node p (w_fs w) = None \/ (exists c, lookup_node p (w_fs w) = Some (File c)) ->
    set_node p v (w_fs w) = Some fs' ->
    I w -> I (with_fs w fs').

(** [m] keeps [I], however it ends. *)
Definition keeps {A} (I : World -> Prop) (m : IO A) : Prop :=
  forall w, I w -> I (m w).2.

(** The directory [dir] holds the name [c], once; the modules are [modules]
    and the log is [log]. *)
Definition holds_once (dir : path) (c : string) (modules : gmap nat nn_Module)
    (log : list (level * string)) (w : World) : Prop :=
  (exists es, lookup_node dir (w_fs w) = Some (Dir es)
              /\ is_Some (assoc c es) /\ assoc c (del_entry c es) = None)
  /\ w_modules w = modules /\ w_log w = log.

(** [hf_loader.load_safetensor], [hf_loader.save_safetensor] *)
Definition load_safetensor (p : path) : IO (list (string * Tensor)) := load_file p.

Definition save_safetensor (tensors : list (string * Tensor)) (p : path) : IO unit :=
  save_file tensors p.

(** The exceptions of a fetch that fails: the repository is not there, it
    has no index file, a key is missing (from the index, from the weight
    map, from the shard), the repository does not hold the shard. *)
Definition fetch_error (err : exn) : Prop :=
  err = RepositoryNotFoundError \/ err = FileNotFoundError
  \/ err = KeyError \/ err = EntryNotFoundError.

(** The modules below [m]: its children, their children, and so on. *)
Fixpoint descendants (m : nn_Module) : list nn_Module :=
  (fix below (cs : list (string * nn_Module)) : list nn_Module :=
     match cs with
     | [] => []
     | (_, c) :: rest => c :: descendants c ++ below rest
     end) (m_children m).

(** A linear layer as [torch.nn.Linear] has it: a weight, maybe a bias, and
    no children. *)
Definition plain_linear (m : nn_Module) : Prop :=
  m_children m = []
  /\ ((exists w, m_parameters m = [("weight", w)])
      \/ (exists w b, m_parameters m = [("weight", w); ("bias", b)])).

(** The layer that [BASE_QUANT_CONFIG] puts for a linear layer: 4 bits,
    [nf4], computing in float16, statistics compressed; no children, no
    parameter that takes a gradient. *)
Definition is_base_4bit (m : nn_Module) : Prop :=
  m_class m = Linear4bit (in_features_of m) (out_features_of m) float16 true "nf4"
  /\ m_children m = []
  /\ Forall (fun np => p_requires_grad np.2 = false) (m_parameters m).

(** An example expert: a block of three linear layers [w1], [w2], [w3]
    without bias, the parameters of a gated feed-forward expert. *)
Definition example_expert : nn_Module :=
  let linear :=
    mkModule (Linear 1 1)
      [("weight", mkParameter (mkTensor float16 [1%nat; 1%nat] [0]) true)]
      [] None None in
  mkModule (OtherModule "Expert") []
    [ ("block", mkModule (OtherModule "Block") []
                  [("w1", linear); ("w2", linear); ("w3", linear)] None None) ]
    None None.

(** An example model: a block of two linear layers, one with a bias. *)
Definition example_block : nn_Module :=
  mkModule (OtherModule "Block") []
    [ ("w1", mkModule (Linear 1 1)
               [("weight", mkParameter (mkTensor float16 [1%nat; 1%nat] [1]) true)]
               [] None None);
      ("w2", mkModule (Linear 1 1)
               [("weight", mkParameter (mkTensor float16 [1%nat; 1%nat] [2]) true);
                ("bias", mkParameter (mkTensor float16 [1%nat] [3]) true)]
               [] None None) ]
    None None.

(** [uids_to_generate = num_experts * num_layers], the number that
    [Server.create] logs before it makes the experts. *)
Definition uids_to_generate (num_experts num_layers : Z) : Z :=
  num_experts * num_layers.

(** ** module_wrapper.py *)

(** [module.parameters()]: the module's own parameters, then each child's,
    in the order of [state_dict]. *)
Fixpoint parameters (m : nn_Module) : list nn_Parameter :=
  map snd (m_parameters m) ++
  (fix children_parameters (cs : list (string * nn_Module)) : list nn_Parameter :=
     match cs with
     | [] => []
     | (_, c) :: rest => parameters c ++ children_parameters rest
     end) (m_children m).

Section ModuleWrapperClass.

(** [torch.optim.Adam], [torch.optim.SGD]: what the optimizer class makes
    of the parameters and of the further arguments is torch's. *)
Variable Optimizer : Type.

Record ModuleWrapper : Type := mkModuleWrapper {
  mw_module : nat;
  mw_expert_id : Z;
  mw_layer_id : Z;
  mw_optimizer : Optimizer
}.

(** [ModuleWrapper(module, expert_id, layer_id, optim_class, load_in_4bit,
    optim_args, optim_kwargs)] *)
Definition ModuleWrapper_init (module : nat) (expert_id layer_id : Z)
    (optim_class : list nn_Parameter -> list value -> list (string * value)
                   -> res Optimizer)
    (load_in_4bit : bool) (optim_args : list value)
    (optim_kwargs : list (string * value)) : IO ModuleWrapper := fun w =>
  match w_modules w !! module with
  | None => (Raise RuntimeError, w)
  | Some m =>
      match optim_class (parameters m) optim_args optim_kwargs with
      | Ok optimizer => (Ok (mkModuleWrapper module expert_id layer_id optimizer), w)
      | Raise e => (Raise e, w)
      end
  end.

Definition get_state_dict (self : ModuleWrapper) : IO (list (string * Tensor)) :=
  fun w =>
    match w_modules w !! mw_module self with
    | Some m => (Ok (state_dict m), w)
    | None => (Raise RuntimeError, w)
    end.

Definition ModuleWrapper_load_state_dict {cast : Casting} (self : ModuleWrapper)
    (state_dict : list (string * Tensor)) : IO unit :=
  load_state_dict (mw_module self) state_dict.

End ModuleWrapperClass.

Arguments mkModuleWrapper {Optimizer} mw_module mw_expert_id mw_layer_id mw_optimizer.
Arguments mw_module {Optimizer} m.
Arguments mw_expert_id {Optimizer} m.
Arguments mw_layer_id {Optimizer} m.
Arguments mw_optimizer {Optimizer} m.
Arguments ModuleWrapper_init {Optimizer} module expert_id layer_id optim_class
  load_in_4bit optim_args optim_kwargs.
Arguments get_state_dict {Optimizer} self.
Arguments ModuleWrapper_load_state_dict {Optimizer cast} self state_dict.

(** What loading makes of a parameter and of a module when no copy
    raises: every parameter whose key is given with a shape that fits has
    the given elements. *)
Definition loaded_parameter {cast : Casting} (sd : list (string * Tensor)) (key : string)
    (p : nn_Parameter) : nn_Parameter :=
  match load_parameter sd key p with
  | Ok p' => p'
  | Raise _ => p
  end.

Fixpoint loaded {cast : Casting} (prefix : string) (sd : list (string * Tensor))
    (m : nn_Module) : nn_Module :=
  mkModule (m_class m)
    (map (fun '(n, p) => (n, loaded_parameter sd (dotted prefix n) p)) (m_parameters m))
    ((fix children_loaded (cs : list (string * nn_Module)) : list (string * nn_Module) :=
        match cs with
        | [] => []
        | (n, c) :: rest => (n, loaded (dotted prefix n) sd c) :: children_loaded rest
        end) (m_children m))
    (is_loaded_in_4bit m) (is_loaded_in_8bit m).

(** Re-encoding within one element type changes nothing. *)
Definition same_type_cast_is_identity (cast : Casting) : Prop :=
  forall (d : dtype) (data : list Z), cast_data d d data = data.

(** ** server.py: making the experts *)

(** [module.to(dtype=d)]: the floating-point parameters of the module and
    of the modules below it are cast; the module is changed in place and
    is the result. *)
Fixpoint Module_to {cast : Casting} (m : nn_Module) (d : dtype) : nn_Module :=
  mkModule (m_class m)
    (map (fun '(n, p) =>
            (n, if is_floating_point (p_data p)
                then mkParameter (Tensor_to (p_data p) d) (p_requires_grad p)
                else p))
       (m_parameters m))
    ((fix children_to (cs : list (string * nn_Module)) : list (string * nn_Module) :=
        match cs with
        | [] => []
        | (n, c) :: rest => (n, Module_to c d) :: children_to rest
        end) (m_children m))
    (is_loaded_in_4bit m) (is_loaded_in_8bit m).

Section MakeExpert.

Context {cast : Casting}.

(** Modelled from the spec: [name_to_block] is imported from
    hivemind.moe.server.layers, which is not among the sources; it is the
    catalog of expert types, from a name to the constructor that makes a
    block of a hidden dimension. *)
Variable name_to_block : list (string * (Z -> nn_Module)).

(** [Server._make_expert] *)
Definition _make_expert (load_in_4bit : bool) (expert_cls : string) (hidden_dim : Z)
  : res nn_Module :=
  if load_in_4bit then
    block ← getitem name_to_block expert_cls;
    quantization (Module_to (block hidden_dim) float16)
  else
    block ← getitem name_to_block expert_cls;
    Ok (block hidden_dim).

End MakeExpert.

(** The loop of [Server.create] that files each expert under its uid:
    [experts = {}], then for each [expert_uid] the backend is made and
    [experts[expert_uid.uid] = ModuleBackend(...)].  [make_backend] is what
    the body does to make the backend of one uid ([_make_expert],
    [_load_expert_weights], the optimizer, [ModuleBackend(...)]). *)
Fixpoint create_experts {Backend : Type} (make_backend : ExpertUID -> IO Backend)
    (expert_uids : list ExpertUID) (experts : list (string * Backend))
  : IO (list (string * Backend)) :=
  match expert_uids with
  | [] => mret experts
  | expert_uid :: rest =>
      backend ← make_backend expert_uid;
      create_experts make_backend rest (setitem experts (uid expert_uid) backend)
  end.

(** ** Dictionaries as association lists *)

Lemma assoc_In {A} (k : string) (v : A) (l : list (string * A)) :
  assoc k l = Some v -> In (k, v) l.
Proof.
  induction l as [|[k' v'] l IH]; simpl; [done|].
  destruct (String.eqb_spec k' k) as [->|]; [intros [= ->]; by left|auto].
Qed.

Lemma assoc_None {A} (k : string) (l : list (string * A)) :
  assoc k l = None <-> ~ In k (map fst l).
Proof.
  induction l as [|[k' v'] l IH]; simpl; [tauto|].
  destruct (String.eqb_spec k' k) as [->|Hne]; [split; [done|tauto]|].
  rewrite IH. tauto.
Qed.

Lemma assoc_Some_In {A} (k : string) (l : list (string * A)) :
  is_Some (assoc k l) <-> In k (map fst l).
Proof.
  destruct (assoc k l) eqn:E.
  - split; [intros _|by eexists]. apply assoc_In in E.
    apply in_map_iff. by exists (k, a).
  - split; [by intros [? ?]|]. intros Hin. by apply assoc_None in E.
Qed.

(* ===================================================================== *)
(** * Properties *)
(* ===================================================================== *)

(** ** Strings *)

Lemma app_String (c : ascii) (s t : string) : String c s +:+ t = String c (s +:+ t).
Proof. reflexivity. Qed.

Lemma app_empty_l (s : string) : "" +:+ s = s.
Proof. reflexivity. Qed.

Lemma app_empty_r (s : string) : s +:+ "" = s.
Proof. induction s as [|c s IH]; [done|]. by rewrite app_String, IH. Qed.

Lemma str_app_assoc (s t u : string) : (s +:+ t) +:+ u = s +:+ (t +:+ u).
Proof. induction s as [|c s IH]; [done|]. by rewrite !app_String, IH. Qed.

Lemma str_length_app (s t : string) :
  String.length (s +:+ t) = (String.length s + String.length t)%nat.
Proof. induction s as [|c s IH]; [done|]. rewrite app_String. simpl. by rewrite IH. Qed.

Lemma app_inv_tail_str (s t u : string) : s +:+ u = t +:+ u -> s = t.
Proof.
  revert t. induction s as [|c s IH]; intros [|d t] Heq; rewrite ?app_String in *.
  - done.
  - exfalso. apply (f_equal String.length) in Heq.
    rewrite app_empty_l in Heq. simpl in Heq. rewrite str_length_app in Heq. lia.
  - exfalso. apply (f_equal String.length) in Heq.
    rewrite app_empty_l in Heq. simpl in Heq. rewrite str_length_app in Heq. lia.
  - injection Heq as -> Heq. f_equal. by apply IH.
Qed.

Lemma prefix_app (s t : string) : String.prefix s (s +:+ t) = true.
Proof.
  induction s as [|c s IH]; [by destruct t|].
  rewrite app_String. simpl. destruct (ascii_dec c c); [done|congruence].
Qed.

Lemma prefix_inv (s t : string) :
  String.prefix s t = true -> exists u, t = s +:+ u.
Proof.
  revert t. induction s as [|c s IH]; intros t Hp.
  - by exists t.
  - destruct t as [|d t]; [done|]. simpl in Hp.
    destruct (ascii_dec c d) as [->|]; [|done].
    destruct (IH _ Hp) as [u ->]. by exists u.
Qed.

(** [s in t] holds exactly when [t] is [a + s + b] for some [a], [b]. *)
Lemma str_in_spec (s t : string) :
  str_in s t = true <-> exists a b, t = a +:+ s +:+ b.
Proof.
  split.
  - induction t as [|d t IH]; cbn [str_in]; intros Hin.
    + apply orb_true_iff in Hin as [Hp|]; [|done].
      apply prefix_inv in Hp as [u ->]. by exists "", u.
    + apply orb_true_iff in Hin as [Hp|Hin].
      * apply prefix_inv in Hp as [u ->]. by exists "", u.
      * destruct (IH Hin) as (a & b & ->). by exists (String d a), b.
  - intros (a & b & ->). induction a as [|c a IH].
    + rewrite app_empty_l.
      assert (str_in s (s +:+ b) = String.prefix s (s +:+ b) || str_in s (s +:+ b))
        as -> by (destruct (s +:+ b); cbn [str_in]; by destruct (String.prefix _ _)).
      by rewrite prefix_app.
    + rewrite app_String. cbn [str_in]. rewrite IH. apply orb_true_r.
Qed.

(** ** Decimal numerals *)

Lemma all_num_uint (d : uint) : all_num (NilEmpty.string_of_uint d) = true.
Proof. induction d; simpl; auto. Qed.

Lemma str_of_int_all_num (n : Z) : all_num (str_of_int n) = true.
Proof.
  unfold str_of_int. destruct (Z.to_int n) as [d|d]; simpl.
  - destruct d; try done; apply (all_num_uint (_ _)).
  - destruct d; try done; apply (all_num_uint (_ _)).
Qed.

Lemma to_int_not_nil (n : Z) : Z.to_int n <> Pos Nil /\ Z.to_int n <> Neg Nil.
Proof.
  destruct n as [|p|p]; simpl; split; try discriminate;
    intros [= Hp]; by apply (DecimalPos.Unsigned.to_uint_nonnil p).
Qed.

Lemma str_of_int_inj (a b : Z) : str_of_int a = str_of_int b -> a = b.
Proof.
  unfold str_of_int. intros Heq.
  apply (f_equal NilZero.int_of_string) in Heq.
  destruct (to_int_not_nil a), (to_int_not_nil b).
  rewrite !NilZero.isi in Heq by done.
  injection Heq as Heq. by apply DecimalZ.to_int_inj.
Qed.

(** Two numerals followed by the same text that starts with something that
    is not part of a numeral: the numerals are the same. *)
Lemma num_split (a b : string) (c : ascii) (x y : string) :
  all_num a = true -> all_num b = true -> is_num_char c = false ->
  a +:+ String c x = b +:+ String c y -> a = b /\ x = y.
Proof.
  revert b. induction a as [|d a IH]; intros [|e b] Ha Hb Hc Heq;
    rewrite ?app_String, ?app_empty_l in Heq; simpl in *.
  - by injection Heq as ->.
  - injection Heq as <- _. apply andb_true_iff in Hb as [Hb _]. congruence.
  - injection Heq as -> _. apply andb_true_iff in Ha as [Ha _]. congruence.
  - injection Heq as -> Heq.
    apply andb_true_iff in Ha as [_ Ha]. apply andb_true_iff in Hb as [_ Hb].
    destruct (IH b Ha Hb Hc Heq) as [-> ->]. done.
Qed.

(** ** Expert uids *)

Lemma format_fields_ok (p : pattern) (l e : Z) :
  fields_ok p = true ->
  _generate_uid p l e = Ok (render p l e).
Proof.
  unfold render, _generate_uid. intros Hp.
  assert (exists s, format p [("expert_id", e); ("layer_id", l)] = Ok s) as [s ->]; [|done].
  induction p as [|[text|name] p IH]; simpl in *.
  - by eexists.
  - destruct (IH Hp) as [s ->]. by eexists.
  - apply andb_true_iff in Hp as [Hn Hp]. destruct (IH Hp) as [s ->].
    apply orb_true_iff in Hn as [->%String.eqb_eq| ->%String.eqb_eq]; by eexists.
Qed.

Lemma for_each_flat {A B} (f : A -> list B -> res (list B)) (g : A -> list B)
    (xs : list A) (acc : list B) :
  (forall x acc, In x xs -> f x acc = Ok (acc ++ g x)) ->
  for_each xs f acc = Ok (acc ++ flat_map g xs).
Proof.
  revert acc. induction xs as [|x xs IH]; intros acc Hf; simpl.
  - by rewrite app_nil_r.
  - rewrite Hf by (simpl; tauto). simpl.
    rewrite IH by (intros; apply Hf; simpl; tauto).
    by rewrite <- app_assoc.
Qed.

Lemma expert_loop (p : pattern) (l : Z) (es : list Z) (acc : list ExpertUID) :
  fields_ok p = true ->
  for_each es (fun expert_id new_uids =>
    new_uid ← _generate_uid p l expert_id;
    Ok (new_uids ++ [mkExpertUID new_uid expert_id l])) acc
  = Ok (acc ++ map (fun e => mkExpertUID (render p l e) e l) es).
Proof.
  intros Hp. revert acc. induction es as [|e es IH]; intros acc; simpl.
  - by rewrite app_nil_r.
  - rewrite format_fields_ok by done. simpl. rewrite IH.
    by rewrite <- app_assoc.
Qed.

Lemma sample_loop (p : pattern) (ne nl ls : Z) :
  fields_ok p = true ->
  for_each (py_range ls nl) (fun layer_id new_uids =>
    for_each (py_range 0 ne) (fun expert_id new_uids =>
      new_uid ← _generate_uid p layer_id expert_id;
      Ok (new_uids ++ [mkExpertUID new_uid expert_id layer_id]))
      new_uids) []
  = Ok (sampled p ne nl ls).
Proof.
  intros Hp. unfold sampled.
  rewrite (for_each_flat _
    (fun l => map (fun e => mkExpertUID (render p l e) e l) (py_range 0 ne))); [done|].
  intros l acc _. by apply expert_loop.
Qed.

Lemma in_py_range (a b x : Z) : In x (py_range a b) <-> a <= x < b.
Proof.
  unfold py_range. rewrite in_map_iff. split.
  - intros (i & <- & Hi%in_seq). lia.
  - intros Hx. exists (Z.to_nat (x - a)). split; [lia|]. apply in_seq. lia.
Qed.

Lemma NoDup_py_range (a b : Z) : List.NoDup (py_range a b).
Proof.
  unfold py_range. apply Finite.Injective_map_NoDup; [|apply seq_NoDup].
  intros i j. lia.
Qed.

Lemma sampled_pairs (p : pattern) (ne nl ls : Z) :
  map index_pair (sampled p ne nl ls) = list_prod (py_range ls nl) (py_range 0 ne).
Proof.
  unfold sampled. induction (py_range ls nl) as [|l ls' IH]; [done|].
  simpl. rewrite map_app, IH. f_equal.
  rewrite map_map. done.
Qed.

Lemma NoDup_list_prod {A B} (xs : list A) (ys : list B) :
  List.NoDup xs -> List.NoDup ys -> List.NoDup (list_prod xs ys).
Proof.
  intros Hx Hy. induction Hx as [|x xs Hnin Hx IH]; simpl; [constructor|].
  apply List.NoDup_app; [|done|].
  - apply Finite.Injective_map_NoDup; [|done]. by intros ?? [= ->].
  - intros [a b] Hin Hin'.
    apply in_map_iff in Hin as (y & [= <- <-] & _).
    apply in_prod_iff in Hin' as [? _]. done.
Qed.

Lemma format_lits (rest : pattern) :
  forallb is_lit rest = true ->
  exists suf, forall kw, format rest kw = Ok suf.
Proof.
  induction rest as [|[text|name] rest IH]; simpl; intros Hl; [by eexists| |done].
  destruct (IH Hl) as [suf Hsuf]. exists (text +:+ suf). intros kw.
  by rewrite Hsuf.
Qed.

Lemma render_separated (p : pattern) (l e l' e' : Z) :
  separated p = true ->
  render p l e = render p l' e' -> l = l' /\ e = e'.
Proof.
  destruct p as [|[pre|] [|[|f1] [|[[|c sep]|] [|[|f2] rest]]]]; try done.
  simpl. intros Hs.
  apply andb_true_iff in Hs as [Hs Hrest].
  apply andb_true_iff in Hs as [Hs Hc]. apply negb_true_iff in Hc.
  apply andb_true_iff in Hs as [->%String.eqb_eq ->%String.eqb_eq].
  destruct (format_lits rest Hrest) as [suf Hsuf].
  unfold render, _generate_uid. simpl. rewrite !Hsuf. simpl.
  intros Heq%String.app_inj.
  apply num_split in Heq as [Hl Heq];
    [|apply str_of_int_all_num|apply str_of_int_all_num|done].
  apply String.app_inj in Heq. apply app_inv_tail_str in Heq.
  split; by apply str_of_int_inj.
Qed.

Lemma sampled_uid (p : pattern) (ne nl ls : Z) (u : ExpertUID) :
  In u (sampled p ne nl ls) -> uid u = render p (layer_id u) (expert_id u).
Proof.
  unfold sampled. intros (l & _ & Hu)%in_flat_map.
  apply in_map_iff in Hu as (e & <- & _). done.
Qed.

(** C5 (as amended). Without a DHT, and for a pattern whose replacement
    fields are [layer_id] and [expert_id], [_generate_uids] returns one triple
    per pair of a layer in [[layers_start, num_layers)] and an expert in
    [[0, num_experts)], layer-major, the uid being the pattern rendered at that
    pair; the uids are pairwise distinct when the pattern is
    prefix{layer_id}sep{expert_id}suffix with a separator that starts with a
    character no numeral has. *)
Theorem generate_uids_enumerates {DHT RemoteExpert : Type}
    (get_experts : DHT -> list string -> list (option RemoteExpert))
    (num_experts num_layers layers_start : Z) (expert_pattern : pattern)
    (attempts_per_expert : Z) :
  fields_ok expert_pattern = true ->
  exists uids,
    _generate_uids get_experts num_experts num_layers layers_start
      expert_pattern None attempts_per_expert = Ok uids
    /\ map index_pair uids
       = list_prod (py_range layers_start num_layers) (py_range 0 num_experts)
    /\ (forall l e, In (l, e) (map index_pair uids)
                    <-> layers_start <= l < num_layers /\ 0 <= e < num_experts)
    /\ List.NoDup (map index_pair uids)
    /\ (forall u, In u uids ->
          _generate_uid expert_pattern (layer_id u) (expert_id u) = Ok (uid u))
    /\ (separated expert_pattern = true -> List.NoDup (map uid uids)).
Proof.
  intros Hp. exists (sampled expert_pattern num_experts num_layers layers_start).
  split; [|split; [|split; [|split; [|split]]]].
  - unfold _generate_uids. by rewrite sample_loop.
  - apply sampled_pairs.
  - intros l e. rewrite sampled_pairs, in_prod_iff, !in_py_range. done.
  - rewrite sampled_pairs.
    apply NoDup_list_prod; apply NoDup_py_range.
  - intros u Hu. rewrite format_fields_ok by done. f_equal.
    symmetry. by eapply sampled_uid.
  - intros Hs.
    rewrite (map_ext_in uid (fun u => render expert_pattern (index_pair u).1 (index_pair u).2))
      by (intros u Hu; by eapply sampled_uid).
    rewrite <- (map_map index_pair
                  (fun pr => render expert_pattern pr.1 pr.2)).
    apply Finite.Injective_map_NoDup.
    + intros [l e] [l' e'] Heq. simpl in Heq.
      by destruct (render_separated _ _ _ _ _ Hs Heq) as [-> ->].
    + rewrite sampled_pairs. apply NoDup_list_prod; apply NoDup_py_range.
Qed.

(** The documented example: 3 experts, 2 layers from 0, pattern
    [x.{layer_id}.{expert_id}]. *)
Lemma generate_uids_enumerates_witness :
  let p := [Lit "x."; Field "layer_id"; Lit "."; Field "expert_id"] in
  fields_ok p = true
  /\ exists uids,
       _generate_uids (fun (_ : unit) (_ : list string) => @nil (option unit))
         3 2 0 p None 10 = Ok uids
       /\ map index_pair uids = list_prod (py_range 0 2) (py_range 0 3)
       /\ (forall l e, In (l, e) (map index_pair uids) <-> 0 <= l < 2 /\ 0 <= e < 3)
       /\ List.NoDup (map index_pair uids)
       /\ (forall u, In u uids ->
             _generate_uid p (layer_id u) (expert_id u) = Ok (uid u))
       /\ (separated p = true -> List.NoDup (map uid uids)).
Proof.
  intros p. split; [reflexivity|].
  apply (generate_uids_enumerates _ 3 2 0 p 10). reflexivity.
Defined.

Example generate_uids_six :
  _generate_uids (fun (_ : unit) (_ : list string) => @nil (option unit))
    3 2 0 [Lit "x."; Field "layer_id"; Lit "."; Field "expert_id"] None 10
  = Ok [ mkExpertUID "x.0.0" 0 0; mkExpertUID "x.0.1" 1 0; mkExpertUID "x.0.2" 2 0;
         mkExpertUID "x.1.0" 0 1; mkExpertUID "x.1.1" 1 1; mkExpertUID "x.1.2" 2 1 ].
Proof. reflexivity. Qed.

(** C5 (as stated) fails: the pattern [{layer_id}{expert_id}] renders layer
    1, expert 10 and layer 11, expert 0 to the same uid. *)
Lemma generate_uids_duplicate_uid :
  exists uids,
    _generate_uids (fun (_ : unit) (_ : list string) => @nil (option unit))
      11 12 0 [Field "layer_id"; Field "expert_id"] None 10 = Ok uids
    /\ nth_error uids 21 = Some (mkExpertUID "110" 10 1)
    /\ nth_error uids 121 = Some (mkExpertUID "110" 0 11)
    /\ ~ List.NoDup (map uid uids).
Proof.
  eexists. split; [vm_compute; reflexivity|].
  split; [reflexivity|]. split; [reflexivity|].
  intros Hnd.
  assert (21 = 121)%nat as [=].
  apply (proj1 (NoDup_nth_error _) Hnd); [vm_compute; lia|reflexivity].
Qed.

(** C6. With a DHT handle, generation raises the naming conflict as soon as
    one of the uids is found registered, and returns the whole list when
    none is. *)
Theorem generate_uids_dht_check {DHT RemoteExpert : Type}
    (get_experts : DHT -> list string -> list (option RemoteExpert))
    (num_experts num_layers layers_start : Z) (expert_pattern : pattern)
    (dht : DHT) (attempts_per_expert : Z) (uids : list ExpertUID) :
  _generate_uids get_experts num_experts num_layers layers_start
    expert_pattern None attempts_per_expert = Ok uids ->
  let found := get_experts dht (map uid uids) in
  ((exists r, In (Some r) found) ->
     _generate_uids get_experts num_experts num_layers layers_start
       expert_pattern (Some dht) attempts_per_expert = Raise NameError)
  /\ ((forall f, In f found -> f = None) ->
     _generate_uids get_experts num_experts num_layers layers_start
       expert_pattern (Some dht) attempts_per_expert = Ok uids).
Proof.
  intros Hgen found. subst found. unfold _generate_uids in *.
  destruct (for_each _ _ _) as [new_uids|e]; simpl in *; [|done].
  injection Hgen as ->.
  set (found := get_experts dht (map uid uids)).
  assert (Hcf : forall l : list (option RemoteExpert),
             ((exists r, In (Some r) l) -> check_found l = Raise NameError)
             /\ ((forall f, In f l -> f = None) -> check_found l = Ok tt)).
  { induction l as [|[r|] l [IH1 IH2]]; simpl.
    - split; [by intros [? []]|done].
    - split; [done|]. intros Hn. by specialize (Hn (Some r) (or_introl eq_refl)).
    - split.
      + intros [r [|Hr]]; [done|]. apply IH1. by exists r.
      + intros Hn. apply IH2. intros f Hf. apply Hn. by right. }
  destruct (Hcf found) as [H1 H2]. split.
  - intros Hex. by rewrite H1.
  - intros Hn. by rewrite H2.
Qed.

Lemma generate_uids_dht_check_witness :
  let get_experts := fun (registered : list string) (uids : list string) =>
    map (fun u => if str_mem u registered then Some u else None) uids in
  let p := [Lit "x."; Field "layer_id"; Lit "."; Field "expert_id"] in
  let uids := [ mkExpertUID "x.0.0" 0 0; mkExpertUID "x.0.1" 1 0 ] in
  _generate_uids get_experts 2 1 0 p None 10 = Ok uids
  /\ _generate_uids get_experts 2 1 0 p (Some ["x.0.1"]) 10 = Raise NameError
  /\ _generate_uids get_experts 2 1 0 p (Some ["y.0.1"]) 10 = Ok uids.
Proof.
  intros get_experts p uids.
  split; [reflexivity|]. split.
  - apply (generate_uids_dht_check get_experts 2 1 0 p ["x.0.1"] 10 uids eq_refl).
    exists "x.0.1". simpl. tauto.
  - apply (generate_uids_dht_check get_experts 2 1 0 p ["y.0.1"] 10 uids eq_refl).
    simpl. intros f [<-|[<-|[]]]; reflexivity.
Defined.

(** C8. The result of [_generate_uids] does not depend on
    [attempts_per_expert]: same list, same exception. *)
Theorem generate_uids_attempts_irrelevant {DHT RemoteExpert : Type}
    (get_experts : DHT -> list string -> list (option RemoteExpert))
    (num_experts num_layers layers_start : Z) (expert_pattern : pattern)
    (dht : option DHT) (attempts1 attempts2 : Z) :
  _generate_uids get_experts num_experts num_layers layers_start
    expert_pattern dht attempts1
  = _generate_uids get_experts num_experts num_layers layers_start
      expert_pattern dht attempts2.
Proof. reflexivity. Qed.

(** ** Quantization *)

Lemma nn_Module_tree_ind (P : nn_Module -> Prop) :
  (forall c ps cs f4 f8,
      (forall n m, In (n, m) cs -> P m) -> P (mkModule c ps cs f4 f8)) ->
  forall m, P m.
Proof.
  intros Hstep. fix IH 1. intros [c ps cs f4 f8]. apply Hstep.
  induction cs as [|[n' m'] cs IHcs]; intros n m Hin; [destruct Hin|].
  destruct Hin as [[= <- <-]|Hin]; [apply IH|by eapply IHcs].
Qed.

Lemma str_mem_In (name : string) (l : list string) :
  str_mem name l = true <-> In name l.
Proof.
  unfold str_mem. rewrite existsb_exists. split.
  - intros (x & Hx & ->%String.eqb_eq). done.
  - intros Hin. exists name. by rewrite String.eqb_refl.
Qed.

Lemma str_in_app_l (s t u : string) : str_in (s +:+ t) u = true -> str_in s u = true.
Proof.
  rewrite !str_in_spec. intros (a & b & ->). exists a, (t +:+ b).
  by rewrite str_app_assoc.
Qed.

Lemma proceed_scan_false (excl : list string) (s : string) :
  proceed_scan excl s = false
  <-> exists key, In key excl /\ (key = s \/ str_in (key +:+ ".") s = true).
Proof.
  induction excl as [|key excl IH]; simpl.
  - split; [done|by intros (? & [] & _)].
  - destruct (str_in key s && str_in (key +:+ ".") s || String.eqb key s) eqn:E.
    + split; [intros _|done]. exists key. split; [by left|].
      apply orb_true_iff in E as [E|E].
      * apply andb_true_iff in E as [_ E]. by right.
      * apply String.eqb_eq in E. by left.
    + rewrite IH. apply orb_false_iff in E as [E1 E2].
      apply String.eqb_neq in E2.
      split; [intros (k & Hk & Hm); exists k; auto|].
      intros (k & [<-|Hk] & Hm); [|by exists k].
      destruct Hm as [Hm|Hm]; [done|].
      rewrite Hm, (str_in_app_l _ _ _ Hm) in E1. done.
Qed.

(** Whether a linear child is handed to [bnb_layer]. *)
Lemma exempted_dec (name path : string) (excl : list string) :
  exempted name path excl
  <-> negb (str_mem name excl) && proceed_scan excl path = false.
Proof.
  unfold exempted. rewrite andb_false_iff, negb_false_iff, str_mem_In.
  by rewrite proceed_scan_false.
Qed.

Lemma bnb_layer_ok (cfg : BnbQuantizationConfig) (m : nn_Module) :
  load_in_8bit cfg || load_in_4bit cfg = true ->
  exists q, bnb_layer cfg m = Ok q /\ m_children q = [].
Proof.
  unfold bnb_layer. intros Hcfg.
  destruct (load_in_8bit cfg); [by eexists|].
  destruct (load_in_4bit cfg); [by eexists|done].
Qed.

Section ReplaceTotal.

Variable cfg : BnbQuantizationConfig.
Variable excl : list string.
Hypothesis Hcfg : load_in_8bit cfg || load_in_4bit cfg = true.

Lemma visit_child_ok recurse cur name m has :
(forall key, exists r, recurse m key = Ok r) ->
exists child has', visit_child recurse cfg excl cur name m has = Ok (child, has').
Proof.
intros Hrec. unfold visit_child.
destruct (bnb_layer_ok cfg m Hcfg) as (q & Hq & _).
destruct (Hrec (cur ++ [name])) as [[m' h'] Hm'].
destruct (isinstance_Linear m && negb (str_mem name excl));
  [destruct (proceed_scan excl _)|]; rewrite ?Hq; simpl;
  destruct (0 <? length (m_children m))%nat; rewrite ?Hm'; simpl; by eexists _, _.
Qed.

Lemma named_children_loop_ok recurse cur cs has :
(forall n m key, In (n, m) cs -> exists r, recurse m key = Ok r) ->
exists cs' has', named_children_loop recurse cfg excl cur cs has = Ok (cs', has').
Proof.
revert has. induction cs as [|[n m] cs IH]; intros has Hrec; simpl; [by eexists _, _|].
destruct (visit_child_ok recurse cur n m has) as (child & h1 & ->).
{ intros key. apply (Hrec n). by left. }
simpl. destruct (IH h1) as (cs' & h2 & ->).
{ intros n' m' key Hin. apply (Hrec n'). by right. }
simpl. by eexists _, _.
Qed.

Lemma replace_ok model cur :
exists model' flag, _replace_with_bnb_layers model cfg excl cur = Ok (model', flag).
Proof.
revert cur. induction model as [c ps cs f4 f8 IH] using nn_Module_tree_ind.
intros cur. simpl.
destruct (named_children_loop_ok
            (fun module key => _replace_with_bnb_layers module cfg excl key)
            cur cs false) as (cs' & h & ->).
{ intros n m key Hin. destruct (IH n m Hin key) as (m' & fl & ->). by eexists. }
simpl. by eexists _, _.
Qed.

End ReplaceTotal.

Lemma named_children_loop_nth recurse cfg excl cur cs has cs' has' i name m :
  named_children_loop recurse cfg excl cur cs has = Ok (cs', has') ->
  nth_error cs i = Some (name, m) ->
  exists child h1 h2,
    visit_child recurse cfg excl cur name m h1 = Ok (child, h2)
    /\ nth_error cs' i = Some (name, child).
Proof.
  revert has cs' has' i. induction cs as [|[n0 m0] cs IH]; intros has cs' has' i Hloop Hi.
  - by destruct i.
  - simpl in Hloop.
    destruct (visit_child recurse cfg excl cur n0 m0 has) as [[child h1]|] eqn:Hv;
      simpl in Hloop; [|done].
    destruct (named_children_loop recurse cfg excl cur cs h1) as [[rest' h2]|] eqn:Hl;
      simpl in Hloop; [|done].
    injection Hloop as <- <-.
    destruct i as [|i]; simpl in Hi.
    + injection Hi as -> ->. by exists child, has, h1.
    + by apply (IH _ _ _ _ Hl Hi).
Qed.

(** C3 (as amended). Under a configuration that asks for 4 or for 8 bits,
    the replacement returns, and a direct child that is a linear layer is
    left as it is exactly when it is exempted: its own name is an exclusion
    entry, or an entry is its dotted path, or an entry followed by a dot
    occurs in that path; every other linear child is the quantized layer
    built from it. *)
Theorem replace_exempts_exactly (cfg : BnbQuantizationConfig)
    (modules_to_not_convert current_key_name : list string) (model : nn_Module) :
  load_in_8bit cfg || load_in_4bit cfg = true ->
  exists model' flag,
    _replace_with_bnb_layers model cfg modules_to_not_convert current_key_name
      = Ok (model', flag)
    /\ forall i name m,
         nth_error (m_children model) i = Some (name, m) ->
         isinstance_Linear m = true -> m_children m = [] ->
         let path := String.concat "." (current_key_name ++ [name]) in
         (exempted name path modules_to_not_convert ->
            nth_error (m_children model') i = Some (name, m))
         /\ (~ exempted name path modules_to_not_convert ->
               exists q, bnb_layer cfg m = Ok q
                         /\ nth_error (m_children model') i = Some (name, q)).
Proof.
  intros Hcfg.
  destruct (replace_ok cfg modules_to_not_convert Hcfg model current_key_name)
    as (model' & flag & Hrun).
  exists model', flag. split; [done|].
  intros i name m Hi Hlin Hleaf path.
  destruct model as [c ps cs f4 f8]. simpl in Hrun, Hi.
  destruct (named_children_loop _ _ _ _ _ _) as [[cs' h]|] eqn:Hloop;
    simpl in Hrun; [|done].
  injection Hrun as <- <-. simpl.
  destruct (named_children_loop_nth _ _ _ _ _ _ _ _ _ _ _ Hloop Hi)
    as (child & h1 & h2 & Hv & Hnth).
  unfold visit_child in Hv. rewrite Hlin, Hleaf in Hv. simpl in Hv.
  fold path in Hv.
  pose proof (exempted_dec name path modules_to_not_convert) as Hex.
  destruct (negb (str_mem name modules_to_not_convert)) eqn:Hmem; simpl in *.
  - destruct (proceed_scan modules_to_not_convert path) eqn:Hscan.
    + destruct (bnb_layer cfg m) as [q|] eqn:Hq; simpl in Hv; [|done].
      injection Hv as <- <-. split.
      * intros Hx%Hex. done.
      * intros _. by exists q.
    + injection Hv as <- <-. split; [done|].
      intros Hn. exfalso. apply Hn, Hex. done.
  - injection Hv as <- <-. split; [done|].
    intros Hn. exfalso. apply Hn, Hex. done.
Qed.

Lemma replace_exempts_exactly_witness :
  let lin := mkModule (Linear 2 1)
               [("weight", mkParameter (mkTensor float16 [1; 2]%nat [0; 0]) true)]
               [] None None in
  let model := mkModule (OtherModule "Sequential") []
                 [("lm_head", lin); ("fc", lin)] None None in
  load_in_8bit BASE_QUANT_CONFIG || load_in_4bit BASE_QUANT_CONFIG = true
  /\ exists model' flag,
       _replace_with_bnb_layers model BASE_QUANT_CONFIG ["lm_head"] [] = Ok (model', flag)
       /\ forall i name m,
            nth_error (m_children model) i = Some (name, m) ->
            isinstance_Linear m = true -> m_children m = [] ->
            let path := String.concat "." ([] ++ [name]) in
            (exempted name path ["lm_head"] ->
               nth_error (m_children model') i = Some (name, m))
            /\ (~ exempted name path ["lm_head"] ->
                  exists q, bnb_layer BASE_QUANT_CONFIG m = Ok q
                            /\ nth_error (m_children model') i = Some (name, q)).
Proof.
  intros lin model. split; [reflexivity|].
  apply (replace_exempts_exactly BASE_QUANT_CONFIG ["lm_head"] [] model).
  reflexivity.
Defined.

Example replace_lm_head_excluded :
  let lin := mkModule (Linear 2 1)
               [("weight", mkParameter (mkTensor float16 [1; 2]%nat [0; 0]) true)]
               [] None None in
  _replace_with_bnb_layers
    (mkModule (OtherModule "Sequential") [] [("lm_head", lin); ("fc", lin)] None None)
    BASE_QUANT_CONFIG ["lm_head"] []
  = Ok (mkModule (OtherModule "Sequential") []
          [("lm_head", lin);
           ("fc", mkModule (Linear4bit 2 1 float16 true "nf4")
                    [("weight", mkParameter (mkTensor float16 [1; 2]%nat [0; 0]) false)]
                    [] None None)] None None,
        true).
Proof. reflexivity. Qed.

(** C3 (as stated) fails: the entry ["b"] is neither the path ["ab.c"] nor
    a prefix of it that ends at a segment boundary, and matches only the end
    of the segment ["ab"]; the linear layer at [ab.c] is left as it is all
    the same, because ["b."] occurs in the path. *)
Lemma replace_partial_name_exempts :
  let lin := mkModule (Linear 2 1)
               [("weight", mkParameter (mkTensor float16 [1; 2]%nat [0; 0]) true)]
               [] None None in
  let block := mkModule (OtherModule "Block") [] [("c", lin)] None None in
  spec_excluded "ab.c" ["b"] = false
  /\ _replace_with_bnb_layers block BASE_QUANT_CONFIG ["b"] ["ab"]
     = Ok (block, false)
  /\ _replace_with_bnb_layers
       (mkModule (OtherModule "Sequential") [] [("ab", block)] None None)
       BASE_QUANT_CONFIG ["b"] []
     = Ok (mkModule (OtherModule "Sequential") [] [("ab", block)] None None, false).
Proof. repeat split; reflexivity. Qed.

(** The cast of [quantization] stores nothing: the function is the
    replacement, after the two flags are set. *)
Lemma quantization_is_replacement {cast : Casting} (model : nn_Module) :
  quantization model
  = replace_with_bnb_layers
      (mkModule (m_class model) (m_parameters model) (m_children model)
         (Some true) (Some false))
      BASE_QUANT_CONFIG None [].
Proof.
  unfold quantization. simpl.
  by destruct (replace_with_bnb_layers _ _ _ _).
Qed.

(** C2 fails on the code: a float32 linear layer in a container comes back
    quantized with its parameters still float32, whatever the re-encoding
    of elements is. *)
Theorem quantization_keeps_float32 {cast : Casting} :
  let lin := mkModule (Linear 1 1)
               [("weight", mkParameter (mkTensor float32 [1; 1]%nat [0]) true);
                ("bias", mkParameter (mkTensor float32 [1]%nat [0]) true)]
               [] None None in
  let model := mkModule (OtherModule "Sequential") [] [("0", lin)] None None in
  exists model',
    quantization model = Ok model'
    /\ map (fun '(k, t) => (k, t_dtype t)) (state_dict model')
       = [("0.weight", float32); ("0.bias", float32)]
    /\ torch_dtype BASE_QUANT_CONFIG = float16.
Proof. eexists. repeat split; reflexivity. Qed.

(** ** torch: state dictionaries and their loading *)

Lemma state_dict_from_eq (prefix : string) (m : nn_Module) :
  state_dict_from prefix m
  = map (fun '(n, p) => (dotted prefix n, p_data p)) (m_parameters m)
    ++ flat_map (fun '(n, c) => state_dict_from (dotted prefix n) c) (m_children m).
Proof.
  destruct m as [cl ps cs f4 f8]. cbn [state_dict_from m_parameters m_children].
  f_equal. induction cs as [|[n c] cs IH]; [done|]. cbn [flat_map]. by rewrite IH.
Qed.

Lemma assoc_NoDup_In {A} (k : string) (v : A) (l : list (string * A)) :
  List.NoDup (map fst l) -> In (k, v) l -> assoc k l = Some v.
Proof.
  induction l as [|[k' v'] l IH]; [done|]. cbn [map fst assoc].
  intros [Hk Hnd]%NoDup_cons_iff [[= -> ->]|Hin].
  - by rewrite String.eqb_refl.
  - destruct (String.eqb_spec k' k) as [->|]; [|by apply IH].
    destruct Hk. apply in_map_iff. by exists (k, v).
Qed.

(** *** Sorting by key *)

Lemma assoc_insert_by_key {A} (k0 : string) (v0 : A) (l : list (string * A)) (k : string) :
  assoc k (insert_by_key k0 v0 l) = if String.eqb k0 k then Some v0 else assoc k l.
Proof.
  induction l as [|[k' v'] l IH]; [done|]. cbn [insert_by_key].
  destruct (String.leb k0 k') eqn:Hle; [done|]. cbn [assoc]. rewrite IH.
  destruct (String.eqb_spec k' k) as [->|]; [|done].
  destruct (String.eqb_spec k0 k) as [->|]; [|done].
  destruct (String.leb_total k k) as [H|H]; congruence.
Qed.

(** Sorting a dictionary by key changes no entry. *)
Lemma assoc_sort_by_key {A} (l : list (string * A)) (k : string) :
  assoc k (sort_by_key l) = assoc k l.
Proof.
  induction l as [|[k0 v0] l IH]; [done|]. cbn [sort_by_key fold_right fst snd].
  fold (sort_by_key l). rewrite assoc_insert_by_key, IH. done.
Qed.

Lemma insert_by_key_perm {A} (k0 : string) (v0 : A) (l : list (string * A)) :
  Permutation (insert_by_key k0 v0 l) ((k0, v0) :: l).
Proof.
  induction l as [|[k' v'] l IH]; [done|]. cbn [insert_by_key].
  destruct (String.leb k0 k'); [done|]. rewrite IH. apply perm_swap.
Qed.

Lemma sort_by_key_perm {A} (l : list (string * A)) : Permutation (sort_by_key l) l.
Proof.
  induction l as [|[k0 v0] l IH]; [done|]. cbn [sort_by_key fold_right fst snd].
  fold (sort_by_key l). rewrite insert_by_key_perm. by constructor.
Qed.

(** *** Loading *)

Lemma loaded_eq {cast : Casting} (prefix : string) (sd : list (string * Tensor))
    (m : nn_Module) :
  loaded prefix sd m
  = mkModule (m_class m)
      (map (fun '(n, p) => (n, loaded_parameter sd (dotted prefix n) p)) (m_parameters m))
      (map (fun '(n, c) => (n, loaded (dotted prefix n) sd c)) (m_children m))
      (is_loaded_in_4bit m) (is_loaded_in_8bit m).
Proof.
  destruct m as [cl ps cs f4 f8].
  cbn [loaded m_class m_parameters m_children is_loaded_in_4bit is_loaded_in_8bit].
  f_equal. induction cs as [|[n c] cs IH]; [done|]. cbn [map]. by rewrite IH.
Qed.

Lemma input_for_not_empty (param t : Tensor) :
  t_shape t <> [0%nat] -> exists t', input_for param t = Ok t'.
Proof.
  intros Hne. unfold input_for, Tensor_first.
  destruct (_ && _); [|by eexists].
  destruct (t_shape t) as [|[|n] [|? ?]];
    [by eexists|by destruct Hne|by eexists..].
Qed.

Lemma input_for_same_shape (param t : Tensor) :
  t_shape t = t_shape param -> input_for param t = Ok t.
Proof.
  intros Heq. unfold input_for. rewrite Heq.
  by destruct (t_shape param) as [|? [|? ?]].
Qed.

(** A parameter whose copy does not raise is loaded as [loaded_parameter]
    says. *)
Lemma load_parameter_loaded {cast : Casting} (sd : list (string * Tensor)) (key : string)
    (p : nn_Parameter) :
  (forall t, assoc key sd = Some t -> exists t', input_for (p_data p) t = Ok t') ->
  load_parameter sd key p = Ok (loaded_parameter sd key p).
Proof.
  intros Hok. unfold loaded_parameter, load_parameter.
  destruct (assoc key sd) as [t|]; [|done].
  destruct (Hok t eq_refl) as [t' ->]. cbn [mbind res_bind].
  by destruct (decide _).
Qed.

Lemma load_parameters_loaded {cast : Casting} (sd : list (string * Tensor))
    (prefix : string) (ps : list (string * nn_Parameter)) :
  (forall n p t, In (n, p) ps -> assoc (dotted prefix n) sd = Some t ->
                 exists t', input_for (p_data p) t = Ok t') ->
  load_parameters sd prefix ps
  = (map (fun '(n, p) => (n, loaded_parameter sd (dotted prefix n) p)) ps, None).
Proof.
  induction ps as [|[n p] ps IH]; intros Hok; [done|]. cbn [load_parameters map].
  rewrite load_parameter_loaded by (intros t Ht; by apply (Hok n p t); [left|]).
  rewrite IH; [done|]. intros n' p' t Hin. apply Hok. by right.
Qed.

Lemma load_children_loaded (recurse : string -> nn_Module -> nn_Module * option exn)
    (f : string -> nn_Module -> nn_Module) (cs : list (string * nn_Module)) :
  (forall n c, In (n, c) cs -> recurse n c = (f n c, None)) ->
  load_children recurse cs = (map (fun '(n, c) => (n, f n c)) cs, None).
Proof.
  induction cs as [|[n c] cs IH]; intros Hok; [done|]. cbn [load_children map].
  rewrite (Hok n c) by (by left). rewrite IH; [done|].
  intros n' c' Hin. apply Hok. by right.
Qed.

(** When no copy raises, loading goes through the whole module. *)
Lemma load_from_loaded {cast : Casting} (sd : list (string * Tensor)) (m : nn_Module) :
  forall prefix,
    (forall k old t, In (k, old) (state_dict_from prefix m) -> assoc k sd = Some t ->
                     exists t', input_for old t = Ok t') ->
    load_from prefix sd m = (loaded prefix sd m, None).
Proof.
  induction m as [c ps cs f4 f8 IH] using nn_Module_tree_ind. intros prefix Hok.
  rewrite loaded_eq. cbn [load_from m_class m_parameters m_children
                          is_loaded_in_4bit is_loaded_in_8bit].
  rewrite load_parameters_loaded.
  - rewrite (load_children_loaded _ (fun n c0 => loaded (dotted prefix n) sd c0)); [done|].
    intros n c0 Hin. apply (IH n c0 Hin). intros k old t Hk. apply Hok.
    rewrite state_dict_from_eq. apply in_app_iff. right. apply in_flat_map.
    by exists (n, c0).
  - intros n p t Hin. apply Hok. rewrite state_dict_from_eq. apply in_app_iff. left.
    apply in_map_iff. by exists (n, p).
Qed.

(** The state dictionary of a loaded module, entry by entry. *)
Lemma state_dict_loaded {cast : Casting} (sd : list (string * Tensor)) (m : nn_Module) :
  forall prefix,
    state_dict_from prefix (loaded prefix sd m)
    = map (fun kt => (kt.1, p_data (loaded_parameter sd kt.1 (mkParameter kt.2 false))))
        (state_dict_from prefix m).
Proof.
  induction m as [c ps cs f4 f8 IH] using nn_Module_tree_ind. intros prefix.
  rewrite loaded_eq, !state_dict_from_eq, map_app.
  cbn [m_class m_parameters m_children is_loaded_in_4bit is_loaded_in_8bit].
  f_equal.
  - rewrite !map_map. apply map_ext. intros [n p]. cbn [fst snd]. f_equal.
    unfold loaded_parameter, load_parameter. cbn [p_data].
    destruct (assoc (dotted prefix n) sd) as [t|]; [|done].
    destruct (input_for (p_data p) t) as [t'|]; cbn [mbind res_bind]; [|done].
    by destruct (decide (t_shape t' = t_shape (p_data p))).
  - clear -IH. induction cs as [|[n c0] cs IHcs]; [done|].
    cbn [map flat_map]. rewrite map_app. f_equal.
    + apply (IH n c0). by left.
    + apply IHcs. intros n2 c2 Hin. apply (IH n2 c2). by right.
Qed.

(** What a strict match says of every parameter. *)
Lemma strict_match_own_keys (own sd : list (string * Tensor)) :
  strict_match own sd = true ->
  forall k old, In (k, old) own ->
    exists t t', assoc k sd = Some t /\ input_for old t = Ok t'
                 /\ t_shape t' = t_shape old.
Proof.
  unfold strict_match. intros [Hown _]%andb_true_iff k old Hin.
  rewrite forallb_forall in Hown. specialize (Hown _ Hin). cbn beta iota in Hown.
  destruct (assoc k sd) as [t|]; [|done].
  destruct (input_for old t) as [t'|] eqn:Hi; [|done].
  apply bool_decide_eq_true in Hown. exists t, t'. split; [done|]. by split.
Qed.

Lemma strict_match_keys (own sd : list (string * Tensor)) :
  strict_match own sd = true ->
  forall k, In k (map fst own) <-> In k (map fst sd).
Proof.
  intros Hstrict k. split.
  - intros ([k' t] & <- & Hin)%in_map_iff.
    destruct (strict_match_own_keys _ _ Hstrict _ _ Hin) as (t0 & _ & E & _).
    apply in_map_iff. exists (k', t0). split; [done|]. by apply assoc_In.
  - unfold strict_match in Hstrict. apply andb_true_iff in Hstrict as [_ Hsd].
    rewrite forallb_forall in Hsd.
    intros ([k' t] & <- & Hin)%in_map_iff. specialize (Hsd _ Hin). cbn [fst] in *.
    apply bool_decide_eq_true in Hsd as [t' Ht'].
    apply in_map_iff. exists (k', t'). split; [done|]. by apply assoc_In.
Qed.

(** A load that returns has loaded every parameter. *)
Lemma load_state_dict_returns {cast : Casting} (expert : nat)
    (sd : list (string * Tensor)) (m : nn_Module) (w w' : World) :
  w_modules w !! expert = Some m ->
  load_state_dict expert sd w = (Ok tt, w') ->
  strict_match (state_dict m) sd = true
  /\ w' = mkWorld (w_fs w) (<[expert := loaded "" sd m]> (w_modules w)) (w_log w).
Proof.
  intros Hm. unfold load_state_dict. rewrite Hm.
  destruct (load_from "" sd m) as [m' [err|]] eqn:Hload; [done|].
  destruct (strict_match (state_dict m) sd) eqn:Hstrict; [|done].
  intros [= <-]. split; [done|]. rewrite load_from_loaded in Hload.
  - by injection Hload as <-.
  - intros k old t Hin Ht.
    destruct (strict_match_own_keys _ _ Hstrict _ _ Hin) as (t0 & t' & E & Hi & _).
    exists t'. congruence.
Qed.

(** A strict match without a copy that raises makes the load return. *)
Lemma load_state_dict_strict {cast : Casting} (expert : nat)
    (sd : list (string * Tensor)) (m : nn_Module) (w : World) :
  w_modules w !! expert = Some m ->
  strict_match (state_dict m) sd = true ->
  load_state_dict expert sd w
  = (Ok tt, mkWorld (w_fs w) (<[expert := loaded "" sd m]> (w_modules w)) (w_log w)).
Proof.
  intros Hm Hstrict. unfold load_state_dict. rewrite Hm, load_from_loaded, Hstrict; [done|].
  intros k old t Hin Ht.
  destruct (strict_match_own_keys _ _ Hstrict _ _ Hin) as (t0 & t' & E & Hi & _).
  exists t'. congruence.
Qed.

(** Loading looks a dictionary up by key: two dictionaries with the same
    entries load alike. *)
Lemma load_parameters_ext {cast : Casting} (sd1 sd2 : list (string * Tensor))
    (prefix : string) (ps : list (string * nn_Parameter)) :
  (forall k, assoc k sd1 = assoc k sd2) ->
  load_parameters sd1 prefix ps = load_parameters sd2 prefix ps.
Proof.
  intros Hext. induction ps as [|[n p] ps IH]; [done|]. cbn [load_parameters].
  unfold load_parameter. by rewrite Hext, IH.
Qed.

Lemma load_children_ext (r1 r2 : string -> nn_Module -> nn_Module * option exn)
    (cs : list (string * nn_Module)) :
  (forall n c, In (n, c) cs -> r1 n c = r2 n c) ->
  load_children r1 cs = load_children r2 cs.
Proof.
  induction cs as [|[n c] cs IH]; intros Hext; [done|]. cbn [load_children].
  rewrite (Hext n c) by (by left). rewrite IH; [done|].
  intros n' c' Hin. apply Hext. by right.
Qed.

Lemma load_from_ext {cast : Casting} (sd1 sd2 : list (string * Tensor)) (m : nn_Module) :
  (forall k, assoc k sd1 = assoc k sd2) ->
  forall prefix, load_from prefix sd1 m = load_from prefix sd2 m.
Proof.
  intros Hext. induction m as [c ps cs f4 f8 IH] using nn_Module_tree_ind. intros prefix.
  cbn [load_from m_class m_parameters m_children is_loaded_in_4bit is_loaded_in_8bit].
  rewrite (load_parameters_ext sd1 sd2) by done.
  rewrite (load_children_ext (fun n c0 => load_from (dotted prefix n) sd1 c0)
             (fun n c0 => load_from (dotted prefix n) sd2 c0)); [done|].
  intros n c0 Hin. by apply (IH n c0).
Qed.

Lemma strict_match_ext (own sd1 sd2 : list (string * Tensor)) :
  (forall k, assoc k sd1 = assoc k sd2) ->
  strict_match own sd1 = strict_match own sd2.
Proof.
  intros Hext. unfold strict_match. f_equal.
  - induction own as [|[k t] own IH]; [done|]. cbn [forallb]. by rewrite Hext, IH.
  - apply eq_true_iff_eq. rewrite !forallb_forall. split.
    + intros H [k t] Hin. apply bool_decide_eq_true, assoc_Some_In.
      assert (Hk : In k (map fst sd1)).
      { apply assoc_Some_In. rewrite Hext. apply assoc_Some_In.
        apply in_map_iff. by exists (k, t). }
      apply in_map_iff in Hk as ([k' t'] & <- & Hin').
      specialize (H _ Hin'). cbn [fst] in *.
      by apply bool_decide_eq_true, assoc_Some_In in H.
    + intros H [k t] Hin. apply bool_decide_eq_true, assoc_Some_In.
      assert (Hk : In k (map fst sd2)).
      { apply assoc_Some_In. rewrite <- Hext. apply assoc_Some_In.
        apply in_map_iff. by exists (k, t). }
      apply in_map_iff in Hk as ([k' t'] & <- & Hin').
      specialize (H _ Hin'). cbn [fst] in *.
      by apply bool_decide_eq_true, assoc_Some_In in H.
Qed.

Lemma load_state_dict_ext {cast : Casting} (expert : nat)
    (sd1 sd2 : list (string * Tensor)) (w : World) :
  (forall k, assoc k sd1 = assoc k sd2) ->
  load_state_dict expert sd1 w = load_state_dict expert sd2 w.
Proof.
  intros Hext. unfold load_state_dict.
  destruct (w_modules w !! expert) as [m|]; [|done].
  by rewrite (load_from_ext sd1 sd2 m Hext), (strict_match_ext _ sd1 sd2 Hext).
Qed.

(** The order that [load_file] gives the entries does not matter to
    [load_state_dict]. *)
Lemma load_state_dict_sorted {cast : Casting} (expert : nat)
    (sd : list (string * Tensor)) (w : World) :
  load_state_dict expert (sort_by_key sd) w = load_state_dict expert sd w.
Proof. apply load_state_dict_ext. intros k. apply assoc_sort_by_key. Qed.

(** *** A module and its own state dictionary *)

Lemma Tensor_copy_self {cast : Casting} (t : Tensor) :
  same_type_cast_is_identity cast -> Tensor_copy_ t t = t.
Proof. intros Hcast. destruct t. unfold Tensor_copy_. cbn. by rewrite Hcast. Qed.

Lemma loaded_own {cast : Casting} (m : nn_Module) :
  same_type_cast_is_identity cast ->
  forall prefix sd,
    (forall k t, In (k, t) (state_dict_from prefix m) -> assoc k sd = Some t) ->
    loaded prefix sd m = m.
Proof.
  intros Hcast. induction m as [c ps cs f4 f8 IH] using nn_Module_tree_ind.
  intros prefix sd Hsd. rewrite loaded_eq.
  cbn [m_class m_parameters m_children is_loaded_in_4bit is_loaded_in_8bit].
  assert (Hown : forall k t,
            In (k, t) (map (fun '(n, p) => (dotted prefix n, p_data p)) ps) ->
            assoc k sd = Some t).
  { intros k t Hin. apply Hsd. rewrite state_dict_from_eq. apply in_app_iff. by left. }
  assert (Hbelow : forall n0 c0, In (n0, c0) cs ->
            forall k t, In (k, t) (state_dict_from (dotted prefix n0) c0) ->
                        assoc k sd = Some t).
  { intros n0 c0 Hin k t Hk. apply Hsd. rewrite state_dict_from_eq. apply in_app_iff.
    right. apply in_flat_map. by exists (n0, c0). }
  clear Hsd. f_equal.
  - induction ps as [|[n p] ps IHps]; [done|]. cbn [map]. f_equal.
    + f_equal. unfold loaded_parameter, load_parameter.
      rewrite (Hown (dotted prefix n) (p_data p)) by (by left).
      rewrite input_for_same_shape by done. cbn [mbind res_bind].
      rewrite decide_True by done. destruct p as [t rg]. cbn [p_data p_requires_grad].
      by rewrite Tensor_copy_self.
    + apply IHps. intros k t Hin. apply Hown. by right.
  - induction cs as [|[n c0] cs IHcs]; [done|]. cbn [map]. f_equal.
    + f_equal. apply (IH n c0); [by left|]. by apply (Hbelow n c0); left.
    + apply IHcs.
      * intros n2 c2 Hin. apply (IH n2 c2). by right.
      * intros n2 c2 Hin. apply (Hbelow n2 c2). by right.
Qed.

Lemma strict_match_own (own : list (string * Tensor)) :
  List.NoDup (map fst own) -> strict_match own own = true.
Proof.
  intros Hnd. unfold strict_match. apply andb_true_iff. split.
  - apply forallb_forall. intros [k t] Hin.
    rewrite (assoc_NoDup_In _ _ _ Hnd Hin), input_for_same_shape by done.
    by apply bool_decide_eq_true.
  - apply forallb_forall. intros [k t] Hin. apply bool_decide_eq_true.
    rewrite (assoc_NoDup_In _ _ _ Hnd Hin). by eexists.
Qed.

(** Loading into a module its own state dictionary changes nothing. *)
Lemma load_own_state_dict {cast : Casting} (expert : nat) (m : nn_Module) (w : World) :
  same_type_cast_is_identity cast ->
  w_modules w !! expert = Some m ->
  List.NoDup (map fst (state_dict m)) ->
  load_state_dict expert (state_dict m) w = (Ok tt, w).
Proof.
  intros Hcast Hm Hnd.
  rewrite (load_state_dict_strict _ _ m) by (done || by apply strict_match_own).
  rewrite (loaded_own m Hcast "" (state_dict m)).
  - rewrite insert_id by done. by destruct w.
  - intros k t Hin. by apply assoc_NoDup_In.
Qed.

(** After a strict match every entry of the state dictionary holds the
    elements of the tensor given for its key. *)
Lemma loaded_entries {cast : Casting} (sd : list (string * Tensor)) (m : nn_Module) :
  strict_match (state_dict m) sd = true ->
  Forall2 (fun old new =>
             exists given input,
               assoc old.1 sd = Some given
               /\ input_for old.2 given = Ok input
               /\ t_shape input = t_shape old.2
               /\ new = (old.1, Tensor_copy_ old.2 input))
    (state_dict m) (state_dict (loaded "" sd m)).
Proof.
  intros Hstrict. pose proof (strict_match_own_keys _ _ Hstrict) as Hown.
  unfold state_dict in *. rewrite state_dict_loaded. clear Hstrict.
  induction (state_dict_from "" m) as [|[k old] own IH]; [constructor|].
  cbn [map]. constructor.
  - destruct (Hown k old (or_introl eq_refl)) as (t & t' & E & Hi & Hs).
    exists t, t'. cbn [fst snd]. split; [done|]. split; [done|]. split; [done|].
    unfold loaded_parameter, load_parameter. cbn [p_data]. rewrite E, Hi.
    cbn [mbind res_bind]. by rewrite decide_True.
  - apply IH. intros k0 old0 Hin. apply Hown. by right.
Qed.

(** A dictionary that has exactly the keys of the module, each with a
    tensor of the shape of its parameter, is loaded: the call returns and
    every parameter holds the elements given for its key. *)
Lemma load_state_dict_fitting {cast : Casting} (expert : nat)
    (sd : list (string * Tensor)) (m : nn_Module) (w : World) :
  w_modules w !! expert = Some m ->
  (forall key, In key (map fst (state_dict m)) <-> In key (map fst sd)) ->
  (forall key old t, In (key, old) (state_dict m) -> assoc key sd = Some t ->
                     t_shape t = t_shape old) ->
  exists m',
    load_state_dict expert sd w
    = (Ok tt, mkWorld (w_fs w) (<[expert := m']> (w_modules w)) (w_log w))
    /\ Forall2 (fun old new =>
                  exists t, assoc old.1 sd = Some t
                            /\ new = (old.1, Tensor_copy_ old.2 t))
         (state_dict m) (state_dict m').
Proof.
  intros Hm Hkeys Hshapes.
  assert (Hstrict : strict_match (state_dict m) sd = true).
  { unfold strict_match. apply andb_true_iff. split; apply forallb_forall.
    - intros [k old] Hin.
      assert (Hk : is_Some (assoc k sd)).
      { apply assoc_Some_In, Hkeys, in_map_iff. by exists (k, old). }
      destruct Hk as [t Ht]. rewrite Ht.
      rewrite input_for_same_shape by (by apply (Hshapes k)).
      apply bool_decide_eq_true. by apply (Hshapes k).
    - intros [k t] Hin. apply bool_decide_eq_true, assoc_Some_In, Hkeys, in_map_iff.
      by exists (k, t). }
  exists (loaded "" sd m). split; [by apply load_state_dict_strict|].
  pose proof (loaded_entries sd m Hstrict) as Hall.
  clear Hkeys Hstrict Hm.
  set (own := state_dict m) in *. set (out := state_dict (loaded "" sd m)) in *.
  clearbody own out.
  induction Hall as [|[k old] new own out (t & t' & E & Hi & _ & ->) _ IH];
    [constructor|].
  constructor.
  - exists t. split; [done|]. cbn [fst snd] in *.
    rewrite input_for_same_shape in Hi.
    + by injection Hi as <-.
    + apply (Hshapes k); [by left|done].
  - apply IH. intros key old0 t0 Hin. apply Hshapes. by right.
Qed.

(** The one exception that ends a loading is the IndexError of the first
    element of an empty tensor. *)
Lemma load_parameter_error {cast : Casting} (sd : list (string * Tensor)) (key : string)
    (p : nn_Parameter) (err : exn) :
  load_parameter sd key p = Raise err -> err = IndexError.
Proof.
  unfold load_parameter, input_for, Tensor_first.
  destruct (assoc key sd) as [t|]; [|done].
  destruct (_ && _).
  - destruct (t_shape t) as [|[|n] [|? ?]]; cbn [mbind res_bind];
      try (by destruct (decide _)). by intros [= <-].
  - cbn [mbind res_bind]. by destruct (decide _).
Qed.

Lemma load_parameters_error {cast : Casting} (sd : list (string * Tensor))
    (prefix : string) (ps : list (string * nn_Parameter)) (err : exn) :
  (load_parameters sd prefix ps).2 = Some err -> err = IndexError.
Proof.
  induction ps as [|[n p] ps IH]; [done|]. cbn [load_parameters].
  destruct (load_parameter sd (dotted prefix n) p) as [p'|e] eqn:Hp.
  - destruct (load_parameters sd prefix ps) as [rest' e]. cbn [snd] in *. exact IH.
  - cbn [snd]. intros [= <-]. by apply load_parameter_error in Hp.
Qed.

Lemma load_from_error {cast : Casting} (sd : list (string * Tensor)) (m : nn_Module)
    (err : exn) :
  forall prefix, (load_from prefix sd m).2 = Some err -> err = IndexError.
Proof.
  induction m as [c ps cs f4 f8 IH] using nn_Module_tree_ind. intros prefix.
  cbn [load_from m_class m_parameters m_children is_loaded_in_4bit is_loaded_in_8bit].
  pose proof (load_parameters_error sd prefix ps err) as Hps.
  destruct (load_parameters sd prefix ps) as [ps' [e|]]; cbn [snd] in *; [done|].
  clear Hps. induction cs as [|[n c0] cs IHcs]; [done|]. cbn [load_children].
  pose proof (IH n c0 (or_introl eq_refl) (dotted prefix n)) as Hc.
  destruct (load_from (dotted prefix n) sd c0) as [c' [e|]]; cbn [snd] in *; [done|].
  assert (IH' : forall n0 m0, In (n0, m0) cs ->
            forall prefix0, (load_from prefix0 sd m0).2 = Some err -> err = IndexError).
  { intros n0 m0 Hin. apply (IH n0 m0). by right. }
  specialize (IHcs IH').
  destruct (load_children _ cs) as [rest' e]. cbn [snd] in *. exact IHcs.
Qed.

(** ** Loading from a HuggingFace repository *)

Lemma mixtral_rules_keys (layer_id expert_id : Z) :
  mixtral_rules layer_id expert_id
  = [ (source_key layer_id expert_id "1", "block.w1.weight");
      (source_key layer_id expert_id "2", "block.w2.weight");
      (source_key layer_id expert_id "3", "block.w3.weight") ].
Proof. reflexivity. Qed.

Lemma source_key_inj (layer_id expert_id : Z) (n m : string) :
  source_key layer_id expert_id n = source_key layer_id expert_id m -> n = m.
Proof.
  unfold source_key. intros Heq.
  do 5 apply String.app_inj in Heq.
  by apply app_inv_tail_str in Heq.
Qed.

Lemma get_tensor (hub : Hub) (repo_id : string) (wm : list (string * string))
    (key : string) (t : Tensor) :
  shard_tensor hub repo_id wm key = Some t ->
  exists state_dict,
    get_state_dict_by_key hub key wm repo_id = Ok state_dict
    /\ get_expert_state_dict state_dict key = Ok t.
Proof.
  unfold shard_tensor, get_state_dict_by_key, get_expert_state_dict, getitem.
  destruct (assoc key wm) as [f|]; [|done]. simpl.
  destruct (assoc repo_id hub) as [r|]; [|done].
  destruct (assoc f (shards r)) as [sd|]; [|done].
  intros Ht. exists (sort_by_key sd). by rewrite assoc_sort_by_key, Ht.
Qed.

(** C9. [mixtral_rules] is a mapping of exactly three (distinct) source
    names to [block.w1.weight], [block.w2.weight], [block.w3.weight]; and when
    the repository's weight map names, for each source name, a shard that
    holds it, [_load_weights_from_hf] assembles the dictionary with exactly
    these three local keys, each with the tensor of its source name in that
    shard, and loads it with the expert's [load_state_dict]: for an expert
    whose parameters are exactly these three, of the shapes of the tensors,
    the call returns and afterwards each parameter holds the elements of
    the tensor of its key (in the element type of the parameter); nothing
    else of the world is changed. *)
Theorem load_weights_from_hf_assembles {cast : Casting} (hub : Hub) (expert : nat)
    (expert_id layer_id : Z) (repo_id : string)
    (weights_map : list (string * string)) (t1 t2 t3 : Tensor) :
  load_weights_map hub repo_id = Ok weights_map ->
  shard_tensor hub repo_id weights_map (source_key layer_id expert_id "1") = Some t1 ->
  shard_tensor hub repo_id weights_map (source_key layer_id expert_id "2") = Some t2 ->
  shard_tensor hub repo_id weights_map (source_key layer_id expert_id "3") = Some t3 ->
  let module_state_dict :=
    [("block.w1.weight", t1); ("block.w2.weight", t2); ("block.w3.weight", t3)] in
  mixtral_rules layer_id expert_id
    = [ (source_key layer_id expert_id "1", "block.w1.weight");
        (source_key layer_id expert_id "2", "block.w2.weight");
        (source_key layer_id expert_id "3", "block.w3.weight") ]
  /\ List.NoDup (map fst (mixtral_rules layer_id expert_id))
  /\ assemble_state_dict hub (mixtral_rules layer_id expert_id) weights_map repo_id
     = Ok module_state_dict
  /\ map fst module_state_dict
     = ["block.w1.weight"; "block.w2.weight"; "block.w3.weight"]
  /\ (forall w,
        _load_weights_from_hf hub expert expert_id layer_id repo_id w
        = load_state_dict expert module_state_dict w)
  /\ forall (w : World) (m : nn_Module),
       w_modules w !! expert = Some m ->
       (forall key, In key (map fst (state_dict m))
                    <-> In key (map fst module_state_dict)) ->
       (forall key old t, In (key, old) (state_dict m) ->
                          assoc key module_state_dict = Some t ->
                          t_shape t = t_shape old) ->
       exists m',
         _load_weights_from_hf hub expert expert_id layer_id repo_id w
         = (Ok tt, mkWorld (w_fs w) (<[expert := m']> (w_modules w)) (w_log w))
         /\ Forall2 (fun old new =>
                       exists t, assoc old.1 module_state_dict = Some t
                                 /\ new = (old.1, Tensor_copy_ old.2 t))
              (state_dict m) (state_dict m').
Proof.
  intros Hwm H1 H2 H3 module_state_dict.
  assert (Hasm : assemble_state_dict hub (mixtral_rules layer_id expert_id)
                   weights_map repo_id = Ok module_state_dict).
  { rewrite mixtral_rules_keys. unfold assemble_state_dict. cbn [for_each].
    destruct (get_tensor _ _ _ _ _ H1) as (sd1 & -> & Ht1).
    destruct (get_tensor _ _ _ _ _ H2) as (sd2 & -> & Ht2).
    destruct (get_tensor _ _ _ _ _ H3) as (sd3 & -> & Ht3).
    cbn [mbind res_bind]. rewrite Ht1. cbn [mbind res_bind].
    rewrite Ht2. cbn [mbind res_bind]. rewrite Ht3. reflexivity. }
  assert (Hload : forall w,
            _load_weights_from_hf hub expert expert_id layer_id repo_id w
            = load_state_dict expert module_state_dict w).
  { intros w. unfold _load_weights_from_hf, lift, mbind, IO_bind.
    rewrite Hwm, Hasm. reflexivity. }
  split; [reflexivity|]. split; [|split; [done|split; [reflexivity|split; [done|]]]].
  - rewrite mixtral_rules_keys. cbn [map fst].
    repeat constructor; cbn [In]; intros Hin;
      repeat (destruct Hin as [Hin|Hin]; [by apply source_key_inj in Hin|]); done.
  - intros w m Hm Hkeys Hshapes. rewrite Hload.
    by apply load_state_dict_fitting.
Qed.

Lemma load_weights_from_hf_assembles_witness :
  let t (n : Z) := mkTensor float16 [1; 1]%nat [n] in
  let wm := [ (source_key 0 1 "1", "a.safetensors");
              (source_key 0 1 "2", "a.safetensors");
              (source_key 0 1 "3", "b.safetensors") ] in
  let hub := [ ("org/mixtral",
                mkHubRepo (Some [("weight_map", wm)])
                  [ ("a.safetensors", [(source_key 0 1 "1", t 1); (source_key 0 1 "2", t 2)]);
                    ("b.safetensors", [(source_key 0 1 "3", t 3)]) ]) ] in
  let module_state_dict :=
    [("block.w1.weight", t 1); ("block.w2.weight", t 2); ("block.w3.weight", t 3)] in
  let w := mkWorld (Dir []) {[ 7%nat := example_expert ]} [] in
  let w' := (_load_weights_from_hf (cast := id_casting) hub 7 1 0 "org/mixtral" w).2 in
  load_weights_map hub "org/mixtral" = Ok wm
  /\ assemble_state_dict hub (mixtral_rules 0 1) wm "org/mixtral" = Ok module_state_dict
  /\ (forall w0,
        _load_weights_from_hf (cast := id_casting) hub 7 1 0 "org/mixtral" w0
        = load_state_dict (cast := id_casting) 7 module_state_dict w0)
  /\ (exists m',
        _load_weights_from_hf (cast := id_casting) hub 7 1 0 "org/mixtral" w
        = (Ok tt, mkWorld (w_fs w) (<[7%nat := m']> (w_modules w)) (w_log w))
        /\ Forall2 (fun old new =>
                      exists t0, assoc old.1 module_state_dict = Some t0
                                 /\ new = (old.1, Tensor_copy_ (cast := id_casting) old.2 t0))
             (state_dict example_expert) (state_dict m'))
  /\ option_map state_dict (w_modules w' !! 7%nat) = Some module_state_dict.
Proof.
  intros t wm hub module_state_dict w w'.
  pose proof (load_weights_from_hf_assembles (cast := id_casting) hub 7 1 0 "org/mixtral" wm
                (t 1) (t 2) (t 3) eq_refl eq_refl eq_refl eq_refl)
    as (_ & _ & Ha & _ & Hl & Hinto).
  split; [reflexivity|]. split; [exact Ha|]. split; [exact Hl|].
  split; [|vm_compute; reflexivity].
  apply (Hinto w example_expert); [reflexivity| |].
  - intros key. reflexivity.
  - intros key old t0 Hin Ht0. cbn in Hin.
    destruct Hin as [[= <- <-]|[[= <- <-]|[[= <- <-]|[]]]];
      cbn in Ht0; by injection Ht0 as <-.
Defined.


(** ** Restoring an expert *)

(** The body of [load_expert], reached with four arguments: when the latest
    checkpoint is not there, a warning is logged and nothing else changes. *)
Lemma load_expert_body_missing_checkpoint {cast : Casting}
    (expert Module_ : value) (expert_name : string) (checkpoint_dir : path) (w : World) :
  stat (w_fs w) (checkpoint_dir ++ [expert_name] ++ ["module.safetensors"]) = None ->
  load_expert_body expert Module_ (VStr expert_name) (VPath checkpoint_dir) w
  = (Ok tt,
     mkWorld (w_fs w) (w_modules w)
       (w_log w ++ [(WARNING, "Failed to load checkpoint for expert " +:+ expert_name)])).
Proof.
  intros Hstat. unfold load_expert_body, os_path_exists, get_fs, mbind, IO_bind, mret, IO_ret.
  rewrite <- app_assoc, Hstat.
  rewrite bool_decide_eq_false_2 by (by intros [? ?]).
  reflexivity.
Qed.

(** C1 fails on the code: the call of [load_expert] with the expert, the
    expert name and the checkpoint directory raises TypeError, whether or
    not a checkpoint is there, because the function has four parameters;
    nothing is changed and no warning is logged. *)
Theorem load_expert_three_arguments_raise {cast : Casting}
    (expert : nat) (expert_name : string) (checkpoint_dir : path) (w : World) :
  load_expert [VModule expert; VStr expert_name; VPath checkpoint_dir] w
  = (Raise TypeError, w).
Proof. reflexivity. Qed.

(** What [_load_expert_weights] does for each way of setting
    [checkpoint_dir] and [hugginface_rep] ([""] counts as not set). *)
Lemma load_expert_weights_cases {cast : Casting} (hub : Hub) (expert : nat)
    (expert_uid : ExpertUID) (checkpoint_dir : option path)
    (hugginface_rep : option string) (w : World) :
  let rep_set := match hugginface_rep with
                 | Some rep => negb (String.eqb rep "")
                 | None => false
                 end in
  _load_expert_weights hub expert expert_uid checkpoint_dir hugginface_rep w
  = match checkpoint_dir, rep_set, hugginface_rep with
    | Some dir, false, _ =>
        load_expert [VModule expert; VStr (uid expert_uid); VPath dir] w
    | None, true, Some rep =>
        load_expert_from_hf hub expert rep (expert_id expert_uid) (layer_id expert_uid) w
    | _, _, _ => (Ok tt, w)
    end.
Proof.
  unfold _load_expert_weights.
  destruct checkpoint_dir as [dir|], hugginface_rep as [rep|]; simpl;
    try destruct (String.eqb rep ""); reflexivity.
Qed.

(** C7 fails on the code: with [checkpoint_dir] set and [hugginface_rep]
    not, the restoration from the local checkpoint is attempted through the
    three-argument call of [load_expert] and raises TypeError; the expert is
    not restored. *)
Theorem load_expert_weights_checkpoint_raises {cast : Casting} (hub : Hub)
    (expert : nat) (expert_uid : ExpertUID) (checkpoint_dir : path) (w : World) :
  _load_expert_weights hub expert expert_uid (Some checkpoint_dir) None w
  = (Raise TypeError, w).
Proof. reflexivity. Qed.

(** ** The file system: lookups and updates *)

Lemma assoc_set_entry_eq (c : string) (v : node) (es : list (string * node)) :
  assoc c (set_entry c v es) = Some v.
Proof.
  induction es as [|[k x] es IH]; simpl.
  - by rewrite String.eqb_refl.
  - destruct (String.eqb_spec k c) as [->|Hne]; simpl.
    + by rewrite String.eqb_refl.
    + by destruct (String.eqb_spec k c).
Qed.

Lemma assoc_set_entry_ne (c k : string) (v : node) (es : list (string * node)) :
  c <> k -> assoc k (set_entry c v es) = assoc k es.
Proof.
  intros Hne. induction es as [|[k' x] es IH]; simpl.
  - by destruct (String.eqb_spec c k).
  - destruct (String.eqb_spec k' c) as [->|Hne']; simpl.
    + by destruct (String.eqb_spec c k).
    + by rewrite IH.
Qed.

Lemma names_set_entry (c : string) (v : node) (es : list (string * node)) :
  map fst (set_entry c v es)
  = if assoc c es is Some _ then map fst es else map fst es ++ [c].
Proof.
  induction es as [|[k x] es IH]; simpl; [done|].
  destruct (String.eqb_spec k c) as [->|Hne]; simpl; [done|].
  rewrite IH. by destruct (assoc c es).
Qed.

Lemma lookup_node_app (p q : path) (n : node) :
  lookup_node (p ++ q) n
  = match lookup_node p n with
    | Some m => lookup_node q m
    | None => None
    end.
Proof.
  revert n. induction p as [|c p IH]; intros n; simpl; [done|].
  destruct n as [|es|]; try done.
  destruct (assoc c es); [apply IH|done].
Qed.

Lemma lookup_node_leaf (r : path) (n : node) :
  r <> [] -> (forall es, n <> Dir es) -> lookup_node r n = None.
Proof. destruct r; [done|]. intros _ Hn. destruct n; try done. by destruct (Hn entries). Qed.

Lemma lookup_node_empty_dir (r : path) : r <> [] -> lookup_node r (Dir []) = None.
Proof. by destruct r. Qed.

(** What [set_node] leaves behind, seen from any path. *)
Lemma set_node_below (p r : path) (v n n' : node) :
  set_node p v n = Some n' -> lookup_node (p ++ r) n' = lookup_node r v.
Proof.
  revert n n'. induction p as [|c p IH]; intros n n' Hset; simpl in *.
  - by injection Hset as ->.
  - destruct n as [|es|]; try done. destruct p as [|c' p].
    + injection Hset as <-. simpl. by rewrite assoc_set_entry_eq.
    + destruct (assoc c es) as [child|]; [|done].
      destruct (set_node (c' :: p) v child) as [child'|] eqn:Hc; [|done].
      injection Hset as <-. rewrite assoc_set_entry_eq.
      by apply IH with child.
Qed.

Lemma set_node_at (p : path) (v n n' : node) :
  set_node p v n = Some n' -> lookup_node p n' = Some v.
Proof. intros Hset. by rewrite <- (app_nil_r p), (set_node_below _ _ _ _ _ Hset). Qed.

Lemma set_node_other (p q : path) (v n n' : node) :
  set_node p v n = Some n' ->
  ~ p `prefix_of` q -> ~ q `prefix_of` p ->
  lookup_node q n' = lookup_node q n.
Proof.
  revert q n n'. induction p as [|c p IH]; intros q n n' Hset Hpq Hqp.
  - destruct Hpq. apply prefix_nil.
  - destruct q as [|d q]; [destruct Hqp; apply prefix_nil|].
    simpl in Hset. destruct n as [|es|]; try done.
    destruct (decide (c = d)) as [<-|Hne].
    + destruct p as [|c' p].
      * destruct Hpq. by apply prefix_cons, prefix_nil.
      * destruct (assoc c es) as [child|] eqn:Hch; [|done].
        destruct (set_node (c' :: p) v child) as [child'|] eqn:Hc; [|done].
        injection Hset as <-. simpl. rewrite assoc_set_entry_eq, Hch.
        apply (IH _ _ _ Hc).
        -- intros Hp. apply Hpq. by apply prefix_cons.
        -- intros Hq. apply Hqp. by apply prefix_cons.
    + assert (lookup_node (d :: q) n' = lookup_node (d :: q) (Dir es)) as ->; [|done].
      destruct p as [|c' p].
      * injection Hset as <-. simpl. by rewrite assoc_set_entry_ne.
      * destruct (assoc c es) as [child|]; [|done].
        destruct (set_node (c' :: p) v child) as [child'|]; [|done].
        injection Hset as <-. simpl. by rewrite assoc_set_entry_ne.
Qed.


Lemma set_node_cons2 (c c' : string) (p : path) (v : node) (es : list (string * node)) :
  set_node (c :: c' :: p) v (Dir es)
  = match assoc c es with
    | Some child =>
        match set_node (c' :: p) v child with
        | Some child' => Some (Dir (set_entry c child' es))
        | None => None
        end
    | None => None
    end.
Proof. reflexivity. Qed.

Lemma set_node_succeeds (p : path) (v n : node) (es : list (string * node)) :
  p <> [] -> lookup_node (parent p) n = Some (Dir es) ->
  exists n', set_node p v n = Some n'.
Proof.
  unfold parent. revert n. induction p as [|c p IH]; intros n Hp Hpar; [done|].
  destruct p as [|c' p].
  - simpl in *. injection Hpar as ->. by eexists.
  - cbn [List.removelast] in Hpar. cbn [lookup_node] in Hpar.
    destruct n as [|es0|]; try done. rewrite set_node_cons2.
    destruct (assoc c es0) as [child|]; [|done].
    destruct (IH child) as [child' ->]; [done|done|]. by eexists.
Qed.

(** The listing of the directory that receives a new or replaced entry. *)
Lemma set_node_parent (p : path) (c : string) (v n n' : node) (es : list (string * node)) :
  lookup_node p n = Some (Dir es) ->
  set_node (p ++ [c]) v n = Some n' ->
  lookup_node p n' = Some (Dir (set_entry c v es)).
Proof.
  revert n n'. induction p as [|d p IH]; intros n n' Hp Hset.
  - simpl in *. injection Hp as ->. by injection Hset as <-.
  - simpl in Hp, Hset. destruct n as [|es0|]; try done.
    destruct (assoc d es0) as [child|] eqn:Hch; [|done].
    destruct (p ++ [c]) as [|c' pc] eqn:Hpc; [by destruct p|].
    destruct (set_node (c' :: pc) v child) as [child'|] eqn:Hc; [|done].
    injection Hset as <-. simpl. rewrite assoc_set_entry_eq.
    by apply IH with child.
Qed.

(** Writing a leaf where there was none, or another leaf: every path that
    is not an ancestor of the place (nor the place) reads as before. *)
Lemma set_node_frame (p q : path) (v n n' : node) :
  set_node p v n = Some n' ->
  (forall r, r <> [] -> lookup_node r v = None) ->
  (forall r, r <> [] -> lookup_node (p ++ r) n = None) ->
  ~ q `prefix_of` p ->
  lookup_node q n' = lookup_node q n.
Proof.
  intros Hset Hv Hold Hqp.
  destruct (decide (p `prefix_of` q)) as [[r ->]|Hpq].
  - assert (r <> []) by (intros ->; apply Hqp; by rewrite app_nil_r).
    by rewrite (set_node_below _ _ _ _ _ Hset), Hv, Hold.
  - by apply (set_node_other _ _ _ _ _ Hset).
Qed.

(** ** Runs of the file operations *)

Lemma is_prefix_spec (p q : path) : is_prefix p q = true <-> p `prefix_of` q.
Proof.
  revert q. induction p as [|c p IH]; intros q; simpl.
  - split; [intros _; apply prefix_nil|done].
  - destruct q as [|d q].
    + split; [done|]. intros [k Hk]. done.
    + rewrite andb_true_iff, String.eqb_eq, IH. split.
      * intros [-> Hp]. by apply prefix_cons.
      * intros [k [= -> ->]]. split; [done|]. by exists k.
Qed.








Lemma old_below (p r : path) (fs : node) :
  lookup_node p fs = None \/ (exists c, lookup_node p fs = Some (File c)) ->
  r <> [] -> lookup_node (p ++ r) fs = None.
Proof.
  rewrite lookup_node_app. intros [->|[c ->]] Hr; [done|]. by destruct r.
Qed.











Lemma prefix_snoc_inv {A} (q l : list A) (x : A) :
  q `prefix_of` l ++ [x] -> q `prefix_of` l \/ q = l ++ [x].
Proof.
  intros [k Hk]. destruct (decide (k = [])) as [->|Hne].
  - right. by rewrite app_nil_r in Hk.
  - left. destruct (exists_last Hne) as (k' & y & ->).
    rewrite app_assoc in Hk. apply app_inj_tail in Hk as [-> _]. by exists k'.
Qed.


Lemma resolve_not_link (hops : nat) (fs : node) (p : path) :
  (forall t, lookup_node p fs <> Some (Symlink t)) -> resolve hops fs p = Some p.
Proof.
  intros Hp. destruct hops; simpl;
    destruct (lookup_node p fs) as [[| |t]|]; try done; by destruct (Hp t).
Qed.

Lemma write_file_eq (p : path) (c : content) (w : World) :
  write_file p c w
  = match resolve MAXSYMLINKS (w_fs w) p with
    | None => (Raise OSError, w)
    | Some q =>
        match lookup_node q (w_fs w) with
        | Some (Dir _) => (Raise IsADirectoryError, w)
        | _ =>
            match lookup_node (parent q) (w_fs w), q with
            | Some (Dir _), _ :: _ =>
                match set_node q (File c) (w_fs w) with
                | Some fs' => (Ok tt, with_fs w fs')
                | None => (Raise FileNotFoundError, w)
                end
            | Some _, _ => (Raise NotADirectoryError, w)
            | None, _ => (Raise (lookup_error (parent q) (w_fs w)), w)
            end
        end
    end.
Proof.
  unfold write_file, mbind, IO_bind, get_fs, put_fs, raise, with_fs.
  cbv beta iota.
  destruct (resolve MAXSYMLINKS (w_fs w) p) as [q|]; [|done].
  destruct (lookup_node q (w_fs w)) as [[| |]|]; try done;
    destruct (lookup_node (parent q) (w_fs w)) as [[| |]|], q; try done;
    by destruct (set_node _ _ _).
Qed.




Lemma stat_lookup_dir (fs : node) (p : path) :
  is_dir_node (lookup_node p fs) = true -> stat fs p = lookup_node p fs.
Proof.
  intros Hd. unfold stat. rewrite resolve_not_link; [done|].
  intros t Ht. by rewrite Ht in Hd.
Qed.


Lemma for_invariant {A} (I : World -> Prop) (xs : list A) (body : A -> IO unit)
    (w : World) :
  I w -> (forall x w', I w' -> I (body x w').2) -> I (for_ xs body w).2.
Proof.
  intros Hw Hbody. revert w Hw. induction xs as [|x xs IH]; intros w Hw; [done|].
  simpl. unfold mbind, IO_bind. specialize (Hbody x w Hw).
  destruct (body x w) as [[[]|e] w']; simpl in *; [by apply IH|done].
Qed.

Lemma parent_cons (c : string) (r : path) : r <> [] -> parent (c :: r) = c :: parent r.
Proof. by destruct r. Qed.


Lemma parent_snoc (p : path) (c : string) : parent (p ++ [c]) = p.
Proof. unfold parent. by rewrite removelast_last. Qed.




Lemma unrelated_app (src dst x rel : path) :
  ~ src `prefix_of` dst -> ~ dst `prefix_of` src -> src ++ x <> dst ++ rel.
Proof.
  intros H1 H2 Heq.
  destruct (prefix_weak_total src dst (src ++ x)) as [H|H];
    [by apply prefix_app_r|rewrite Heq; by apply prefix_app_r|done|done].
Qed.


Lemma listdir_state (p : path) (w : World) : (os_listdir p w).2 = w.
Proof.
  unfold os_listdir, mbind, IO_bind, get_fs. cbv beta iota.
  by destruct (stat (w_fs w) p) as [[| |]|].
Qed.



Lemma create_eq (p : path) (v : node) (w : World) (es : list (string * node)) :
  lookup_node p (w_fs w) = None ->
  lookup_node (parent p) (w_fs w) = Some (Dir es) ->
  p <> [] ->
  exists fs', set_node p v (w_fs w) = Some fs' /\ create p v w = (Ok tt, with_fs w fs').
Proof.
  intros Hp Hpar Hne.
  destruct (set_node_succeeds p v (w_fs w) es Hne Hpar) as [fs' Hset].
  exists fs'. split; [done|].
  unfold create, mbind, IO_bind, get_fs, put_fs. cbv beta iota.
  by rewrite Hp, Hpar, Hset.
Qed.


Lemma makedirs_from_step (head : path) (name name' : string) (rest : path) (w : World) :
  makedirs_from head (name :: name' :: rest) w
  = if bool_decide (is_Some (stat (w_fs w) (head ++ [name])))
    then makedirs_from (head ++ [name]) (name' :: rest) w
    else match os_mkdir (head ++ [name]) w with
         | (Ok _, w') | (Raise FileExistsError, w') =>
             makedirs_from (head ++ [name]) (name' :: rest) w'
         | (Raise e, w') => (Raise e, w')
         end.
Proof.
  change (makedirs_from head (name :: name' :: rest) w)
    with ((e ← os_path_exists (head ++ [name]);
           _ ← (if e : bool then mret tt
                else pass_FileExistsError (os_mkdir (head ++ [name])));
           makedirs_from (head ++ [name]) (name' :: rest)) w).
  unfold os_path_exists, pass_FileExistsError.
  unfold mbind, IO_bind, get_fs, mret, IO_ret.
  cbv beta iota.
  destruct (bool_decide _); [reflexivity|].
  destruct (os_mkdir (head ++ [name]) w) as [[[]|[]] w']; reflexivity.
Qed.


Lemma resolve_final (hops : nat) (fs : node) (p q t : path) :
  resolve hops fs p = Some q -> lookup_node q fs <> Some (Symlink t).
Proof.
  revert p. induction hops as [|hops IH]; intros p; simpl;
    destruct (lookup_node p fs) as [[| |t']|] eqn:Hl; try done;
    try (intros [= <-]; by rewrite Hl). apply IH.
Qed.


Lemma read_file_state (p : path) (w : World) : (read_file p w).2 = w.
Proof.
  unfold read_file, mbind, IO_bind, get_fs. cbv beta iota.
  by destruct (stat (w_fs w) p) as [[| |]|].
Qed.



Lemma copy_tree_step (depth : nat) (src dst : path) (w : World) :
  copy_tree (S depth) src dst w
  = match (if bool_decide (is_Some (stat (w_fs w) dst))
           then mret tt else os_makedirs dst) w with
    | (Ok _, w1) => copy_entries depth src dst w1
    | (Raise e, w1) => (Raise e, w1)
    end.
Proof. reflexivity. Qed.








(** ** [store_experts] *)

(** ** Store cycles *)

Lemma set_node_deeper (p r : path) (c : string) (v n n' : node)
    (es : list (string * node)) :
  set_node (p ++ c :: r) v n = Some n' ->
  lookup_node p n = Some (Dir es) ->
  exists child', lookup_node (p ++ [c]) n' = Some child'
                 /\ lookup_node p n' = Some (Dir (set_entry c child' es)).
Proof.
  revert n n'. induction p as [|d p IH]; intros n n' Hset Hp.
  - simpl in Hp. injection Hp as ->. simpl in Hset.
    destruct r as [|c' r].
    + injection Hset as <-. exists v. simpl. by rewrite assoc_set_entry_eq.
    + destruct (assoc c es) as [child|]; [|done].
      destruct (set_node (c' :: r) v child) as [child'|]; [|done].
      injection Hset as <-. exists child'. simpl. by rewrite assoc_set_entry_eq.
  - simpl in Hp. destruct n as [|es0|]; try done.
    destruct (assoc d es0) as [child|] eqn:Hch; [|done].
    change ((d :: p) ++ c :: r) with (d :: (p ++ c :: r)) in Hset.
    destruct (p ++ c :: r) as [|c' pr] eqn:Hpr; [by destruct p|].
    rewrite set_node_cons2, Hch in Hset.
    destruct (set_node (c' :: pr) v child) as [child'|] eqn:Hc; [|done].
    injection Hset as <-.
    destruct (IH _ _ Hc Hp) as (ch & H1 & H2). exists ch.
    simpl. rewrite assoc_set_entry_eq. done.
Qed.

Lemma assoc_del_entry_ne (c k : string) (es : list (string * node)) :
  c <> k -> assoc k (del_entry c es) = assoc k es.
Proof.
  intros Hne. induction es as [|[k' x] es IH]; simpl; [done|].
  destruct (String.eqb_spec k' c) as [->|Hne']; simpl.
  - by destruct (String.eqb_spec c k).
  - by rewrite IH.
Qed.

Lemma remove_node_other (p q : path) (n n' : node) :
  remove_node p n = Some n' ->
  ~ p `prefix_of` q -> ~ q `prefix_of` p ->
  lookup_node q n' = lookup_node q n.
Proof.
  revert q n n'. induction p as [|c p IH]; intros q n n' Hrm Hpq Hqp; [done|].
  destruct q as [|d q]; [destruct Hqp; apply prefix_nil|].
  simpl in Hrm. destruct n as [|es|]; try done.
  destruct (decide (c = d)) as [<-|Hne].
  - destruct p as [|c' p].
    + destruct Hpq. by apply prefix_cons, prefix_nil.
    + destruct (assoc c es) as [child|] eqn:Hch; [|done].
      destruct (remove_node (c' :: p) child) as [child'|] eqn:Hc; [|done].
      injection Hrm as <-. simpl. rewrite assoc_set_entry_eq, Hch.
      apply (IH _ _ _ Hc).
      * intros Hp. apply Hpq. by apply prefix_cons.
      * intros Hq. apply Hqp. by apply prefix_cons.
  - assert (lookup_node (d :: q) n' = lookup_node (d :: q) (Dir es)) as ->; [|done].
    destruct p as [|c' p].
    + injection Hrm as <-. simpl. by rewrite assoc_del_entry_ne.
    + destruct (assoc c es) as [child|]; [|done].
      destruct (remove_node (c' :: p) child) as [child'|]; [|done].
      injection Hrm as <-. simpl. by rewrite assoc_set_entry_ne.
Qed.

Lemma create_inv (p : path) (v : node) (w w' : World) :
  create p v w = (Ok tt, w') ->
  lookup_node p (w_fs w) = None
  /\ exists es fs', lookup_node (parent p) (w_fs w) = Some (Dir es)
                    /\ set_node p v (w_fs w) = Some fs'
                    /\ w' = with_fs w fs'.
Proof.
  unfold create, mbind, IO_bind, get_fs, put_fs, raise. cbv beta iota.
  destruct (lookup_node p (w_fs w)); [done|].
  destruct (lookup_node (parent p) (w_fs w)) as [[|es|]|]; try done.
  destruct (set_node p v (w_fs w)) as [fs'|] eqn:Hset; [|done].
  intros [= <-]. split; [done|]. by exists es, fs'.
Qed.

Lemma write_file_ok (p : path) (c : content) (w : World) (es : list (string * node)) :
  lookup_node p (w_fs w) = None \/ (exists c0, lookup_node p (w_fs w) = Some (File c0)) ->
  lookup_node (parent p) (w_fs w) = Some (Dir es) ->
  p <> [] ->
  exists fs', set_node p (File c) (w_fs w) = Some fs'
              /\ write_file p c w = (Ok tt, with_fs w fs').
Proof.
  intros Hold Hpar Hne.
  destruct (set_node_succeeds p (File c) (w_fs w) es Hne Hpar) as [fs' Hset].
  exists fs'. split; [done|]. rewrite write_file_eq.
  rewrite resolve_not_link by (destruct Hold as [->|[? ->]]; done).
  rewrite Hpar, Hset. destruct p; [done|].
  by destruct Hold as [->|[? ->]].
Qed.


Lemma resolve_link (hops : nat) (fs : node) (p a : path) :
  lookup_node p fs = Some (Symlink a) -> resolve (S hops) fs p = resolve hops fs a.
Proof. intros Hl. simpl. by rewrite Hl. Qed.

Lemma reads_as_resolve (src : path) (fs : node) (n : string) (c : content) :
  reads_as src fs n c ->
  exists a, resolve MAXSYMLINKS fs (src ++ [n]) = Some a
            /\ lookup_node a fs = Some (File c) /\ src `prefix_of` a.
Proof.
  intros [Hf|(a & Hl & Ha & Hpre)].
  - exists (src ++ [n]). split; [|split; [done|by apply prefix_app_r]].
    apply resolve_not_link. by rewrite Hf.
  - exists a. split; [|done]. change MAXSYMLINKS with (S 39).
    rewrite (resolve_link _ _ _ _ Hl).
    apply resolve_not_link. by rewrite Ha.
Qed.

Lemma copy2_file_ok (src dst : path) (n : string) (c : content) (w : World)
    (des : list (string * node)) :
  ~ src `prefix_of` dst -> ~ dst `prefix_of` src ->
  reads_as src (w_fs w) n c ->
  lookup_node dst (w_fs w) = Some (Dir des) ->
  assoc n des = None \/ (exists c0, assoc n des = Some (File c0)) ->
  exists fs', set_node (dst ++ [n]) (File c) (w_fs w) = Some fs'
              /\ os_path_isdir (src ++ [n]) w = (Ok false, w)
              /\ copy2 (src ++ [n]) (dst ++ [n]) w = (Ok tt, with_fs w fs').
Proof.
  intros H1 H2 Hread Hdst Hold.
  destruct (reads_as_resolve _ _ _ _ Hread) as (a & Hres & Ha & Hpre).
  assert (Hl : lookup_node (dst ++ [n]) (w_fs w) = assoc n des).
  { rewrite lookup_node_app, Hdst. simpl. by destruct (assoc n des). }
  assert (Hold' : lookup_node (dst ++ [n]) (w_fs w) = None
                  \/ exists c0, lookup_node (dst ++ [n]) (w_fs w) = Some (File c0))
    by (by rewrite Hl).
  destruct (write_file_ok (dst ++ [n]) c w des Hold') as (fs' & Hset & Hwr);
    [by rewrite parent_snoc|by destruct dst|].
  exists fs'. split; [done|].
  assert (Hst : stat (w_fs w) (src ++ [n]) = Some (File c))
    by (unfold stat; by rewrite Hres).
  assert (Hstd : stat (w_fs w) (dst ++ [n]) = lookup_node (dst ++ [n]) (w_fs w)).
  { unfold stat. rewrite resolve_not_link; [done|].
    destruct Hold' as [->|[? ->]]; done. }
  split.
  { unfold os_path_isdir, mbind, IO_bind, get_fs, mret, IO_ret. cbv beta iota.
    by rewrite Hst. }
  unfold copy2, copyfile, os_path_isdir, samefile, read_file.
  unfold mbind, IO_bind, get_fs, mret, IO_ret. cbv beta iota.
  rewrite Hstd.
  assert (is_dir_node (lookup_node (dst ++ [n]) (w_fs w)) = false) as ->
    by (destruct Hold' as [->|[? ->]]; done).
  rewrite Hres, resolve_not_link by (destruct Hold' as [->|[? ->]]; done).
  rewrite bool_decide_eq_false_2.
  - cbn [andb]. rewrite Hst. exact Hwr.
  - intros ->. destruct Hpre as [k Hk].
    by apply (unrelated_app src dst k [n]).
Qed.

Lemma all_files_assoc (n : string) (es : list (string * node)) :
  all_files es -> assoc n es = None \/ exists c, assoc n es = Some (File c).
Proof.
  induction 1 as [|[k v] es [c Hc] _ IH]; simpl; [by left|].
  destruct (String.eqb k n); [|done]. simpl in Hc. subst v. right. by exists c.
Qed.

Lemma all_files_set_entry (n : string) (c : content) (es : list (string * node)) :
  all_files es -> all_files (set_entry n (File c) es).
Proof.
  induction 1 as [|[k v] es Hv Hes IH]; simpl.
  - constructor; [by exists c|constructor].
  - destruct (String.eqb k n); constructor; try done. by exists c.
Qed.


Lemma all_files_copied_in (items : list (string * content)) (des : list (string * node)) :
  all_files des -> all_files (copied_in items des).
Proof.
  revert des. induction items as [|[n c] items IH]; intros des Hdes; [done|].
  simpl. by apply IH, all_files_set_entry.
Qed.

Lemma unrelated_snoc_r (q dst : path) (n : string) :
  ~ dst `prefix_of` q -> ~ q `prefix_of` dst ->
  ~ dst ++ [n] `prefix_of` q /\ ~ q `prefix_of` dst ++ [n].
Proof.
  intros H1 H2. split.
  - intros H. apply H1. etrans; [|exact H]. by apply prefix_app_r.
  - intros [H| ->]%prefix_snoc_inv; [done|]. apply H1. by apply prefix_app_r.
Qed.

Lemma unrelated_src (src dst x : path) (n : string) :
  ~ src `prefix_of` dst -> ~ dst `prefix_of` src ->
  ~ dst ++ [n] `prefix_of` src ++ x /\ ~ src ++ x `prefix_of` dst ++ [n].
Proof.
  intros H1 H2. split.
  - intros [k Hk]. rewrite <- app_assoc in Hk. by apply unrelated_app in Hk.
  - intros [k Hk]. rewrite <- app_assoc in Hk. symmetry in Hk.
    by apply unrelated_app in Hk.
Qed.

Lemma reads_as_frame (src : path) (fs fs' : node) (n : string) (c : content) :
  (forall x, lookup_node (src ++ x) fs' = lookup_node (src ++ x) fs) ->
  reads_as src fs n c -> reads_as src fs' n c.
Proof.
  intros Hsame [Hf|(a & Hl & Ha & [k ->])].
  - left. by rewrite Hsame.
  - right. exists (src ++ k). rewrite !Hsame. split; [done|]. split; [done|].
    by apply prefix_app_r.
Qed.

Section FlatCopy.

Variable depth : nat.
Variables src dst : path.
Hypothesis Hsd : ~ src `prefix_of` dst.
Hypothesis Hds : ~ dst `prefix_of` src.

Let body : string -> IO unit := fun item =>
  d ← os_path_isdir (src ++ [item]);
  if d : bool then copy_tree depth (src ++ [item]) (dst ++ [item])
  else copy2 (src ++ [item]) (dst ++ [item]).

Lemma copy_flat_loop (items : list (string * content)) :
  forall (w : World) (des : list (string * node)),
    (forall n c, In (n, c) items -> reads_as src (w_fs w) n c) ->
    lookup_node dst (w_fs w) = Some (Dir des) ->
    all_files des ->
    exists fs',
      for_ (map fst items) body w = (Ok tt, with_fs w fs')
      /\ lookup_node dst fs' = Some (Dir (copied_in items des))
      /\ (forall q, ~ dst `prefix_of` q -> ~ q `prefix_of` dst ->
            lookup_node q fs' = lookup_node q (w_fs w)).
Proof.
  induction items as [|[n c] items IH]; intros w des Hread Hdst Hfiles.
  - exists (w_fs w). split; [by destruct w|]. done.
  - destruct (copy2_file_ok src dst n c w des Hsd Hds) as (fs1 & Hset & Hisd & Hcp);
      [apply Hread; by left|done|by apply all_files_assoc|].
    assert (Hsrc : forall x, lookup_node (src ++ x) fs1 = lookup_node (src ++ x) (w_fs w)).
    { intros x. destruct (unrelated_src src dst x n Hsd Hds).
      by apply (set_node_other _ _ _ _ _ Hset). }
    destruct (IH (with_fs w fs1) (set_entry n (File c) des)) as (fs' & Hfor & Hl & Hfr).
    + intros n' c' Hin. apply (reads_as_frame src (w_fs w)); [done|].
      apply Hread. by right.
    + by apply (set_node_parent _ _ _ _ _ _ Hdst).
    + by apply all_files_set_entry.
    + exists fs'. split; [|split; [done|]].
      * cbn [map fst for_]. unfold mbind at 1, IO_bind at 1.
        unfold body at 1. unfold mbind at 1, IO_bind at 1. rewrite Hisd.
        rewrite Hcp. exact Hfor.
      * intros q Hq1 Hq2. rewrite Hfr by done.
        destruct (unrelated_snoc_r q dst n Hq1 Hq2).
        by apply (set_node_other _ _ _ _ _ Hset).
Qed.

End FlatCopy.

Lemma lookup_prefix_dir (p r : path) (n m : node) :
  lookup_node (p ++ r) n = Some m -> r <> [] ->
  exists es, lookup_node p n = Some (Dir es).
Proof.
  rewrite lookup_node_app. destruct (lookup_node p n) as [[|es|]|]; try done;
    destruct r; try done. intros _ _. by eexists.
Qed.

(** [os.makedirs] of a missing entry in an existing directory is
    [os.mkdir]. *)
Lemma makedirs_existing_parent (tail : path) :
  forall (head : path) (w : World) (es : list (string * node)),
    tail <> [] ->
    lookup_node (head ++ parent tail) (w_fs w) = Some (Dir es) ->
    makedirs_from head tail w = os_mkdir (head ++ tail) w.
Proof.
  induction tail as [|name rest IH]; intros head w es Hne Hpar; [done|].
  destruct rest as [|name' rest]; [done|].
  rewrite makedirs_from_step.
  rewrite parent_cons in Hpar by done.
  assert (exists es', lookup_node (head ++ [name]) (w_fs w) = Some (Dir es')) as [es' Hd].
  { destruct (parent (name' :: rest)) as [|c pr] eqn:Hp.
    - by exists es.
    - apply (lookup_prefix_dir _ (c :: pr) _ (Dir es)); [|done].
      by rewrite <- app_assoc. }
  rewrite stat_lookup_dir by (by rewrite Hd).
  rewrite Hd, bool_decide_eq_true_2 by eauto.
  rewrite (IH _ _ es); [by rewrite <- app_assoc|done|by rewrite <- app_assoc].
Qed.

(** [copy_tree] of a directory of files (and links to its files) into a
    directory of files, or into a place that is free in an existing
    directory. *)
Lemma copy_tree_flat (depth : nat) (src dst : path) (w : World)
    (ses : list (string * node)) (items : list (string * content))
    (des : list (string * node)) :
  ~ src `prefix_of` dst -> ~ dst `prefix_of` src ->
  lookup_node src (w_fs w) = Some (Dir ses) ->
  map fst ses = map fst items ->
  (forall n c, In (n, c) items -> reads_as src (w_fs w) n c) ->
  (lookup_node dst (w_fs w) = Some (Dir des) /\ all_files des)
  \/ (lookup_node dst (w_fs w) = None /\ des = [] /\ dst <> []
      /\ is_dir_node (lookup_node (parent dst) (w_fs w)) = true) ->
  exists fs',
    copy_tree (S depth) src dst w = (Ok tt, with_fs w fs')
    /\ lookup_node dst fs' = Some (Dir (copied_in items des))
    /\ (forall q, ~ dst `prefix_of` q -> ~ q `prefix_of` dst ->
          lookup_node q fs' = lookup_node q (w_fs w)).
Proof.
  intros Hsd Hds Hsrc Hnames Hread Hdst. rewrite copy_tree_step.
  assert (Hentries : forall w1 des1,
            (forall x, lookup_node (src ++ x) (w_fs w1) = lookup_node (src ++ x) (w_fs w)) ->
            lookup_node dst (w_fs w1) = Some (Dir des1) -> all_files des1 ->
            exists fs',
              copy_entries depth src dst w1 = (Ok tt, with_fs w1 fs')
              /\ lookup_node dst fs' = Some (Dir (copied_in items des1))
              /\ (forall q, ~ dst `prefix_of` q -> ~ q `prefix_of` dst ->
                    lookup_node q fs' = lookup_node q (w_fs w1))).
  { intros w1 des1 Hsame Hd1 Hf1.
    destruct (copy_flat_loop depth src dst Hsd Hds items w1 des1) as (fs' & Hfor & Hl & Hfr);
      [|done|done|].
    { intros n c Hin. apply (reads_as_frame src (w_fs w)); [done|]. by apply Hread. }
    exists fs'. split; [|done].
    unfold copy_entries, os_listdir, mbind, IO_bind, get_fs, mret, IO_ret. cbv beta iota.
    specialize (Hsame []). rewrite !app_nil_r in Hsame.
    rewrite stat_lookup_dir by (by rewrite Hsame, Hsrc).
    rewrite Hsame, Hsrc, Hnames. exact Hfor. }
  destruct Hdst as [[Hd Hf]|(Hd & -> & Hne & Hpar)].
  - rewrite stat_lookup_dir by (by rewrite Hd).
    rewrite Hd, bool_decide_eq_true_2 by eauto.
    cbn [mret IO_ret]. apply (Hentries w des); done.
  - assert (stat (w_fs w) dst = None) as ->.
    { unfold stat. rewrite resolve_not_link by (by rewrite Hd). done. }
    rewrite bool_decide_eq_false_2 by (by intros [? ?]).
    destruct (lookup_node (parent dst) (w_fs w)) as [[|pes|]|] eqn:Hp; try done.
    unfold os_makedirs. rewrite (makedirs_existing_parent dst [] w pes Hne Hp).
    destruct (create_eq dst (Dir []) w pes Hd Hp Hne) as (fs1 & Hset & Hcr).
    unfold os_mkdir. cbn [app]. rewrite Hcr.
    destruct (Hentries (with_fs w fs1) []) as (fs' & Hce & Hl & Hfr).
    + intros x. apply (set_node_other _ _ _ _ _ Hset).
      * intros [k Hk]. by apply (unrelated_app src dst x k).
      * intros [k Hk]. apply Hsd. exists (x ++ k)%list.
        by rewrite app_assoc.
    + by apply (set_node_at _ _ _ _ Hset).
    + constructor.
    + exists fs'. split; [exact Hce|]. split; [done|].
      intros q Hq1 Hq2. rewrite Hfr by done.
      by apply (set_node_other _ _ _ _ _ Hset).
Qed.

Lemma store_experts_unfold (depth : nat) (now : datetime) (tmpdirname : path)
    (experts : list (string * ModuleBackend)) (checkpoint_dir : path) (w : World) :
  store_experts depth now tmpdirname experts checkpoint_dir w
  = (_ ← is_directory (Some checkpoint_dir);
     with_TemporaryDirectory tmpdirname (
       _ ← for_ experts (stage_expert tmpdirname (isoformat "_" now));
       copy_tree depth tmpdirname checkpoint_dir)) (storing checkpoint_dir w).
Proof. reflexivity. Qed.

(** The first line leaves the files and the modules alone, so what is
    known of them holds when the rest starts. *)
Ltac after_debug_line Hrun ckpt w :=
  rewrite store_experts_unfold in Hrun;
  change (w_fs w) with (w_fs (storing ckpt w)) in *;
  change (w_modules w) with (w_modules (storing ckpt w)) in *;
  let w0 := fresh "w0" in
  let Hw0 := fresh "Hw0" in
  remember (storing ckpt w) as w0 eqn:Hw0; clear Hw0; clear w; rename w0 into w.

Lemma digit_char_not_l (d : nat) : digit_char d <> "l"%char.
Proof.
  unfold digit_char. pose proof (Nat.mod_upper_bound d 10 ltac:(done)) as Hk.
  revert Hk. generalize (d mod 10)%nat. intros k Hk.
  do 10 (destruct k as [|k]; [discriminate|]). lia.
Qed.

Lemma isoformat_head (sep : string) (dt : datetime) :
  exists rest, isoformat sep dt = String (digit_char (year dt / 10 ^ 3)) rest.
Proof. unfold isoformat. cbn [digits]. rewrite app_String. by eexists. Qed.

Lemma module_name_inj (a b : string) : module_name a = module_name b -> a = b.
Proof. unfold module_name. intros H%String.app_inj. by apply app_inv_tail_str in H. Qed.

Lemma checkpoint_name_inj (a b : string) : checkpoint_name a = checkpoint_name b -> a = b.
Proof. unfold checkpoint_name. intros H%String.app_inj. by apply app_inv_tail_str in H. Qed.

Lemma module_not_checkpoint (a b : string) : module_name a <> checkpoint_name b.
Proof. unfold module_name, checkpoint_name. rewrite !app_String. discriminate. Qed.

Lemma module_not_stable (a : string) :
  module_name a <> "module.safetensors" /\ module_name a <> "checkpoint_last.safetensors".
Proof. unfold module_name. rewrite !app_String. split; discriminate. Qed.

Lemma checkpoint_not_stable (dt : datetime) :
  let ts := isoformat "_" dt in
  checkpoint_name ts <> "module.safetensors"
  /\ checkpoint_name ts <> "checkpoint_last.safetensors".
Proof.
  intros ts. subst ts. destruct (isoformat_head "_" dt) as [rest ->].
  unfold checkpoint_name. rewrite !app_String, app_empty_l. split; [discriminate|].
  intros [= H _]. by apply digit_char_not_l in H.
Qed.

Lemma str_mem_false (n : string) (l : list string) : str_mem n l = false <-> ~ In n l.
Proof. rewrite <- str_mem_In. by destruct (str_mem n l). Qed.

Lemma add_name_fresh (names : list string) (n : string) :
  ~ In n names -> add_name names n = names ++ [n].
Proof. intros Hn. unfold add_name. by rewrite (proj2 (str_mem_false _ _) Hn). Qed.

Lemma add_name_there (names : list string) (n : string) :
  In n names -> add_name names n = names.
Proof. intros Hn. unfold add_name. by rewrite (proj2 (str_mem_In _ _) Hn). Qed.

Lemma stage_names_fresh (dt : datetime) :
  add_names (stage_names (isoformat "_" dt)) [] = stage_names (isoformat "_" dt).
Proof.
  pose proof (module_not_checkpoint (isoformat "_" dt) (isoformat "_" dt)) as H1.
  destruct (module_not_stable (isoformat "_" dt)) as [H2 H3].
  destruct (checkpoint_not_stable dt) as [H4 H5].
  unfold add_names, stage_names. cbn [fold_left].
  rewrite (add_name_fresh [] _) by (by intros []).
  rewrite (add_name_fresh _ (checkpoint_name _)) by (intros [?|[]]; congruence).
  rewrite (add_name_fresh _ "module.safetensors")
    by (intros [?|[?|[]]]; congruence).
  rewrite (add_name_fresh _ "checkpoint_last.safetensors")
    by (intros [?|[?|[?|[]]]]; congruence).
  reflexivity.
Qed.

Lemma in_listing (n t0 : string) (done : list string) :
  In n (listing (t0 :: done)) ->
  In n (stage_names t0)
  \/ exists t, In t done /\ (n = module_name t \/ n = checkpoint_name t).
Proof.
  unfold listing. rewrite in_app_iff, in_flat_map.
  intros [H|(t & Ht & [<-|[<-|[]]])]; [by left|right; eauto..].
Qed.

Lemma listing_snoc (d0 d : datetime) (done : list datetime) :
  let ts := isoformat "_" in
  ~ In (ts d) (ts d0 :: map ts done) ->
  add_names (stage_names (ts d)) (listing (ts d0 :: map ts done))
  = listing (ts d0 :: map ts (done ++ [d])).
Proof.
  intros ts Hfresh.
  assert (Hm : ~ In (module_name (ts d)) (listing (ts d0 :: map ts done))).
  { intros [Hin|(t & Ht & [Heq|Heq])]%in_listing.
    - destruct Hin as [Heq|[Heq|[Heq|[Heq|[]]]]].
      + apply module_name_inj in Heq. apply Hfresh. by left.
      + symmetry in Heq. by apply module_not_checkpoint in Heq.
      + symmetry in Heq. by apply module_not_stable in Heq.
      + symmetry in Heq. by apply module_not_stable in Heq.
    - apply module_name_inj in Heq. apply Hfresh. right. by rewrite Heq.
    - by apply module_not_checkpoint in Heq. }
  assert (Hc : ~ In (checkpoint_name (ts d)) (listing (ts d0 :: map ts done))).
  { intros [Hin|(t & Ht & [Heq|Heq])]%in_listing.
    - destruct Hin as [Heq|[Heq|[Heq|[Heq|[]]]]].
      + by apply module_not_checkpoint in Heq.
      + apply checkpoint_name_inj in Heq. apply Hfresh. by left.
      + symmetry in Heq. by apply (checkpoint_not_stable d) in Heq.
      + symmetry in Heq. by apply (checkpoint_not_stable d) in Heq.
    - symmetry in Heq. by apply module_not_checkpoint in Heq.
    - apply checkpoint_name_inj in Heq. apply Hfresh. right. by rewrite Heq. }
  unfold add_names, stage_names at 1. cbn [fold_left].
  rewrite (add_name_fresh _ _ Hm).
  rewrite (add_name_fresh _ (checkpoint_name _)).
  2:{ rewrite in_app_iff. intros [?|[Heq|[]]]; [done|].
      by apply module_not_checkpoint in Heq. }
  rewrite (add_name_there _ "module.safetensors").
  2:{ unfold listing, stage_names. rewrite !in_app_iff. cbn [In]. tauto. }
  rewrite (add_name_there _ "checkpoint_last.safetensors").
  2:{ unfold listing, stage_names. rewrite !in_app_iff. cbn [In]. tauto. }
  unfold listing. rewrite map_app, flat_map_app. cbn [map flat_map].
  by rewrite <- !app_assoc.
Qed.


Lemma names_after_listing (dts : list datetime) :
  List.NoDup (map (isoformat "_") dts) ->
  names_after (map (isoformat "_") dts) = listing (map (isoformat "_") dts).
Proof.
  destruct dts as [|d0 rest]; [done|]. intros Hnd.
  unfold names_after. cbn [map fold_left]. rewrite stage_names_fresh.
  assert (Hgen : forall done,
            List.NoDup (isoformat "_" d0 :: map (isoformat "_") (done ++ rest)) ->
            fold_left (fun names t => add_names (stage_names t) names)
              (map (isoformat "_") rest)
              (listing (isoformat "_" d0 :: map (isoformat "_") done))
            = listing (isoformat "_" d0 :: map (isoformat "_") (done ++ rest))).
  { clear Hnd. induction rest as [|d rest IH]; intros done Hnd.
    - by rewrite app_nil_r.
    - cbn [map fold_left]. rewrite listing_snoc.
      + rewrite (IH (done ++ [d])); [by rewrite <- app_assoc|].
        by rewrite <- app_assoc.
      + rewrite map_app in Hnd. cbn [map] in Hnd.
        change (isoformat "_" d0 :: map (isoformat "_") done
                ++ isoformat "_" d :: map (isoformat "_") rest)
          with ((isoformat "_" d0 :: map (isoformat "_") done)
                ++ isoformat "_" d :: map (isoformat "_") rest) in Hnd.
        apply NoDup_remove_2 in Hnd. rewrite in_app_iff in Hnd. tauto. }
  specialize (Hgen [] Hnd). cbn [map app] in Hgen.
  replace (stage_names (isoformat "_" d0)) with (listing [isoformat "_" d0])
    by (unfold listing; cbn [flat_map]; by rewrite app_nil_r).
  exact Hgen.
Qed.

Lemma length_listing (t : string) (rest : list string) :
  length (listing (t :: rest)) = (2 * length (t :: rest) + 2)%nat.
Proof.
  unfold listing. rewrite length_app. cbn [stage_names length].
  assert (length (flat_map (fun t' => [module_name t'; checkpoint_name t']) rest)
          = (2 * length rest)%nat) as ->.
  { induction rest as [|x rest IH]; [done|]. cbn [flat_map app length]. lia. }
  lia.
Qed.

Lemma NoDup_add_name (names : list string) (n : string) :
  List.NoDup names -> List.NoDup (add_name names n).
Proof.
  intros Hnd. unfold add_name. destruct (str_mem n names) eqn:E; [done|].
  apply str_mem_false in E. apply NoDup_ListNoDup, NoDup_app.
  apply NoDup_ListNoDup in Hnd. split; [done|]. split.
  - intros x Hx%list_elem_of_In [->|[]%list_elem_of_In]%elem_of_cons. done.
  - apply NoDup_singleton.
Qed.

Lemma NoDup_names_after (tss : list string) : List.NoDup (names_after tss).
Proof.
  unfold names_after.
  assert (forall acc, List.NoDup acc ->
            List.NoDup (fold_left (fun names t => add_names (stage_names t) names) tss acc))
    as Hgen; [|apply Hgen; constructor].
  induction tss as [|t tss IH]; intros acc Hacc; [done|].
  cbn [fold_left]. apply IH. unfold add_names.
  generalize (stage_names t). intros new. revert acc Hacc.
  induction new as [|n new IHn]; intros acc Hacc; [done|].
  cbn [fold_left]. by apply IHn, NoDup_add_name.
Qed.

Lemma set_entry_twice (c : string) (v v' : node) (es : list (string * node)) :
  set_entry c v' (set_entry c v es) = set_entry c v' es.
Proof.
  induction es as [|[k x] es IH]; simpl.
  - by rewrite String.eqb_refl.
  - destruct (String.eqb k c) eqn:E; simpl; rewrite E; [done|by rewrite IH].
Qed.

Lemma set_entry_fresh (c : string) (v : node) (es : list (string * node)) :
  assoc c es = None -> set_entry c v es = es ++ [(c, v)].
Proof.
  induction es as [|[k x] es IH]; simpl; [done|].
  destruct (String.eqb k c); [done|]. intros H. by rewrite IH.
Qed.


Lemma staging_dir (tmp : path) (e : string) (es : list (string * node))
    (fs0 fs : node) (cur : list (string * node)) :
  staging tmp e es fs0 fs cur -> lookup_node (tmp ++ [e]) fs = Some (Dir cur).
Proof.
  intros [Ht _]. rewrite lookup_node_app, Ht. simpl. by rewrite assoc_set_entry_eq.
Qed.

Lemma staging_put (tmp : path) (e name : string) (v : node)
    (es : list (string * node)) (fs0 fs fs' : node) (cur : list (string * node)) :
  staging tmp e es fs0 fs cur ->
  set_node ((tmp ++ [e]) ++ [name]) v fs = Some fs' ->
  staging tmp e es fs0 fs' (set_entry name v cur).
Proof.
  intros Hst Hset. pose proof (staging_dir _ _ _ _ _ _ Hst) as Hdir.
  destruct Hst as [Ht Hfr]. split.
  - pose proof (set_node_parent _ _ _ _ _ _ Hdir Hset) as Hdir'.
    rewrite <- app_assoc in Hset. cbn [app] in Hset.
    destruct (set_node_deeper _ _ _ _ _ _ _ Hset Ht) as (child' & Hc & Ht').
    rewrite Hdir' in Hc. injection Hc as <-.
    by rewrite Ht', set_entry_twice.
  - intros q Hq1 Hq2. rewrite <- Hfr by done.
    destruct (unrelated_snoc_r q (tmp ++ [e]) name Hq1 Hq2).
    by apply (set_node_other _ _ _ _ _ Hset).
Qed.

Lemma create_in (p : path) (name : string) (v : node) (w : World)
    (cur : list (string * node)) :
  lookup_node p (w_fs w) = Some (Dir cur) -> assoc name cur = None ->
  exists fs', set_node (p ++ [name]) v (w_fs w) = Some fs'
              /\ create (p ++ [name]) v w = (Ok tt, with_fs w fs').
Proof.
  intros Hp Hfresh. apply (create_eq _ _ _ cur).
  - by rewrite lookup_node_app, Hp; simpl; rewrite Hfresh.
  - by rewrite parent_snoc.
  - by destruct p.
Qed.

Lemma write_in (p : path) (name : string) (c : content) (w : World)
    (cur : list (string * node)) :
  lookup_node p (w_fs w) = Some (Dir cur) -> assoc name cur = None ->
  exists fs', set_node (p ++ [name]) (File c) (w_fs w) = Some fs'
              /\ write_file (p ++ [name]) c w = (Ok tt, with_fs w fs').
Proof.
  intros Hp Hfresh. apply (write_file_ok _ _ _ cur).
  - left. by rewrite lookup_node_app, Hp; simpl; rewrite Hfresh.
  - by rewrite parent_snoc.
  - by destruct p.
Qed.

Lemma staged_entries (dt : datetime) (expert_dir : path)
    (sd bsd : list (string * Tensor)) :
  let ts := isoformat "_" dt in
  set_entry "checkpoint_last.safetensors" (Symlink (expert_dir ++ [checkpoint_name ts]))
    (set_entry "module.safetensors" (Symlink (expert_dir ++ [module_name ts]))
       (set_entry (checkpoint_name ts) (File (Safetensors bsd))
          (set_entry (module_name ts) (File (Safetensors sd)) [])))
  = staged_dir expert_dir ts sd bsd
  /\ assoc (checkpoint_name ts) [(module_name ts, File (Safetensors sd))] = None
  /\ assoc "module.safetensors"
       [(module_name ts, File (Safetensors sd));
        (checkpoint_name ts, File (Safetensors bsd))] = None
  /\ assoc "checkpoint_last.safetensors"
       [(module_name ts, File (Safetensors sd));
        (checkpoint_name ts, File (Safetensors bsd));
        ("module.safetensors", Symlink (expert_dir ++ [module_name ts]))] = None.
Proof.
  intros ts.
  pose proof (module_not_checkpoint ts ts) as H1.
  destruct (module_not_stable ts) as [H2 H3].
  destruct (checkpoint_not_stable dt) as [H4 H5]. fold ts in H4, H5.
  apply String.eqb_neq in H1, H2, H3, H4, H5.
  cbn [set_entry assoc]. rewrite H1. cbn [set_entry]. rewrite H2, H4.
  cbn [set_entry]. rewrite H3, H5. cbn [set_entry].
  change ("module.safetensors" =? "checkpoint_last.safetensors")%string with false.
  cbn [set_entry]. done.
Qed.

(** What staging one expert does, when it succeeds: the snapshots are the
    state dictionaries that the backend answers. *)
Lemma stage_expert_state (tmp : path) (dt : datetime) (e : string) (b : ModuleBackend)
    (w w' : World) (es : list (string * node)) :
  let ts := isoformat "_" dt in
  stage_expert tmp ts (e, b) w = (Ok tt, w') ->
  lookup_node tmp (w_fs w) = Some (Dir es) ->
  exists m,
    w_modules w !! mb_module b = Some m
    /\ assoc e es = None
    /\ lookup_node tmp (w_fs w')
       = Some (Dir (es ++ [(e, Dir (staged_dir (tmp ++ [e]) ts (state_dict m)
                                     (mb_backend_state b)))]))
    /\ (forall q, ~ tmp ++ [e] `prefix_of` q -> ~ q `prefix_of` tmp ++ [e] ->
          lookup_node q (w_fs w') = lookup_node q (w_fs w))
    /\ w_modules w' = w_modules w /\ w_log w' = w_log w.
Proof.
  intros ts Hrun Htmp. unfold stage_expert in Hrun.
  unfold mbind at 1, IO_bind at 1 in Hrun.
  destruct (os_mkdir (tmp ++ [e]) w) as [[[]|err] w1] eqn:Hmk; [|done].
  apply create_inv in Hmk as (Hfresh & pes & fs1 & Hpar & Hset1 & ->).
  rewrite parent_snoc, Htmp in Hpar. injection Hpar as <-.
  assert (He : assoc e es = None).
  { revert Hfresh. rewrite lookup_node_app, Htmp. simpl. by destruct (assoc e es). }
  assert (Hst0 : staging tmp e es (w_fs w) fs1 []).
  { split; [by apply (set_node_parent _ _ _ _ _ _ Htmp Hset1)|].
    intros q Hq1 Hq2. by apply (set_node_other _ _ _ _ _ Hset1). }
  unfold mbind at 1, IO_bind at 1, ModuleBackend_state_dict at 1 in Hrun.
  cbn [w_modules with_fs] in Hrun.
  destruct (w_modules w !! mb_module b) as [m|]; [|done].
  set (sd := state_dict m) in *. set (bsd := mb_backend_state b) in *.
  exists m. split; [done|].
  destruct (staged_entries dt (tmp ++ [e]) sd bsd) as (Hfinal & Hf2 & Hf3 & Hf4).
  fold ts in Hfinal, Hf2, Hf3, Hf4.
  (* the module snapshot *)
  destruct (write_in (tmp ++ [e]) (module_name ts) (Safetensors sd) (with_fs w fs1) [])
    as (fs2 & Hset2 & Hw2); [by apply (staging_dir _ _ _ _ _ _ Hst0)|done|].
  pose proof (staging_put _ _ _ _ _ _ _ _ _ Hst0 Hset2) as Hst2.
  cbn [set_entry] in Hst2.
  unfold mbind at 1, IO_bind at 1, save_file at 1 in Hrun.
  change ("module_" +:+ ts +:+ ".safetensors") with (module_name ts) in Hrun.
  change ("checkpoint_" +:+ ts +:+ ".safetensors") with (checkpoint_name ts) in Hrun.
  rewrite Hw2 in Hrun.
  (* the backend snapshot *)
  destruct (write_in (tmp ++ [e]) (checkpoint_name ts) (Safetensors bsd) (with_fs w fs2)
              [(module_name ts, File (Safetensors sd))])
    as (fs3 & Hset3 & Hw3); [by apply (staging_dir _ _ _ _ _ _ Hst2)|done|].
  pose proof (staging_put _ _ _ _ _ _ _ _ _ Hst2 Hset3) as Hst3.
  unfold mbind at 1, IO_bind at 1, save_file at 1 in Hrun.
  change (with_fs (with_fs w fs1) fs2) with (with_fs w fs2) in Hrun.
  rewrite Hw3 in Hrun.
  (* the two links *)
  rewrite (set_entry_fresh _ _ _ Hf2) in Hst3. cbn [app] in Hst3.
  destruct (create_in (tmp ++ [e]) "module.safetensors"
              (Symlink ((tmp ++ [e]) ++ [module_name ts])) (with_fs w fs3) _
              (staging_dir _ _ _ _ _ _ Hst3) Hf3) as (fs4 & Hset4 & Hc4).
  pose proof (staging_put _ _ _ _ _ _ _ _ _ Hst3 Hset4) as Hst4.
  unfold mbind at 1, IO_bind at 1, os_symlink at 1 in Hrun.
  change (with_fs (with_fs w fs2) fs3) with (with_fs w fs3) in Hrun.
  rewrite Hc4 in Hrun.
  rewrite (set_entry_fresh _ _ _ Hf3) in Hst4. cbn [app] in Hst4.
  destruct (create_in (tmp ++ [e]) "checkpoint_last.safetensors"
              (Symlink ((tmp ++ [e]) ++ [checkpoint_name ts])) (with_fs w fs4) _
              (staging_dir _ _ _ _ _ _ Hst4) Hf4) as (fs5 & Hset5 & Hc5).
  pose proof (staging_put _ _ _ _ _ _ _ _ _ Hst4 Hset5) as Hst5.
  unfold os_symlink in Hrun.
  change (with_fs (with_fs w fs3) fs4) with (with_fs w fs4) in Hrun.
  rewrite Hc5 in Hrun. injection Hrun as <-.
  rewrite (set_entry_fresh _ _ _ Hf4) in Hst5. cbn [app] in Hst5.
  destruct Hst5 as [Ht5 Hfr5]. rewrite (set_entry_fresh _ _ _ He) in Ht5.
  split; [done|]. split; [exact Ht5|]. split; [exact Hfr5|done].
Qed.

(** What staging one expert does, when it succeeds. *)
Lemma stage_expert_inv (tmp : path) (dt : datetime) (e : string) (b : ModuleBackend)
    (w w' : World) (es : list (string * node)) :
  let ts := isoformat "_" dt in
  stage_expert tmp ts (e, b) w = (Ok tt, w') ->
  lookup_node tmp (w_fs w) = Some (Dir es) ->
  exists sd bsd,
    assoc e es = None
    /\ lookup_node tmp (w_fs w')
       = Some (Dir (es ++ [(e, Dir (staged_dir (tmp ++ [e]) ts sd bsd))]))
    /\ (forall q, ~ tmp ++ [e] `prefix_of` q -> ~ q `prefix_of` tmp ++ [e] ->
          lookup_node q (w_fs w') = lookup_node q (w_fs w))
    /\ w_modules w' = w_modules w /\ w_log w' = w_log w.
Proof.
  intros ts Hrun Htmp.
  destruct (stage_expert_state tmp dt e b w w' es Hrun Htmp) as (m & _ & H).
  by exists (state_dict m), (mb_backend_state b).
Qed.

Lemma for_cons_inv {A} (x : A) (xs : list A) (body : A -> IO unit) (w w' : World) :
  for_ (x :: xs) body w = (Ok tt, w') ->
  exists w1, body x w = (Ok tt, w1) /\ for_ xs body w1 = (Ok tt, w').
Proof.
  cbn [for_]. unfold mbind, IO_bind.
  destruct (body x w) as [[[]|err] w1]; [|done]. intros H. by exists w1.
Qed.

Lemma assoc_app {A} (k : string) (l1 l2 : list (string * A)) :
  assoc k (l1 ++ l2) = match assoc k l1 with Some v => Some v | None => assoc k l2 end.
Proof.
  induction l1 as [|[k' v'] l1 IH]; simpl; [done|].
  by destruct (String.eqb k' k).
Qed.

Lemma staging_loop_inv (tmp : path) (dt : datetime)
    (experts : list (string * ModuleBackend)) :
  let ts := isoformat "_" dt in
  forall (w w' : World) (es : list (string * node)),
    for_ experts (stage_expert tmp ts) w = (Ok tt, w') ->
    lookup_node tmp (w_fs w) = Some (Dir es) ->
    exists staged,
      lookup_node tmp (w_fs w') = Some (Dir (es ++ staged))
      /\ map fst staged = map fst experts
      /\ (forall e v, In (e, v) staged ->
            assoc e (es ++ staged) = Some v
            /\ exists sd bsd, v = Dir (staged_dir (tmp ++ [e]) ts sd bsd))
      /\ (forall q, ~ tmp `prefix_of` q -> ~ q `prefix_of` tmp ->
            lookup_node q (w_fs w') = lookup_node q (w_fs w))
      /\ w_modules w' = w_modules w /\ w_log w' = w_log w.
Proof.
  intros ts. induction experts as [|[e b] experts IH]; intros w w' es Hrun Htmp.
  - injection Hrun as <-. exists []. rewrite app_nil_r. by repeat split.
  - apply for_cons_inv in Hrun as (w1 & Hone & Hrest).
    destruct (stage_expert_inv tmp dt e b w w1 es Hone Htmp)
      as (sd & bsd & He & Ht1 & Hfr1 & Hm1 & Hl1).
    destruct (IH w1 w' _ Hrest Ht1) as (staged & Ht & Hnames & Hall & Hfr & Hm & Hl).
    exists ((e, Dir (staged_dir (tmp ++ [e]) ts sd bsd)) :: staged).
    split; [by rewrite Ht, <- app_assoc|]. split; [cbn [map fst]; by rewrite Hnames|].
    split; [|split; [|split; congruence]].
    + intros e' v' [[= <- <-]|Hin].
      * split; [|by eexists _, _].
        rewrite assoc_app, He. simpl. by rewrite String.eqb_refl.
      * destruct (Hall e' v' Hin) as [Ha Hv]. split; [|done].
        by rewrite <- app_assoc in Ha.
    + intros q Hq1 Hq2. rewrite Hfr by done.
      destruct (unrelated_snoc_r q tmp e Hq1 Hq2). by apply Hfr1.
Qed.

Lemma str_mem_assoc (n : string) (es : list (string * node)) :
  str_mem n (map fst es) = match assoc n es with Some _ => true | None => false end.
Proof.
  destruct (assoc n es) eqn:E.
  - apply str_mem_In, assoc_Some_In. by rewrite E.
  - apply str_mem_false. by apply assoc_None.
Qed.

Lemma names_copied_in (items : list (string * content)) (des : list (string * node)) :
  map fst (copied_in items des) = add_names (map fst items) (map fst des).
Proof.
  revert des. induction items as [|[n c] items IH]; intros des; [done|].
  unfold copied_in, add_names. cbn [fold_left map fst].
  fold (copied_in items (set_entry n (File c) des)). rewrite IH.
  unfold add_names. f_equal. rewrite names_set_entry. unfold add_name.
  rewrite str_mem_assoc. by destruct (assoc n des).
Qed.


Lemma staged_reads (p : path) (dt : datetime) (sd bsd : list (string * Tensor))
    (fs : node) :
  let ts := isoformat "_" dt in
  lookup_node p fs = Some (Dir (staged_dir p ts sd bsd)) ->
  forall n c, In (n, c) (staged_items sd bsd ts) -> reads_as p fs n c.
Proof.
  intros ts Hp.
  pose proof (module_not_checkpoint ts ts) as H1.
  destruct (module_not_stable ts) as [H2 H3].
  destruct (checkpoint_not_stable dt) as [H4 H5]. fold ts in H4, H5.
  apply String.eqb_neq in H1, H2, H3, H4, H5.
  assert (Hm : lookup_node (p ++ [module_name ts]) fs = Some (File (Safetensors sd))).
  { rewrite lookup_node_app, Hp. unfold staged_dir. cbn [lookup_node assoc].
    by rewrite String.eqb_refl. }
  assert (Hc : lookup_node (p ++ [checkpoint_name ts]) fs = Some (File (Safetensors bsd))).
  { rewrite lookup_node_app, Hp. unfold staged_dir. cbn [lookup_node assoc].
    by rewrite H1, String.eqb_refl. }
  unfold staged_items.
  intros n c [Hin|[Hin|[Hin|[Hin|[]]]]]; injection Hin as <- <-.
  - by left.
  - by left.
  - right. exists (p ++ [module_name ts]). split; [|split; [done|by apply prefix_app_r]].
    rewrite lookup_node_app, Hp. unfold staged_dir. cbn [lookup_node assoc].
    rewrite H2, H4. by rewrite String.eqb_refl.
  - right. exists (p ++ [checkpoint_name ts]).
    split; [|split; [done|by apply prefix_app_r]].
    rewrite lookup_node_app, Hp. unfold staged_dir. cbn [lookup_node assoc].
    rewrite H3, H5. by rewrite !String.eqb_refl.
Qed.

Lemma unrelated_siblings (p : path) (a b : string) (x : path) :
  a <> b -> ~ p ++ [a] `prefix_of` p ++ b :: x /\ ~ p ++ b :: x `prefix_of` p ++ [a].
Proof.
  intros Hab. split.
  - intros [k Hk]. rewrite <- app_assoc in Hk. apply app_inv_head in Hk.
    by injection Hk.
  - intros [k Hk]. rewrite <- app_assoc in Hk. apply app_inv_head in Hk.
    by injection Hk.
Qed.

Lemma unrelated_below_r (src dst x y : path) :
  ~ src `prefix_of` dst -> ~ dst `prefix_of` src ->
  ~ src ++ x `prefix_of` dst ++ y /\ ~ dst ++ y `prefix_of` src ++ x.
Proof.
  intros H1 H2. split.
  - intros [k Hk]. rewrite <- app_assoc in Hk. symmetry in Hk.
    by apply unrelated_app in Hk.
  - intros [k Hk]. rewrite <- app_assoc in Hk. by apply unrelated_app in Hk.
Qed.

Section CopyExperts.

Variable depth : nat.
Variables tmp ckpt : path.
Variable dt : datetime.
Variable names : list string.
Hypothesis Htc : ~ tmp `prefix_of` ckpt.
Hypothesis Hct : ~ ckpt `prefix_of` tmp.

Let ts : string := isoformat "_" dt.

Let body : string -> IO unit := fun item =>
  d ← os_path_isdir (tmp ++ [item]);
  if d : bool then copy_tree (S depth) (tmp ++ [item]) (ckpt ++ [item])
  else copy2 (tmp ++ [item]) (ckpt ++ [item]).

Lemma copy_experts_loop (todo : list string) :
  forall w : World,
    List.NoDup todo ->
    (forall e, In e todo ->
       exists sd bsd, lookup_node (tmp ++ [e]) (w_fs w)
                      = Some (Dir (staged_dir (tmp ++ [e]) ts sd bsd))) ->
    is_dir_node (lookup_node ckpt (w_fs w)) = true ->
    (forall e, In e todo -> dir_names ckpt e (w_fs w) names) ->
    exists fs',
      for_ todo body w = (Ok tt, with_fs w fs')
      /\ (forall e, In e todo ->
            dir_names ckpt e fs' (add_names (stage_names ts) names)
            /\ is_dir_node (lookup_node (ckpt ++ [e]) fs') = true)
      /\ (forall q, (forall e, In e todo ->
                       ~ ckpt ++ [e] `prefix_of` q /\ ~ q `prefix_of` ckpt ++ [e]) ->
            lookup_node q fs' = lookup_node q (w_fs w)).
Proof.
  induction todo as [|e todo IH]; intros w Hnd Hst Hck Hdir.
  - exists (w_fs w). split; [by destruct w|]. split; [by intros ? []|done].
  - apply NoDup_cons_iff in Hnd as [Hnin Hnd].
    destruct (Hst e (or_introl eq_refl)) as (sd & bsd & Hse).
    assert (Hunrel : ~ tmp ++ [e] `prefix_of` ckpt ++ [e]
                     /\ ~ ckpt ++ [e] `prefix_of` tmp ++ [e])
      by (by apply unrelated_below_r).
    destruct Hunrel as [Hu1 Hu2].
    (* the state of the expert's directory *)
    pose proof (Hdir e (or_introl eq_refl)) as Hde. unfold dir_names in Hde.
    assert (exists des,
              ((lookup_node (ckpt ++ [e]) (w_fs w) = Some (Dir des) /\ all_files des)
               \/ (lookup_node (ckpt ++ [e]) (w_fs w) = None /\ des = []
                   /\ ckpt ++ [e] <> []
                   /\ is_dir_node (lookup_node (parent (ckpt ++ [e])) (w_fs w)) = true))
              /\ map fst des = names) as (des & Hdst & Hdn).
    { destruct (lookup_node (ckpt ++ [e]) (w_fs w)) as [[|des|]|]; try done.
      - destruct Hde as [Hf Hn]. exists des. split; [by left|done].
      - exists []. split; [|done]. right. rewrite parent_snoc.
        split; [done|]. split; [done|]. split; [by destruct ckpt|done]. }
    destruct (copy_tree_flat depth (tmp ++ [e]) (ckpt ++ [e]) w
                (staged_dir (tmp ++ [e]) ts sd bsd) (staged_items sd bsd ts) des
                Hu1 Hu2 Hse eq_refl (staged_reads _ dt _ _ _ Hse) Hdst)
      as (fs1 & Hcp & Hl1 & Hfr1).
    assert (Hisd : os_path_isdir (tmp ++ [e]) w = (Ok true, w)).
    { unfold os_path_isdir, mbind, IO_bind, get_fs, mret, IO_ret. cbv beta iota.
      rewrite stat_lookup_dir by (by rewrite Hse). by rewrite Hse. }
    destruct (IH (with_fs w fs1)) as (fs' & Hfor & Hpost & Hfr); [done|..].
    + intros e' He'. destruct (Hst e' (or_intror He')) as (sd' & bsd' & Hs').
      exists sd', bsd'. cbn [w_fs with_fs]. rewrite <- Hs'. apply Hfr1.
      * by apply unrelated_below_r.
      * by apply unrelated_below_r.
    + cbn [w_fs with_fs].
      destruct (lookup_prefix_dir ckpt [e] fs1 _ Hl1) as [ces ->]; done.
    + intros e' He'. specialize (Hdir e' (or_intror He')).
      unfold dir_names in *. cbn [w_fs with_fs].
      assert (e <> e') by (by intros ->).
      destruct (unrelated_siblings ckpt e e' []) as [? ?]; [done|].
      by rewrite Hfr1.
    + exists fs'. split; [|split].
      * cbn [for_]. unfold mbind at 1, IO_bind at 1, body at 1.
        unfold mbind at 1, IO_bind at 1. rewrite Hisd, Hcp. exact Hfor.
      * intros e' [<-|He']; [|by apply Hpost].
        assert (Hsame : lookup_node (ckpt ++ [e]) fs' = lookup_node (ckpt ++ [e]) fs1).
        { apply Hfr. intros e' He'. assert (e' <> e) by (by intros ->).
          by apply (unrelated_siblings ckpt e' e []). }
        unfold dir_names. rewrite Hsame, Hl1. split; [|done]. split.
        -- apply all_files_copied_in. destruct Hdst as [[_ Hf]|(_ & -> & _)]; [done|constructor].
        -- by rewrite names_copied_in, Hdn.
      * intros q Hq. rewrite Hfr by (intros e' He'; apply Hq; by right).
        cbn [w_fs with_fs]. destruct (Hq e (or_introl eq_refl)). by apply Hfr1.
Qed.

End CopyExperts.

Lemma is_directory_ok (d : path) (w : World) :
  is_dir_node (lookup_node d (w_fs w)) = true ->
  is_directory (Some d) w = (Ok true, w).
Proof.
  intros Hd. pose proof (stat_lookup_dir _ _ Hd) as Hs.
  assert (Hex : bool_decide (is_Some (stat (w_fs w) d)) = true).
  { apply bool_decide_eq_true_2. rewrite Hs.
    destruct (lookup_node d (w_fs w)); [by eexists|done]. }
  unfold is_directory, os_path_exists, os_path_isdir, assert.
  unfold mbind, IO_bind, get_fs, mret, IO_ret. cbv beta iota.
  rewrite Hex. cbv beta iota. rewrite Hs, Hd. reflexivity.
Qed.

Lemma rmtree_inv (p : path) (w w' : World) :
  rmtree p w = (Ok tt, w') ->
  exists fs', remove_node p (w_fs w) = Some fs' /\ w' = with_fs w fs'.
Proof.
  unfold rmtree, mbind, IO_bind, get_fs, put_fs, raise. cbv beta iota.
  destruct (lookup_node p (w_fs w)); [|done].
  destruct (remove_node p (w_fs w)) as [fs'|]; [|done].
  intros [= <-]. by exists fs'.
Qed.

Lemma staging_loop_fresh (tmp : path) (dt : datetime)
    (experts : list (string * ModuleBackend)) :
  forall (w w' : World) (es : list (string * node)),
    for_ experts (stage_expert tmp (isoformat "_" dt)) w = (Ok tt, w') ->
    lookup_node tmp (w_fs w) = Some (Dir es) ->
    List.NoDup (map fst experts)
    /\ forall e, In e (map fst experts) -> assoc e es = None.
Proof.
  induction experts as [|[e b] experts IH]; intros w w' es Hrun Htmp.
  - split; [constructor|by intros ? []].
  - apply for_cons_inv in Hrun as (w1 & Hone & Hrest).
    destruct (stage_expert_inv tmp dt e b w w1 es Hone Htmp)
      as (sd & bsd & He & Ht1 & _).
    destruct (IH w1 w' _ Hrest Ht1) as [Hnd Hfresh].
    assert (Hstep : forall e', In e' (map fst experts) -> e' <> e /\ assoc e' es = None).
    { intros e' He'. specialize (Hfresh e' He'). rewrite assoc_app in Hfresh.
      destruct (assoc e' es); [done|]. split; [|done]. intros ->.
      cbn [assoc] in Hfresh. by rewrite String.eqb_refl in Hfresh. }
    split.
    + cbn [map fst]. constructor; [|done]. intros Hin. by destruct (Hstep e Hin).
    + intros e' [<-|He']; [done|]. by apply Hstep.
Qed.

Lemma for_first_raises {A} (x : A) (xs : list A) (body : A -> IO unit)
    (w w1 : World) (err : exn) :
  body x w = (Raise err, w1) -> for_ (x :: xs) body w = (Raise err, w1).
Proof. intros H. cbn [for_]. unfold mbind, IO_bind. by rewrite H. Qed.

Lemma copy_tree_existing (depth : nat) (src dst : path) (w : World) :
  is_dir_node (lookup_node dst (w_fs w)) = true ->
  copy_tree (S depth) src dst w = copy_entries depth src dst w.
Proof.
  intros Hd. rewrite copy_tree_step. rewrite bool_decide_eq_true_2; [done|].
  rewrite (stat_lookup_dir _ _ Hd). destruct (lookup_node dst (w_fs w)); [by eexists|done].
Qed.

Lemma copy_entries_listed (depth : nat) (src dst : path) (w : World)
    (ses : list (string * node)) :
  lookup_node src (w_fs w) = Some (Dir ses) ->
  copy_entries depth src dst w
  = for_ (map fst ses) (fun item =>
      d ← os_path_isdir (src ++ [item]);
      if d : bool then copy_tree depth (src ++ [item]) (dst ++ [item])
      else copy2 (src ++ [item]) (dst ++ [item])) w.
Proof.
  intros Hs. unfold copy_entries, os_listdir.
  unfold mbind at 1, IO_bind at 1. unfold mbind at 1, IO_bind at 1, get_fs.
  cbv beta iota. rewrite stat_lookup_dir by (by rewrite Hs). by rewrite Hs.
Qed.

Lemma isdir_ok (p : path) (w : World) :
  is_dir_node (lookup_node p (w_fs w)) = true -> os_path_isdir p w = (Ok true, w).
Proof.
  intros Hd. unfold os_path_isdir, mbind, IO_bind, get_fs, mret, IO_ret.
  cbv beta iota. by rewrite (stat_lookup_dir _ _ Hd), Hd.
Qed.

(** One successful store cycle adds the names it stages to the directory of
    each expert. *)
Lemma store_experts_cycle (depth : nat) (dt : datetime) (tmp : path)
    (experts : list (string * ModuleBackend)) (ckpt : path)
    (names : list string) (w w' : World) :
  store_experts depth dt tmp experts ckpt w = (Ok tt, w') ->
  ~ tmp `prefix_of` ckpt -> ~ ckpt `prefix_of` tmp ->
  experts <> [] ->
  is_dir_node (lookup_node ckpt (w_fs w)) = true ->
  (forall e, In e (map fst experts) -> dir_names ckpt e (w_fs w) names) ->
  is_dir_node (lookup_node ckpt (w_fs w')) = true
  /\ forall e, In e (map fst experts) ->
       dir_names ckpt e (w_fs w') (add_names (stage_names (isoformat "_" dt)) names)
       /\ is_dir_node (lookup_node (ckpt ++ [e]) (w_fs w')) = true.
Proof.
  intros Hrun Htc Hct Hne Hck Hdir. after_debug_line Hrun ckpt w.
  unfold mbind at 1, IO_bind at 1 in Hrun. rewrite (is_directory_ok _ _ Hck) in Hrun.
  unfold with_TemporaryDirectory, mbind at 1, IO_bind at 1, os_mkdir in Hrun.
  destruct (create tmp (Dir []) w) as [[[]|err] w1] eqn:Hmk; [|done].
  apply create_inv in Hmk as (Hfree & pes & fs1 & Hpar & Hset & ->).
  unfold finally in Hrun.
  match type of Hrun with
  | match ?b with _ => _ end = _ => destruct b as [r w2] eqn:Hbody
  end.
  destruct (rmtree tmp w2) as [[[]|err] w3] eqn:Hrm; [|done].
  injection Hrun as -> ->.
  apply rmtree_inv in Hrm as (fs3 & Hrm & ->).
  unfold mbind, IO_bind in Hbody.
  destruct (for_ experts (stage_expert tmp (isoformat "_" dt)) (with_fs w fs1))
    as [[[]|err] ws] eqn:Hstage; [|done].
  pose proof (set_node_at _ _ _ _ Hset) as Htmp1.
  destruct (staging_loop_fresh tmp dt experts _ _ [] Hstage Htmp1) as [Hnd _].
  destruct (staging_loop_inv tmp dt experts _ _ [] Hstage Htmp1)
    as (staged & Htmps & Hnames & Hall & Hfrs & _ & _).
  cbn [app] in Htmps, Hall. cbn [w_fs with_fs] in Hfrs.
  assert (Hfr0 : forall q, ~ tmp `prefix_of` q -> ~ q `prefix_of` tmp ->
                   lookup_node q (w_fs ws) = lookup_node q (w_fs w)).
  { intros q Hq1 Hq2. rewrite Hfrs by done. by apply (set_node_other _ _ _ _ _ Hset). }
  assert (Hcks : is_dir_node (lookup_node ckpt (w_fs ws)) = true)
    by (by rewrite Hfr0).
  assert (Hexp : forall e, ~ tmp `prefix_of` ckpt ++ [e] /\ ~ ckpt ++ [e] `prefix_of` tmp).
  { intros e. destruct (unrelated_below_r tmp ckpt [] [e] Htc Hct) as [H1 H2].
    by rewrite app_nil_r in H1, H2. }
  destruct depth as [|[|depth]].
  - done.
  - (* the nested call for the first expert has no depth left *)
    exfalso. rewrite (copy_tree_existing _ _ _ _ Hcks) in Hbody.
    rewrite (copy_entries_listed _ _ _ _ _ Htmps), Hnames in Hbody.
    destruct experts as [|[e b] experts]; [done|]. cbn [map fst] in Hbody.
    destruct staged as [|[e' v] staged]; [done|]. injection Hnames as -> Hnames.
    destruct (Hall e v (or_introl eq_refl)) as [Ha (sd & bsd & ->)].
    erewrite for_first_raises in Hbody; [done|].
    unfold mbind, IO_bind. rewrite isdir_ok; [reflexivity|].
    rewrite lookup_node_app, Htmps. cbn [lookup_node]. by rewrite Ha.
  - destruct (copy_experts_loop depth tmp ckpt dt names Htc Hct (map fst experts) ws)
      as (fs2 & Hfor & Hpost & _); [done| |done| |].
    + intros e He. rewrite <- Hnames in He. apply in_map_iff in He as ([e' v] & <- & Hin).
      destruct (Hall e' v Hin) as [Ha (sd & bsd & ->)]. exists sd, bsd.
      rewrite lookup_node_app, Htmps. cbn [lookup_node fst]. by rewrite Ha.
    + intros e He. unfold dir_names. rewrite Hfr0 by apply Hexp. by apply Hdir.
    + rewrite (copy_tree_existing _ _ _ _ Hcks) in Hbody.
      rewrite (copy_entries_listed _ _ _ _ _ Htmps), Hnames in Hbody.
      rewrite Hfor in Hbody. injection Hbody as <-. cbn [w_fs with_fs].
      assert (Hafter : forall e, In e (map fst experts) ->
                dir_names ckpt e fs3 (add_names (stage_names (isoformat "_" dt)) names)
                /\ is_dir_node (lookup_node (ckpt ++ [e]) fs3) = true).
      { intros e He. destruct (Hpost e He) as [Hd Hi]. unfold dir_names.
        rewrite (remove_node_other _ _ _ _ Hrm) by apply Hexp. done. }
      split; [|done].
      destruct experts as [|[e b] experts]; [done|].
      destruct (Hafter e (or_introl eq_refl)) as [_ Hi].
      destruct (lookup_node (ckpt ++ [e]) fs3) as [m|] eqn:Hl; [|done].
      destruct (lookup_prefix_dir ckpt [e] fs3 m Hl) as [ces ->]; done.
Qed.

Lemma store_experts_tmp_fresh (depth : nat) (dt : datetime) (tmp : path)
    (experts : list (string * ModuleBackend)) (ckpt : path) (w w' : World) :
  store_experts depth dt tmp experts ckpt w = (Ok tt, w') ->
  is_dir_node (lookup_node ckpt (w_fs w)) = true ->
  ~ tmp `prefix_of` ckpt.
Proof.
  intros Hrun Hck [r ->]. after_debug_line Hrun (tmp ++ r) w.
  unfold mbind at 1, IO_bind at 1 in Hrun. rewrite (is_directory_ok _ _ Hck) in Hrun.
  unfold with_TemporaryDirectory, mbind at 1, IO_bind at 1, os_mkdir in Hrun.
  destruct (create tmp (Dir []) w) as [[[]|err] w1] eqn:Hmk; [|done].
  apply create_inv in Hmk as (Hfree & _).
  by rewrite lookup_node_app, Hfree in Hck.
Qed.

(** Store cycles, one after the other, each add the names they stage. *)
Lemma store_cycles_names (depth : nat) (experts : list (string * ModuleBackend))
    (ckpt : path) :
  experts <> [] ->
  forall (cycles : list cycle) (w w' : World) (names : list string),
    store_cycles depth cycles experts ckpt w = (Ok tt, w') ->
    Forall (fun c => is_prefix ckpt (c_tmpdirname c) = false) cycles ->
    is_dir_node (lookup_node ckpt (w_fs w)) = true ->
    (forall e, In e (map fst experts) -> dir_names ckpt e (w_fs w) names) ->
    is_dir_node (lookup_node ckpt (w_fs w')) = true
    /\ forall e, In e (map fst experts) ->
         dir_names ckpt e (w_fs w')
           (fold_left (fun ns t => add_names (stage_names t) ns)
              (map c_timestamp cycles) names).
Proof.
  intros Hne. induction cycles as [|c cycles IH]; intros w w' names Hrun Htmp Hck Hdir.
  - injection Hrun as <-. done.
  - unfold store_cycles in Hrun.
    apply for_cons_inv in Hrun as (w1 & Hone & Hrest).
    fold (store_cycles depth cycles experts ckpt) in Hrest.
    unfold mbind, IO_bind in Hone.
    apply Forall_cons in Htmp as [Hc Htmp].
    assert (Hct : ~ ckpt `prefix_of` c_tmpdirname c).
    { rewrite <- is_prefix_spec. by rewrite Hc. }
    pose proof (store_experts_tmp_fresh _ _ _ _ _ _ _ Hone Hck) as Htc.
    destruct (store_experts_cycle _ _ _ _ _ names _ _ Hone Htc Hct Hne Hck Hdir)
      as [Hck1 Hdir1].
    cbn [map fold_left].
    apply (IH w1 w' _ Hrest Htmp Hck1). intros e He. by apply Hdir1.
Qed.

Lemma listing_parts (tss : list string) :
  tss <> [] ->
  listing tss
  ≡ₚ map module_name tss ++ map checkpoint_name tss
     ++ ["module.safetensors"; "checkpoint_last.safetensors"].
Proof.
  destruct tss as [|t rest]; [done|]. intros _. unfold listing, stage_names.
  assert (Hrest : flat_map (fun t' => [module_name t'; checkpoint_name t']) rest
                  ≡ₚ map module_name rest ++ map checkpoint_name rest).
  { induction rest as [|t' rest IH]; [done|]. cbn [flat_map map app].
    rewrite IH. by rewrite <- Permutation_middle. }
  rewrite Hrest. cbn [map app].
  apply perm_skip. rewrite <- Permutation_middle. apply perm_skip.
  rewrite app_assoc.
  apply (Permutation_app_comm ["module.safetensors"; "checkpoint_last.safetensors"]).
Qed.

(** C4. After N >= 1 successful store cycles of a non-empty [experts]
    mapping into the same checkpoint directory, with pairwise distinct
    timestamps, listing the checkpoint subdirectory of any expert yields
    exactly 2N + 2 entries, no name twice: the N timestamped module files,
    the N timestamped backend-state files, [module.safetensors] and
    [checkpoint_last.safetensors].  The checkpoint directory is a directory
    that has no entry for these experts before the first cycle, and no
    staging directory is made inside it. *)
Theorem store_cycles_listing (depth : nat) (cycles : list cycle)
    (experts : list (string * ModuleBackend)) (checkpoint_dir : path)
    (w w' : World) :
  store_cycles depth cycles experts checkpoint_dir w = (Ok tt, w') ->
  cycles <> [] ->
  experts <> [] ->
  List.NoDup (map c_timestamp cycles) ->
  Forall (fun c => is_prefix checkpoint_dir (c_tmpdirname c) = false) cycles ->
  is_dir_node (lookup_node checkpoint_dir (w_fs w)) = true ->
  (forall e, In e (map fst experts) ->
     lookup_node (checkpoint_dir ++ [e]) (w_fs w) = None) ->
  forall e, In e (map fst experts) ->
    let timestamps := map c_timestamp cycles in
    os_listdir (checkpoint_dir ++ [e]) w' = (Ok (listing timestamps), w')
    /\ length (listing timestamps) = (2 * length cycles + 2)%nat
    /\ List.NoDup (listing timestamps)
    /\ listing timestamps
       ≡ₚ map module_name timestamps ++ map checkpoint_name timestamps
          ++ ["module.safetensors"; "checkpoint_last.safetensors"].
Proof.
  intros Hrun Hcycles Hexperts Hnd Htmp Hck Hnone e He timestamps.
  destruct (store_cycles_names depth experts checkpoint_dir Hexperts cycles w w' []
              Hrun Htmp Hck) as [_ Hdir].
  { intros e' He'. unfold dir_names. by rewrite (Hnone e' He'). }
  specialize (Hdir e He). fold (names_after (map c_timestamp cycles)) in Hdir.
  assert (Hts : timestamps = map (isoformat "_") (map c_now cycles))
    by (subst timestamps; by rewrite map_map).
  assert (Hlist : names_after timestamps = listing timestamps).
  { rewrite Hts. apply names_after_listing. by rewrite <- Hts. }
  fold timestamps in Hdir. rewrite Hlist in Hdir.
  assert (Hlen : length (listing timestamps) = (2 * length cycles + 2)%nat).
  { subst timestamps. destruct cycles as [|c cycles]; [done|].
    cbn [map]. rewrite length_listing. cbn [length]. by rewrite length_map. }
  split; [|split; [done|split]].
  - unfold dir_names in Hdir.
    destruct (lookup_node (checkpoint_dir ++ [e]) (w_fs w')) as [[|des|]|] eqn:Hl;
      try done.
    + destruct Hdir as [_ Hnames].
      unfold os_listdir, mbind, IO_bind, get_fs, mret, IO_ret. cbv beta iota.
      rewrite stat_lookup_dir by (by rewrite Hl). by rewrite Hl, Hnames.
    + rewrite Hdir in Hlen. cbn [length] in Hlen. lia.
  - rewrite <- Hlist. apply NoDup_names_after.
  - apply listing_parts. subst timestamps. by destruct cycles.
Qed.

(** Two cycles for one expert leave six entries. *)
Lemma store_cycles_listing_witness :
  let w' := (store_cycles 3 example_cycles example_experts ["ckpt"] example_world).2 in
  let timestamps := map c_timestamp example_cycles in
  store_cycles 3 example_cycles example_experts ["ckpt"] example_world = (Ok tt, w')
  /\ os_listdir (["ckpt"] ++ ["expert.0"]) w' = (Ok (listing timestamps), w')
  /\ length (listing timestamps) = (2 * length example_cycles + 2)%nat
  /\ List.NoDup (listing timestamps)
  /\ listing timestamps
     ≡ₚ map module_name timestamps ++ map checkpoint_name timestamps
        ++ ["module.safetensors"; "checkpoint_last.safetensors"].
Proof.
  intros w' timestamps.
  assert (Hrun : store_cycles 3 example_cycles example_experts ["ckpt"] example_world
                 = (Ok tt, w')) by (vm_compute; reflexivity).
  split; [exact Hrun|].
  apply (store_cycles_listing 3 example_cycles example_experts ["ckpt"]
           example_world w' Hrun).
  - discriminate.
  - discriminate.
  - vm_compute. constructor; [intros [H|[]]; discriminate H|].
    constructor; [intros []|]. constructor.
  - repeat constructor.
  - reflexivity.
  - intros e [<-|[]]. reflexivity.
  - left. reflexivity.
Defined.

Example store_cycles_six :
  (os_listdir ["ckpt"; "expert.0"]
     (store_cycles 3 example_cycles example_experts ["ckpt"] example_world).2).1
  = Ok [ "module_2024-01-02_03:04:05.000006.safetensors";
         "checkpoint_2024-01-02_03:04:05.000006.safetensors";
         "module.safetensors"; "checkpoint_last.safetensors";
         "module_2024-01-02_03:04:06.000007.safetensors";
         "checkpoint_2024-01-02_03:04:06.000007.safetensors" ].
Proof. vm_compute. reflexivity. Qed.

(** ** [is_directory], [is_file] *)

Lemma is_directory_cases (directory : option path) (w : World) :
  is_directory directory w
  = (if names_directory directory (w_fs w) then Ok true else Raise AssertionError, w).
Proof.
  destruct directory as [d|]; [|reflexivity].
  unfold is_directory, names_directory, os_path_exists, os_path_isdir, assert.
  unfold mbind, IO_bind, get_fs, mret, IO_ret, raise. cbv beta iota.
  destruct (stat (w_fs w) d) as [[c|es|t]|] eqn:Hst.
  - rewrite bool_decide_eq_true_2 by eauto. cbv beta iota. by rewrite Hst.
  - rewrite bool_decide_eq_true_2 by eauto. cbv beta iota. by rewrite Hst.
  - rewrite bool_decide_eq_true_2 by eauto. cbv beta iota. by rewrite Hst.
  - rewrite bool_decide_eq_false_2 by (by intros [? ?]). reflexivity.
Qed.

(** X1. [is_directory] answers [True] when its argument names a directory
    and raises AssertionError in every other case ([None], nothing there, a
    file); it never answers [False] and changes nothing. *)
Theorem is_directory_true_or_asserts (directory : option path) (w : World) :
  is_directory directory w
  = (if names_directory directory (w_fs w) then Ok true else Raise AssertionError, w).
Proof. apply is_directory_cases. Qed.

(** X2. [is_file] answers [True] when its argument names a regular file and
    raises AssertionError in every other case; it never answers [False] and
    changes nothing. *)
Theorem is_file_true_or_asserts (directory : option path) (w : World) :
  is_file directory w
  = (if names_file directory (w_fs w) then Ok true else Raise AssertionError, w).
Proof.
  destruct directory as [d|]; [|reflexivity].
  unfold is_file, names_file, os_path_exists, os_path_isfile, assert.
  unfold mbind, IO_bind, get_fs, mret, IO_ret, raise. cbv beta iota.
  destruct (stat (w_fs w) d) as [[c|es|t]|] eqn:Hst.
  - rewrite bool_decide_eq_true_2 by eauto. cbv beta iota. by rewrite Hst.
  - rewrite bool_decide_eq_true_2 by eauto. cbv beta iota. by rewrite Hst.
  - rewrite bool_decide_eq_true_2 by eauto. cbv beta iota. by rewrite Hst.
  - rewrite bool_decide_eq_false_2 by (by intros [? ?]). reflexivity.
Qed.

(** ** [store_experts]: what it asks of the checkpoint directory *)

(** X3. When [checkpoint_dir] does not name a directory, [store_experts]
    raises AssertionError right after its first line: the debug record
    "Storing experts at ..." is handed to the logger and nothing else is
    done; no staging directory is made, no state dictionary is taken, the
    files and the modules are as they were. *)
Theorem store_experts_not_a_directory (depth : nat) (now : datetime)
    (tmpdirname : path) (experts : list (string * ModuleBackend))
    (checkpoint_dir : path) (w : World) :
  is_dir_node (stat (w_fs w) checkpoint_dir) = false ->
  store_experts depth now tmpdirname experts checkpoint_dir w
  = (Raise AssertionError,
     mkWorld (w_fs w) (w_modules w)
       (w_log w ++ [(DEBUG, "Storing experts at " +:+ path_str checkpoint_dir)])).
Proof.
  intros Hd. rewrite store_experts_unfold. unfold mbind at 1, IO_bind at 1.
  rewrite is_directory_cases. unfold names_directory, storing. cbn [w_fs].
  by rewrite Hd.
Qed.

Lemma store_experts_not_a_directory_witness :
  store_experts 3 (mkDatetime 2024 1 2 3 4 5 6) ["tmp"; "tmpa"] example_experts
    ["ckpt"; "run1"] example_world
  = (Raise AssertionError,
     mkWorld (w_fs example_world) (w_modules example_world)
       [(DEBUG, "Storing experts at /ckpt/run1")]).
Proof.
  apply (store_experts_not_a_directory 3 (mkDatetime 2024 1 2 3 4 5 6) ["tmp"; "tmpa"]
           example_experts ["ckpt"; "run1"] example_world).
  reflexivity.
Defined.

(** ** [store_experts]: what is stored *)

Lemma staging_loop_state (tmp : path) (dt : datetime)
    (experts : list (string * ModuleBackend)) :
  let ts := isoformat "_" dt in
  forall (w w' : World) (es : list (string * node)),
    for_ experts (stage_expert tmp ts) w = (Ok tt, w') ->
    lookup_node tmp (w_fs w) = Some (Dir es) ->
    forall e b, In (e, b) experts ->
      exists m,
        w_modules w !! mb_module b = Some m
        /\ lookup_node (tmp ++ [e]) (w_fs w')
           = Some (Dir (staged_dir (tmp ++ [e]) ts (state_dict m) (mb_backend_state b))).
Proof.
  intros ts. induction experts as [|[e0 b0] experts IH]; intros w w' es Hrun Htmp e b Hin;
    [done|].
  apply for_cons_inv in Hrun as (w1 & Hone & Hrest).
  destruct (stage_expert_state tmp dt e0 b0 w w1 es Hone Htmp)
    as (m & Hm & He & Ht1 & _ & Hm1 & _).
  destruct Hin as [[= -> ->]|Hin].
  - exists m. split; [done|].
    destruct (staging_loop_inv tmp dt experts _ _ _ Hrest Ht1) as (staged & Ht & _).
    rewrite lookup_node_app, Ht. cbn [lookup_node].
    rewrite !assoc_app, He. cbn [assoc]. by rewrite String.eqb_refl.
  - destruct (IH w1 w' _ Hrest Ht1 e b Hin) as (m' & Hm' & Hl).
    exists m'. by rewrite <- Hm1.
Qed.

Lemma assoc_copied_in_other (n : string) (items : list (string * content))
    (des : list (string * node)) :
  ~ In n (map fst items) -> assoc n (copied_in items des) = assoc n des.
Proof.
  revert des. induction items as [|[k c] items IH]; intros des Hn; [done|].
  unfold copied_in. cbn [fold_left]. fold (copied_in items (set_entry k (File c) des)).
  rewrite IH by (intros H; apply Hn; by right).
  apply assoc_set_entry_ne. intros ->. apply Hn. by left.
Qed.

Lemma assoc_copied_in (n : string) (c : content) (items : list (string * content))
    (des : list (string * node)) :
  List.NoDup (map fst items) -> In (n, c) items ->
  assoc n (copied_in items des) = Some (File c).
Proof.
  revert des. induction items as [|[k c0] items IH]; intros des Hnd Hin; [done|].
  cbn [map fst] in Hnd. apply NoDup_cons_iff in Hnd as [Hk Hnd].
  unfold copied_in. cbn [fold_left]. fold (copied_in items (set_entry k (File c0) des)).
  destruct Hin as [[= -> ->]|Hin].
  - rewrite assoc_copied_in_other by done. apply assoc_set_entry_eq.
  - by apply IH.
Qed.

Lemma NoDup_staged_items (dt : datetime) (sd bsd : list (string * Tensor)) :
  List.NoDup (map fst (staged_items sd bsd (isoformat "_" dt))).
Proof.
  set (ts := isoformat "_" dt).
  pose proof (module_not_checkpoint ts ts) as H1.
  destruct (module_not_stable ts) as [H2 H3].
  destruct (checkpoint_not_stable dt) as [H4 H5]. fold ts in H4, H5.
  unfold staged_items. cbn [map fst].
  constructor; [intros [H|[H|[H|[]]]]; by auto|].
  constructor; [intros [H|[H|[]]]; by auto|].
  constructor; [intros [H|[]]; discriminate H|].
  constructor; [intros []|constructor].
Qed.

Lemma copy_experts_loop_entries (depth : nat) (tmp ckpt : path) (dt : datetime) :
  ~ tmp `prefix_of` ckpt -> ~ ckpt `prefix_of` tmp ->
  let ts := isoformat "_" dt in
  forall (todo : list string) (w : World),
    List.NoDup todo ->
    (forall e, In e todo ->
       exists sd bsd, lookup_node (tmp ++ [e]) (w_fs w)
                      = Some (Dir (staged_dir (tmp ++ [e]) ts sd bsd))) ->
    is_dir_node (lookup_node ckpt (w_fs w)) = true ->
    (forall e, In e todo -> flat_or_absent (ckpt ++ [e]) (w_fs w)) ->
    exists fs',
      for_ todo (fun item =>
        d ← os_path_isdir (tmp ++ [item]);
        if d : bool then copy_tree (S depth) (tmp ++ [item]) (ckpt ++ [item])
        else copy2 (tmp ++ [item]) (ckpt ++ [item])) w = (Ok tt, with_fs w fs')
      /\ (forall e sd bsd, In e todo ->
            lookup_node (tmp ++ [e]) (w_fs w)
            = Some (Dir (staged_dir (tmp ++ [e]) ts sd bsd)) ->
            lookup_node (ckpt ++ [e]) fs'
            = Some (Dir (copied_in (staged_items sd bsd ts)
                           (entries_at (ckpt ++ [e]) (w_fs w)))))
      /\ (forall q, (forall e, In e todo ->
                       ~ ckpt ++ [e] `prefix_of` q /\ ~ q `prefix_of` ckpt ++ [e]) ->
            lookup_node q fs' = lookup_node q (w_fs w)).
Proof.
  intros Htc Hct ts.
  induction todo as [|e todo IH]; intros w Hnd Hst Hck Hdir.
  - exists (w_fs w). split; [by destruct w|]. split; [by intros ? ? ? []|done].
  - apply NoDup_cons_iff in Hnd as [Hnin Hnd].
    destruct (Hst e (or_introl eq_refl)) as (sd & bsd & Hse).
    destruct (unrelated_below_r tmp ckpt [e] [e] Htc Hct) as [Hu1 Hu2].
    pose proof (Hdir e (or_introl eq_refl)) as Hde. unfold flat_or_absent in Hde.
    set (des := entries_at (ckpt ++ [e]) (w_fs w)).
    assert (Hdst :
              (lookup_node (ckpt ++ [e]) (w_fs w) = Some (Dir des) /\ all_files des)
              \/ (lookup_node (ckpt ++ [e]) (w_fs w) = None /\ des = []
                  /\ ckpt ++ [e] <> []
                  /\ is_dir_node (lookup_node (parent (ckpt ++ [e])) (w_fs w)) = true)).
    { subst des. unfold entries_at.
      destruct (lookup_node (ckpt ++ [e]) (w_fs w)) as [[|des|]|]; try done.
      - by left.
      - right. rewrite parent_snoc. split; [done|]. split; [done|].
        split; [by destruct ckpt|done]. }
    destruct (copy_tree_flat depth (tmp ++ [e]) (ckpt ++ [e]) w
                (staged_dir (tmp ++ [e]) ts sd bsd) (staged_items sd bsd ts) des
                Hu1 Hu2 Hse eq_refl (staged_reads _ dt _ _ _ Hse) Hdst)
      as (fs1 & Hcp & Hl1 & Hfr1).
    assert (Hisd : os_path_isdir (tmp ++ [e]) w = (Ok true, w))
      by (apply isdir_ok; by rewrite Hse).
    assert (Hstay : forall e', In e' todo ->
              lookup_node (tmp ++ [e']) fs1 = lookup_node (tmp ++ [e']) (w_fs w)
              /\ lookup_node (ckpt ++ [e']) fs1 = lookup_node (ckpt ++ [e']) (w_fs w)).
    { intros e' He'. split.
      - destruct (unrelated_below_r ckpt tmp [e] [e']); [done..|]. by apply Hfr1.
      - assert (e <> e') by (by intros ->).
        destruct (unrelated_siblings ckpt e e' []) as [? ?]; [done|]. by apply Hfr1. }
    destruct (IH (with_fs w fs1)) as (fs' & Hfor & Hpost & Hfr); [done|..].
    + intros e' He'. destruct (Hst e' (or_intror He')) as (sd' & bsd' & Hs').
      exists sd', bsd'. cbn [w_fs with_fs]. by rewrite (proj1 (Hstay e' He')).
    + cbn [w_fs with_fs].
      destruct (lookup_prefix_dir ckpt [e] fs1 _ Hl1) as [ces ->]; done.
    + intros e' He'. unfold flat_or_absent. cbn [w_fs with_fs].
      rewrite (proj2 (Hstay e' He')). by apply Hdir; right.
    + exists fs'. split; [|split].
      * cbn [for_]. unfold mbind at 1, IO_bind at 1.
        unfold mbind at 1, IO_bind at 1. rewrite Hisd, Hcp. exact Hfor.
      * intros e' sd' bsd' [<-|He'] Hs'.
        -- rewrite Hse in Hs'. unfold staged_dir in Hs'.
           assert (sd' = sd /\ bsd' = bsd) as [-> ->] by (by simplify_eq).
           rewrite Hfr; [done|]. intros e' He'. assert (e' <> e) by (by intros ->).
           by apply (unrelated_siblings ckpt e' e []).
        -- rewrite (Hpost e' sd' bsd' He').
           ++ unfold entries_at. cbn [w_fs with_fs]. by rewrite (proj2 (Hstay e' He')).
           ++ cbn [w_fs with_fs]. by rewrite (proj1 (Hstay e' He')).
      * intros q Hq. rewrite Hfr by (intros e' He'; apply Hq; by right).
        cbn [w_fs with_fs]. destruct (Hq e (or_introl eq_refl)). by apply Hfr1.
Qed.

Lemma absent_not_prefix (p q : path) (fs : node) :
  lookup_node p fs = None -> lookup_node q fs <> None -> ~ p `prefix_of` q.
Proof. intros Hp Hq [k ->]. by rewrite lookup_node_app, Hp in Hq. Qed.

(** What one successful [store_experts] has done: for each expert the
    staged files are copied into its directory over the entries that were
    there, the staging directory apart nothing else is touched, the modules
    are as before and the log has the debug record more. *)
Lemma store_experts_effect (depth : nat) (dt : datetime) (tmp : path)
    (experts : list (string * ModuleBackend)) (ckpt : path) (w w' : World) :
  store_experts depth dt tmp experts ckpt w = (Ok tt, w') ->
  ~ ckpt `prefix_of` tmp ->
  is_dir_node (lookup_node ckpt (w_fs w)) = true ->
  (forall e, In e (map fst experts) -> flat_or_absent (ckpt ++ [e]) (w_fs w)) ->
  let ts := isoformat "_" dt in
  lookup_node tmp (w_fs w) = None
  /\ is_dir_node (lookup_node (parent tmp) (w_fs w)) = true
  /\ w_modules w' = w_modules w /\ w_log w' = w_log (storing ckpt w)
  /\ (forall e b, In (e, b) experts ->
        exists m,
          w_modules w !! mb_module b = Some m
          /\ lookup_node (ckpt ++ [e]) (w_fs w')
             = Some (Dir (copied_in
                            (staged_items (state_dict m) (mb_backend_state b) ts)
                            (entries_at (ckpt ++ [e]) (w_fs w)))))
  /\ (forall q, ~ tmp `prefix_of` q -> ~ q `prefix_of` tmp ->
        (forall e, In e (map fst experts) ->
           ~ ckpt ++ [e] `prefix_of` q /\ ~ q `prefix_of` ckpt ++ [e]) ->
        lookup_node q (w_fs w') = lookup_node q (w_fs w)).
Proof.
  intros Hrun Hct Hck Hdir ts. after_debug_line Hrun ckpt w.
  unfold mbind at 1, IO_bind at 1 in Hrun. rewrite (is_directory_ok _ _ Hck) in Hrun.
  unfold with_TemporaryDirectory, mbind at 1, IO_bind at 1, os_mkdir in Hrun.
  destruct (create tmp (Dir []) w) as [[[]|err] w1] eqn:Hmk; [|done].
  apply create_inv in Hmk as (Hfree & pes & fs1 & Hpar & Hset & ->).
  assert (Htc : ~ tmp `prefix_of` ckpt).
  { apply (absent_not_prefix _ _ (w_fs w)); [done|].
    by destruct (lookup_node ckpt (w_fs w)). }
  unfold finally in Hrun.
  match type of Hrun with
  | match ?b with _ => _ end = _ => destruct b as [r w2] eqn:Hbody
  end.
  destruct (rmtree tmp w2) as [[[]|err] w3] eqn:Hrm; [|done].
  injection Hrun as -> ->.
  apply rmtree_inv in Hrm as (fs3 & Hrm & ->).
  unfold mbind, IO_bind in Hbody.
  destruct (for_ experts (stage_expert tmp (isoformat "_" dt)) (with_fs w fs1))
    as [[[]|err] ws] eqn:Hstage; [|done].
  pose proof (set_node_at _ _ _ _ Hset) as Htmp1.
  destruct (staging_loop_fresh tmp dt experts _ _ [] Hstage Htmp1) as [Hnd _].
  destruct (staging_loop_inv tmp dt experts _ _ [] Hstage Htmp1)
    as (staged & Htmps & Hnames & Hall & Hfrs & Hms & Hls).
  pose proof (staging_loop_state tmp dt experts _ _ [] Hstage Htmp1) as Hstate.
  cbn [app] in Htmps, Hall. cbn [w_fs w_modules w_log with_fs] in Hfrs, Hms, Hls, Hstate.
  assert (Hfr0 : forall q, ~ tmp `prefix_of` q -> ~ q `prefix_of` tmp ->
                   lookup_node q (w_fs ws) = lookup_node q (w_fs w)).
  { intros q Hq1 Hq2. rewrite Hfrs by done. by apply (set_node_other _ _ _ _ _ Hset). }
  assert (Hcks : is_dir_node (lookup_node ckpt (w_fs ws)) = true)
    by (by rewrite Hfr0).
  assert (Hexp : forall e, ~ tmp `prefix_of` ckpt ++ [e] /\ ~ ckpt ++ [e] `prefix_of` tmp).
  { intros e. destruct (unrelated_below_r tmp ckpt [] [e] Htc Hct) as [H1 H2].
    by rewrite app_nil_r in H1, H2. }
  assert (Hloop : exists fs2,
            w2 = with_fs ws fs2
            /\ (forall e sd bsd, In e (map fst experts) ->
                  lookup_node (tmp ++ [e]) (w_fs ws)
                  = Some (Dir (staged_dir (tmp ++ [e]) ts sd bsd)) ->
                  lookup_node (ckpt ++ [e]) fs2
                  = Some (Dir (copied_in (staged_items sd bsd ts)
                                 (entries_at (ckpt ++ [e]) (w_fs ws)))))
            /\ (forall q, (forall e, In e (map fst experts) ->
                             ~ ckpt ++ [e] `prefix_of` q /\ ~ q `prefix_of` ckpt ++ [e]) ->
                  lookup_node q fs2 = lookup_node q (w_fs ws))).
  { destruct depth as [|[|depth]]; [done| |].
    - (* a nested call has no depth left: there is no expert *)
      rewrite (copy_tree_existing _ _ _ _ Hcks) in Hbody.
      rewrite (copy_entries_listed _ _ _ _ _ Htmps), Hnames in Hbody.
      destruct experts as [|[e b] experts].
      + injection Hbody as <-. exists (w_fs ws).
        split; [by destruct ws|]. split; [by intros ? ? ? []|done].
      + exfalso. cbn [map fst] in Hbody.
        destruct staged as [|[e' v] staged]; [done|]. injection Hnames as -> Hnames.
        destruct (Hall e v (or_introl eq_refl)) as [Ha (sd & bsd & ->)].
        erewrite for_first_raises in Hbody; [done|].
        unfold mbind, IO_bind. rewrite isdir_ok; [reflexivity|].
        rewrite lookup_node_app, Htmps. cbn [lookup_node]. by rewrite Ha.
    - destruct (copy_experts_loop_entries depth tmp ckpt dt Htc Hct (map fst experts) ws)
        as (fs2 & Hfor & Hpost & Hfr2); [done| |done| |].
      + intros e He. rewrite <- Hnames in He.
        apply in_map_iff in He as ([e' v] & <- & Hin).
        destruct (Hall e' v Hin) as [Ha (sd & bsd & ->)]. exists sd, bsd.
        rewrite lookup_node_app, Htmps. cbn [lookup_node fst]. by rewrite Ha.
      + intros e He. unfold flat_or_absent. rewrite Hfr0 by apply Hexp. by apply Hdir.
      + rewrite (copy_tree_existing _ _ _ _ Hcks) in Hbody.
        rewrite (copy_entries_listed _ _ _ _ _ Htmps), Hnames in Hbody.
        rewrite Hfor in Hbody. injection Hbody as <-. by exists fs2. }
  destruct Hloop as (fs2 & -> & Hpost & Hfr2). cbn [w_fs w_modules w_log with_fs] in *.
  split; [done|]. split; [by rewrite Hpar|]. split; [done|]. split; [done|]. split.
  - intros e b Hin. destruct (Hstate e b Hin) as (m & Hm & Hl). exists m. split; [done|].
    assert (He : In e (map fst experts)) by (apply in_map_iff; by exists (e, b)).
    rewrite (remove_node_other _ _ _ _ Hrm) by apply Hexp.
    rewrite (Hpost e _ _ He Hl). unfold entries_at. by rewrite Hfr0 by apply Hexp.
  - intros q Hq1 Hq2 Hq. rewrite (remove_node_other _ _ _ _ Hrm) by done.
    rewrite Hfr2 by done. by apply Hfr0.
Qed.

Lemma leaf_not_prefix (q p : path) (fs : node) (n : node) :
  lookup_node q fs = Some n -> is_dir_node (Some n) = false ->
  lookup_node p fs <> None -> q `prefix_of` p -> p = q.
Proof.
  intros Hq Hn Hp [k ->]. destruct k as [|c k]; [by rewrite app_nil_r|].
  destruct Hp. rewrite lookup_node_app, Hq. apply lookup_node_leaf; [done|].
  intros es ->. done.
Qed.

Lemma load_expert_reads {cast : Casting} (dir : path) (name : string)
    (sd : list (string * Tensor)) (des : list (string * node))
    (expert : nat) (Module_ : value) (w : World) :
  lookup_node (dir ++ [name]) (w_fs w) = Some (Dir des) ->
  assoc "module.safetensors" des = Some (File (Safetensors sd)) ->
  load_expert [VModule expert; Module_; VStr name; VPath dir] w
  = load_state_dict expert sd w.
Proof.
  intros Hdir Hfile.
  assert (Hl : lookup_node ((dir ++ [name]) ++ ["module.safetensors"]) (w_fs w)
               = Some (File (Safetensors sd))).
  { rewrite lookup_node_app, Hdir. cbn [lookup_node]. by rewrite Hfile. }
  assert (Hst : stat (w_fs w) ((dir ++ [name]) ++ ["module.safetensors"])
                = Some (File (Safetensors sd))).
  { unfold stat. rewrite resolve_not_link by (by rewrite Hl). done. }
  unfold load_expert, load_expert_body, os_path_exists, load_file, read_file.
  unfold mbind, IO_bind, get_fs, mret, IO_ret. cbv beta iota.
  rewrite Hst. rewrite bool_decide_eq_true_2 by eauto. cbv beta iota.
  rewrite Hst. apply load_state_dict_sorted.
Qed.

Lemma for_snoc_inv {A} (xs : list A) (x : A) (body : A -> IO unit) (w w' : World) :
  for_ (xs ++ [x]) body w = (Ok tt, w') ->
  exists w1, for_ xs body w = (Ok tt, w1) /\ body x w1 = (Ok tt, w').
Proof.
  revert w. induction xs as [|y xs IH]; intros w Hrun.
  - exists w. split; [done|]. cbn [app] in Hrun.
    apply for_cons_inv in Hrun as (w1 & Hone & Hrest). by injection Hrest as <-.
  - cbn [app] in Hrun. apply for_cons_inv in Hrun as (w1 & Hone & Hrest).
    destruct (IH w1 Hrest) as (w2 & Hxs & Hx). exists w2. split; [|done].
    cbn [for_]. unfold mbind, IO_bind. by rewrite Hone.
Qed.

Lemma flat_entries (p : path) (fs : node) :
  flat_or_absent p fs -> all_files (entries_at p fs).
Proof.
  unfold flat_or_absent, entries_at.
  destruct (lookup_node p fs) as [[|es|]|]; try done; intros _; constructor.
Qed.

(** Store cycles keep the checkpoint directory a directory, and the
    directory of each expert one of regular files. *)
Lemma store_cycles_flat (depth : nat) (experts : list (string * ModuleBackend))
    (ckpt : path) :
  forall (cycles : list cycle) (w w' : World),
    store_cycles depth cycles experts ckpt w = (Ok tt, w') ->
    Forall (fun c => is_prefix ckpt (c_tmpdirname c) = false) cycles ->
    is_dir_node (lookup_node ckpt (w_fs w)) = true ->
    (forall e, In e (map fst experts) -> flat_or_absent (ckpt ++ [e]) (w_fs w)) ->
    is_dir_node (lookup_node ckpt (w_fs w')) = true
    /\ forall e, In e (map fst experts) -> flat_or_absent (ckpt ++ [e]) (w_fs w').
Proof.
  induction cycles as [|c cycles IH]; intros w w' Hrun Htmp Hck Hdir.
  - injection Hrun as <-. done.
  - unfold store_cycles in Hrun.
    apply for_cons_inv in Hrun as (w1 & Hone & Hrest).
    fold (store_cycles depth cycles experts ckpt) in Hrest.
    unfold mbind, IO_bind in Hone.
    apply Forall_cons in Htmp as [Hc Htmp].
    assert (Hct : ~ ckpt `prefix_of` c_tmpdirname c).
    { rewrite <- is_prefix_spec. by rewrite Hc. }
    destruct (store_experts_effect _ _ _ _ _ _ _ Hone Hct Hck Hdir)
      as (Hfree & _ & _ & _ & Hpost & Hfr).
    cbn [w_fs] in Hfree, Hpost, Hfr.
    assert (Hflat : forall e, In e (map fst experts) ->
              exists des, lookup_node (ckpt ++ [e]) (w_fs w1) = Some (Dir des)
                          /\ all_files des).
    { intros e He. apply in_map_iff in He as ([e' b] & <- & Hin).
      destruct (Hpost e' b Hin) as (m & _ & Hl). eexists. split; [exact Hl|].
      apply all_files_copied_in, flat_entries, Hdir.
      apply in_map_iff. by exists (e', b). }
    apply (IH w1 w' Hrest Htmp).
    + destruct experts as [|[e b] experts].
      * rewrite Hfr; [done| |done|by intros ? []].
        apply (absent_not_prefix _ _ (w_fs w)); [done|].
        by destruct (lookup_node ckpt (w_fs w)).
      * destruct (Hflat e (or_introl eq_refl)) as (des & Hl & _).
        destruct (lookup_prefix_dir ckpt [e] _ _ Hl) as [ces ->]; done.
    + intros e He. destruct (Hflat e He) as (des & Hl & Hf).
      unfold flat_or_absent. by rewrite Hl.
Qed.

(** After store cycles that all return, the directory of each expert holds
    what the last cycle staged, copied over what was there, and the modules
    are those of the last cycle. *)
Lemma store_cycles_last_effect (depth : nat) (cycles : list cycle) (last : cycle)
    (experts : list (string * ModuleBackend)) (ckpt : path) (w w' : World) :
  store_cycles depth (cycles ++ [last]) experts ckpt w = (Ok tt, w') ->
  Forall (fun c => is_prefix ckpt (c_tmpdirname c) = false) (cycles ++ [last]) ->
  is_dir_node (lookup_node ckpt (w_fs w)) = true ->
  (forall e, In e (map fst experts) -> flat_or_absent (ckpt ++ [e]) (w_fs w)) ->
  w_modules w' = c_modules last
  /\ forall e b, In (e, b) experts ->
       exists m des,
         c_modules last !! mb_module b = Some m
         /\ lookup_node (ckpt ++ [e]) (w_fs w')
            = Some (Dir (copied_in
                           (staged_items (state_dict m) (mb_backend_state b)
                              (c_timestamp last)) des)).
Proof.
  intros Hrun Htmp Hck Hdir. unfold store_cycles in Hrun.
  apply for_snoc_inv in Hrun as (w1 & Hinit & Hlast).
  fold (store_cycles depth cycles experts ckpt) in Hinit.
  apply Forall_app in Htmp as [Htmp Hl]. apply Forall_cons in Hl as [Hl _].
  destruct (store_cycles_flat _ _ _ _ _ _ Hinit Htmp Hck Hdir) as [Hck1 Hdir1].
  unfold mbind, IO_bind in Hlast.
  assert (Hct : ~ ckpt `prefix_of` c_tmpdirname last).
  { rewrite <- is_prefix_spec. by rewrite Hl. }
  destruct (store_experts_effect _ _ _ _ _ _ _ Hlast Hct Hck1 Hdir1)
    as (_ & _ & Hm & _ & Hpost & _).
  split; [done|]. intros e b Hin.
  destruct (Hpost e b Hin) as (m & Hmod & Hlook). by eexists _, _.
Qed.

Lemma staged_module_file (dt : datetime) (sd bsd : list (string * Tensor))
    (des : list (string * node)) :
  assoc "module.safetensors" (copied_in (staged_items sd bsd (isoformat "_" dt)) des)
  = Some (File (Safetensors sd)).
Proof.
  apply assoc_copied_in; [apply NoDup_staged_items|].
  unfold staged_items. cbn [In]. tauto.
Qed.

(** X5. After store cycles that all return, [module.safetensors] in an
    expert's directory of the checkpoint directory holds the state
    dictionary that the expert's module had at the last cycle:
    [load_expert], called with its four parameters, hands exactly that
    dictionary to [load_state_dict].  The checkpoint directory is a
    directory, the directories of the experts are not there at first or hold
    regular files, and no staging directory is made inside the checkpoint
    directory. *)
Theorem store_cycles_latest {cast : Casting} (depth : nat) (cycles : list cycle)
    (last : cycle) (experts : list (string * ModuleBackend)) (checkpoint_dir : path)
    (w w' : World) :
  store_cycles depth (cycles ++ [last]) experts checkpoint_dir w = (Ok tt, w') ->
  Forall (fun c => is_prefix checkpoint_dir (c_tmpdirname c) = false)
    (cycles ++ [last]) ->
  is_dir_node (lookup_node checkpoint_dir (w_fs w)) = true ->
  (forall e, In e (map fst experts) ->
     flat_or_absent (checkpoint_dir ++ [e]) (w_fs w)) ->
  forall expert_name expert_backend, In (expert_name, expert_backend) experts ->
    exists m,
      c_modules last !! mb_module expert_backend = Some m
      /\ forall (expert : nat) (Module_ : value),
           load_expert [VModule expert; Module_; VStr expert_name; VPath checkpoint_dir] w'
           = load_state_dict expert (state_dict m) w'.
Proof.
  intros Hrun Htmp Hck Hdir e b Hin.
  destruct (store_cycles_last_effect _ _ _ _ _ _ _ Hrun Htmp Hck Hdir) as [_ Hpost].
  destruct (Hpost e b Hin) as (m & des & Hm & Hlook).
  exists m. split; [done|]. intros expert Module_.
  apply (load_expert_reads _ _ _ _ _ _ _ Hlook). apply staged_module_file.
Qed.

Lemma store_cycles_latest_witness :
  let first := mkCycle (mkDatetime 2024 1 2 3 4 5 6) ["tmp"; "tmpa"]
                 {[ 0%nat := example_module ]} in
  let last := mkCycle (mkDatetime 2024 1 2 3 4 6 7) ["tmp"; "tmpb"]
                {[ 0%nat := example_module ]} in
  let backend := mkModuleBackend 0 [("step", mkTensor int64 [] [0])] in
  let w' := (store_cycles 3 ([first] ++ [last]) example_experts ["ckpt"]
               example_world).2 in
  store_cycles 3 ([first] ++ [last]) example_experts ["ckpt"] example_world
  = (Ok tt, w')
  /\ exists m,
       c_modules last !! mb_module backend = Some m
       /\ forall (expert : nat) (Module_ : value),
            load_expert (cast := id_casting)
              [VModule expert; Module_; VStr "expert.0"; VPath ["ckpt"]] w'
            = load_state_dict (cast := id_casting) expert (state_dict m) w'.
Proof.
  intros first last backend w'.
  assert (Hrun : store_cycles 3 ([first] ++ [last]) example_experts ["ckpt"]
                   example_world = (Ok tt, w')) by (vm_compute; reflexivity).
  split; [exact Hrun|].
  apply (store_cycles_latest (cast := id_casting) 3 [first] last example_experts
           ["ckpt"] example_world w' Hrun).
  - repeat constructor.
  - reflexivity.
  - intros e [<-|[]]. exact I.
  - left. reflexivity.
Defined.

(** X6. A [store_experts] that returns has changed no file (and no link)
    that was there, other than the four entries it stores for each expert:
    the timestamped snapshots of earlier cycles and every file elsewhere
    read as before; the loaded modules are as they were, and the log has
    one record more, the debug record of the first line.  (The checkpoint
    directory is a directory, the directories of the experts are not there
    at first or hold regular files, and the staging directory is not made
    inside the checkpoint directory.) *)
Theorem store_experts_keeps_files (depth : nat) (now : datetime) (tmpdirname : path)
    (experts : list (string * ModuleBackend)) (checkpoint_dir : path) (w w' : World) :
  store_experts depth now tmpdirname experts checkpoint_dir w = (Ok tt, w') ->
  is_prefix checkpoint_dir tmpdirname = false ->
  is_dir_node (lookup_node checkpoint_dir (w_fs w)) = true ->
  (forall e, In e (map fst experts) ->
     flat_or_absent (checkpoint_dir ++ [e]) (w_fs w)) ->
  w_modules w' = w_modules w
  /\ w_log w'
     = w_log w ++ [(DEBUG, "Storing experts at " +:+ path_str checkpoint_dir)]
  /\ forall (q : path) (n : node),
       lookup_node q (w_fs w) = Some n ->
       is_dir_node (Some n) = false ->
       (forall e name, In e (map fst experts) ->
          In name (stage_names (isoformat "_" now)) ->
          q <> checkpoint_dir ++ [e; name]) ->
       lookup_node q (w_fs w') = Some n.
Proof.
  intros Hrun Hpre Hck Hdir.
  assert (Hct : ~ checkpoint_dir `prefix_of` tmpdirname).
  { rewrite <- is_prefix_spec. by rewrite Hpre. }
  destruct (store_experts_effect _ _ _ _ _ _ _ Hrun Hct Hck Hdir)
    as (Hfree & Hpar & Hm & Hl & Hpost & Hfr).
  split; [done|]. split; [exact Hl|]. intros q n Hq Hn Hother.
  destruct (existsb (fun e => is_prefix (checkpoint_dir ++ [e]) q) (map fst experts))
    eqn:Hbelow.
  - (* an entry of the directory of an expert *)
    apply existsb_exists in Hbelow as (e & He & [k ->]%is_prefix_spec).
    pose proof (Hdir e He) as Hflat. unfold flat_or_absent in Hflat.
    rewrite lookup_node_app in Hq.
    destruct (lookup_node (checkpoint_dir ++ [e]) (w_fs w)) as [[|des|]|] eqn:Hde;
      try done.
    destruct k as [|name k]; [by injection Hq as <-|].
    cbn [lookup_node] in Hq.
    destruct (assoc name des) as [child|] eqn:Hname; [|done].
    destruct (all_files_assoc name des Hflat) as [Hnone|[c Hc]]; [congruence|].
    rewrite Hname in Hc. injection Hc as ->.
    destruct k as [|? ?]; [|done]. injection Hq as <-.
    apply in_map_iff in He as He'. destruct He' as ([e' b] & <- & Hin).
    destruct (Hpost e' b Hin) as (m & _ & Hlook). cbn [fst] in *.
    rewrite lookup_node_app, Hlook. cbn [lookup_node].
    rewrite assoc_copied_in_other.
    + unfold entries_at. by rewrite Hde, Hname.
    + intros Hstaged. apply (Hother e' name He Hstaged). by rewrite <- app_assoc.
  - (* elsewhere *)
    assert (Hex : lookup_node q (w_fs w) <> None) by (by rewrite Hq).
    rewrite <- Hq. apply Hfr.
    + by apply (absent_not_prefix _ _ (w_fs w)).
    + intros Hqt.
      assert (tmpdirname <> []) as Hne by (by intros ->).
      rewrite (app_removelast_last "" Hne) in Hqt.
      apply prefix_snoc_inv in Hqt as [Hqp| ->].
      * assert (parent tmpdirname = q) as <-.
        { apply (leaf_not_prefix _ _ (w_fs w) n); [done..| |done].
          by destruct (lookup_node (parent tmpdirname) (w_fs w)). }
        by rewrite Hq in Hpar; destruct n.
      * rewrite <- (app_removelast_last "" Hne) in Hq. congruence.
    + intros e He. split.
      * intros Hp. apply not_true_iff_false in Hbelow. apply Hbelow.
        apply existsb_exists. exists e. split; [done|]. by apply is_prefix_spec.
      * intros [Hqc| ->]%prefix_snoc_inv.
        -- assert (checkpoint_dir = q) as <-.
           { apply (leaf_not_prefix _ _ (w_fs w) n); [done..| |done].
             by destruct (lookup_node checkpoint_dir (w_fs w)). }
           by rewrite Hq in Hck; destruct n.
        -- apply not_true_iff_false in Hbelow. apply Hbelow.
           apply existsb_exists. exists e. split; [done|]. by apply is_prefix_spec.
Qed.

Lemma store_experts_keeps_files_witness :
  let now := mkDatetime 2024 1 2 3 4 5 6 in
  let w' := (store_experts 3 now ["tmp"; "tmpa"] example_experts ["ckpt"]
               example_world_old).2 in
  store_experts 3 now ["tmp"; "tmpa"] example_experts ["ckpt"] example_world_old
  = (Ok tt, w')
  /\ lookup_node ["ckpt"; "expert.0"; "old.safetensors"] (w_fs w')
     = Some (File (Bytes [1])).
Proof.
  intros now w'.
  assert (Hrun : store_experts 3 now ["tmp"; "tmpa"] example_experts ["ckpt"]
                   example_world_old = (Ok tt, w')) by (vm_compute; reflexivity).
  split; [exact Hrun|].
  apply (store_experts_keeps_files 3 now ["tmp"; "tmpa"] example_experts ["ckpt"]
           example_world_old w' Hrun).
  - reflexivity.
  - reflexivity.
  - intros e [<-|[]]. repeat constructor. by exists (Bytes [1]).
  - reflexivity.
  - reflexivity.
  - intros e name [<-|[]] Hname Heq. injection Heq as <-.
    vm_compute in Hname. destruct Hname as [H|[H|[H|[H|[]]]]]; discriminate H.
Defined.

(** ** What every outcome keeps *)

Lemma keeps_bind {A B} (I : World -> Prop) (m : IO A) (k : A -> IO B) :
  keeps I m -> (forall a, keeps I (k a)) -> keeps I (m ≫= k).
Proof.
  intros Hm Hk w Hw. unfold mbind, IO_bind. specialize (Hm w Hw).
  destruct (m w) as [[a|e] w1]; [by apply Hk|done].
Qed.

Lemma keeps_same {A} (I : World -> Prop) (m : IO A) :
  (forall w, (m w).2 = w) -> keeps I m.
Proof. intros Hm w Hw. by rewrite Hm. Qed.

Lemma keeps_for {A} (I : World -> Prop) (xs : list A) (body : A -> IO unit) :
  (forall x, keeps I (body x)) -> keeps I (for_ xs body).
Proof. intros Hbody w Hw. apply for_invariant; [done|]. intros x w'. apply Hbody. Qed.

Lemma keeps_create (I : World -> Prop) (p : path) (v : node) :
  put_stable I -> keeps I (create p v).
Proof.
  intros HI w Hw. unfold create, mbind, IO_bind, get_fs, put_fs, raise. cbv beta iota.
  destruct (lookup_node p (w_fs w)) eqn:Hp; [done|].
  destruct (lookup_node (parent p) (w_fs w)) as [[| |]|]; try done.
  destruct (set_node p v (w_fs w)) as [fs'|] eqn:Hset; [|done].
  apply (HI w p v fs'); try done; [by intros ->|by left].
Qed.

Lemma keeps_write_file (I : World -> Prop) (p : path) (c : content) :
  put_stable I -> keeps I (write_file p c).
Proof.
  intros HI w Hw. rewrite write_file_eq.
  destruct (resolve MAXSYMLINKS (w_fs w) p) as [q|] eqn:Hres; [|done].
  destruct (lookup_node q (w_fs w)) as [[c0|es|t]|] eqn:Hold; try done.
  - destruct (lookup_node (parent q) (w_fs w)) as [[| |]|], q as [|s q]; try done.
    destruct (set_node _ _ _) as [fs'|] eqn:Hset; [|done].
    apply (HI w (s :: q) (File c) fs'); try done. right. by exists c0.
  - by destruct (resolve_final _ _ _ _ t Hres).
  - destruct (lookup_node (parent q) (w_fs w)) as [[| |]|], q as [|s q]; try done.
    destruct (set_node _ _ _) as [fs'|] eqn:Hset; [|done].
    apply (HI w (s :: q) (File c) fs'); try done. by left.
Qed.

Lemma exists_state (p : path) (w : World) : (os_path_exists p w).2 = w.
Proof. reflexivity. Qed.

Lemma isdir_state (p : path) (w : World) : (os_path_isdir p w).2 = w.
Proof. reflexivity. Qed.

Lemma keeps_makedirs_from (I : World -> Prop) (tail : path) :
  put_stable I -> forall head, keeps I (makedirs_from head tail).
Proof.
  intros HI. induction tail as [|name rest IH]; intros head; [by intros w Hw|].
  destruct rest as [|name' rest]; [by apply keeps_create|].
  intros w Hw. rewrite makedirs_from_step.
  destruct (bool_decide _); [by apply IH|].
  pose proof (keeps_create I (head ++ [name]) (Dir []) HI w Hw) as Hmk.
  unfold os_mkdir.
  destruct (create (head ++ [name]) (Dir []) w) as [[[]|[]] w1]; try done; by apply IH.
Qed.

Lemma keeps_copy2 (I : World -> Prop) (s d : path) : put_stable I -> keeps I (copy2 s d).
Proof.
  intros HI. unfold copy2. apply keeps_bind; [by apply keeps_same|]. intros isd.
  unfold copyfile. apply keeps_bind; [by apply keeps_same|]. intros same.
  destruct same; [by apply keeps_same|].
  apply keeps_bind; [apply keeps_same, read_file_state|]. intros c.
  by apply keeps_write_file.
Qed.

Lemma keeps_copy_tree (I : World -> Prop) (depth : nat) :
  put_stable I -> forall src dst, keeps I (copy_tree depth src dst).
Proof.
  intros HI. induction depth as [|depth IH]; intros src dst; [by apply keeps_same|].
  cbn [copy_tree]. apply keeps_bind; [by apply keeps_same|]. intros e.
  apply keeps_bind.
  { destruct e; [by apply keeps_same|]. by apply keeps_makedirs_from. }
  intros _. apply keeps_bind; [apply keeps_same, listdir_state|]. intros items.
  apply keeps_for. intros item. apply keeps_bind; [by apply keeps_same|].
  intros d. destruct d; [apply IH|by apply keeps_copy2].
Qed.

Lemma keeps_stage_expert (I : World -> Prop) (tmp : path) (ts : string)
    (item : string * ModuleBackend) :
  put_stable I -> keeps I (stage_expert tmp ts item).
Proof.
  intros HI. destruct item as [e b]. unfold stage_expert.
  apply keeps_bind; [by apply keeps_create|]. intros _.
  apply keeps_bind.
  { apply keeps_same. intros w. unfold ModuleBackend_state_dict.
    by destruct (w_modules w !! mb_module b). }
  intros [sd bsd].
  apply keeps_bind; [by apply keeps_write_file|]. intros _.
  apply keeps_bind; [by apply keeps_write_file|]. intros _.
  apply keeps_bind; [by apply keeps_create|]. intros _.
  by apply keeps_create.
Qed.

Lemma del_entry_set_entry_same (c : string) (v : node) (es : list (string * node)) :
  del_entry c (set_entry c v es) = del_entry c es.
Proof.
  induction es as [|[k x] es IH]; simpl.
  - by rewrite String.eqb_refl.
  - destruct (String.eqb k c) eqn:E; simpl; rewrite E; [done|by rewrite IH].
Qed.

Lemma del_entry_set_entry_ne (c k : string) (v : node) (es : list (string * node)) :
  c <> k -> del_entry c (set_entry k v es) = set_entry k v (del_entry c es).
Proof.
  intros Hne. induction es as [|[k' x] es IH]; simpl.
  - by destruct (String.eqb_spec k c) as [->|].
  - destruct (String.eqb_spec k' k) as [->|Hk]; simpl.
    + destruct (String.eqb_spec k c) as [->|]; [done|]. simpl.
      by rewrite String.eqb_refl.
    + destruct (String.eqb_spec k' c) as [->|Hc]; simpl; [done|].
      destruct (String.eqb_spec k' k); [done|]. by rewrite IH.
Qed.

Lemma once_set_entry (c k : string) (v : node) (es : list (string * node)) :
  is_Some (assoc c es) -> assoc c (del_entry c es) = None ->
  is_Some (assoc c (set_entry k v es))
  /\ assoc c (del_entry c (set_entry k v es)) = None.
Proof.
  intros Hin Hone. destruct (decide (c = k)) as [<-|Hne].
  - rewrite assoc_set_entry_eq, del_entry_set_entry_same. by eauto.
  - rewrite del_entry_set_entry_ne by done.
    rewrite !assoc_set_entry_ne by done. done.
Qed.

Lemma holds_once_stable (dir : path) (c : string) (modules : gmap nat nn_Module)
    (log : list (level * string)) :
  put_stable (holds_once dir c modules log).
Proof.
  intros w p v fs' Hp Hold Hset [(es & Hdir & Hin & Hone) Hml].
  split; [|done]. cbn [w_fs with_fs].
  destruct (decide (dir `prefix_of` p)) as [[k ->]|Hdp].
  - destruct k as [|name k].
    + rewrite app_nil_r, Hdir in Hold. by destruct Hold as [|[? ?]].
    + destruct (set_node_deeper _ _ _ _ _ _ _ Hset Hdir) as (child' & _ & Hdir').
      exists (set_entry name child' es). split; [done|]. by apply once_set_entry.
  - destruct (decide (p `prefix_of` dir)) as [[k ->]|Hpd].
    + exfalso. rewrite lookup_node_app in Hdir.
      destruct Hold as [Hn|[c0 Hf]].
      * by rewrite Hn in Hdir.
      * rewrite Hf in Hdir. destruct k; [by rewrite app_nil_r in Hdp; destruct Hdp|done].
    + exists es. split; [|done]. rewrite <- Hdir.
      by apply (set_node_other _ _ _ _ _ Hset).
Qed.

Lemma remove_node_last (dir : path) (c : string) (fs : node) (es : list (string * node)) :
  lookup_node dir fs = Some (Dir es) ->
  exists fs', remove_node (dir ++ [c]) fs = Some fs'
              /\ lookup_node dir fs' = Some (Dir (del_entry c es)).
Proof.
  revert fs. induction dir as [|d dir IH]; intros fs Hdir.
  - injection Hdir as ->. by eexists.
  - cbn [lookup_node] in Hdir. destruct fs as [|des|]; try done.
    destruct (assoc d des) as [child|] eqn:Hd; [|done].
    destruct (IH child Hdir) as (child' & Hrm & Hl).
    exists (Dir (set_entry d child' des)). split.
    + cbn [app remove_node]. rewrite Hd, Hrm. by destruct (dir ++ [c]) eqn:E;
        [destruct dir; discriminate E|].
    + cbn [lookup_node]. by rewrite assoc_set_entry_eq.
Qed.

Lemma del_entry_absent (c : string) (es : list (string * node)) :
  assoc c es = None -> del_entry c es = es.
Proof.
  induction es as [|[k x] es IH]; simpl; [done|].
  destruct (String.eqb k c); [done|]. intros H. by rewrite IH.
Qed.

Lemma create_raises (p : path) (v : node) (w w1 : World) (err : exn) :
  create p v w = (Raise err, w1) -> w1 = w.
Proof.
  unfold create, mbind, IO_bind, get_fs, put_fs, raise. cbv beta iota.
  destruct (lookup_node p (w_fs w)); [by intros [= _ <-]|].
  destruct (lookup_node (parent p) (w_fs w)) as [[| |]|]; try (by intros [= _ <-]).
  destruct (set_node p v (w_fs w)); [done|by intros [= _ <-]].
Qed.

(** X4. Whatever [store_experts] ends in, a result or an exception, the
    staging directory is not there afterwards (its name was free, as
    [TemporaryDirectory] picks it), the loaded modules are as they were, and
    the log has one record more: the debug record of the first line. *)
Theorem store_experts_removes_staging (depth : nat) (now : datetime)
    (tmpdirname : path) (experts : list (string * ModuleBackend))
    (checkpoint_dir : path) (w : World) :
  lookup_node tmpdirname (w_fs w) = None ->
  let w' := (store_experts depth now tmpdirname experts checkpoint_dir w).2 in
  lookup_node tmpdirname (w_fs w') = None
  /\ w_modules w' = w_modules w
  /\ w_log w'
     = w_log w ++ [(DEBUG, "Storing experts at " +:+ path_str checkpoint_dir)].
Proof.
  intros Hfree w'.
  set (w0 := storing checkpoint_dir w).
  set (Q := fun w1 => lookup_node tmpdirname (w_fs w1) = None
                      /\ w_modules w1 = w_modules w0 /\ w_log w1 = w_log w0).
  enough (H : Q w') by exact H.
  subst w'. rewrite store_experts_unfold. fold w0.
  change (w_fs w) with (w_fs w0) in Hfree. clearbody w0. clear w. rename w0 into w.
  unfold mbind at 1, IO_bind at 1. rewrite is_directory_cases.
  destruct (names_directory _ _); [|by subst Q].
  unfold with_TemporaryDirectory, mbind at 1, IO_bind at 1, os_mkdir.
  destruct (create tmpdirname (Dir []) w) as [[[]|err] w1] eqn:Hmk.
  - apply create_inv in Hmk as (_ & pes & fs1 & Hpar & Hset & ->).
    assert (tmpdirname <> []) as Hne by (by intros ->).
    set (dir := parent tmpdirname) in *. set (c := basename tmpdirname).
    assert (Htmp : tmpdirname = dir ++ [c]) by (by apply app_removelast_last).
    clearbody dir c.
    assert (Hc : assoc c pes = None).
    { rewrite Htmp, lookup_node_app, Hpar in Hfree. cbn [lookup_node] in Hfree.
      by destruct (assoc c pes). }
    assert (H1 : holds_once dir c (w_modules w) (w_log w) (with_fs w fs1)).
    { split; [|done]. exists (set_entry c (Dir []) pes). cbn [w_fs with_fs]. split.
      - rewrite Htmp in Hset. by apply (set_node_parent _ _ _ _ _ _ Hpar Hset).
      - rewrite assoc_set_entry_eq, del_entry_set_entry_same. split; [by eauto|].
        by rewrite del_entry_absent. }
    pose proof (holds_once_stable dir c (w_modules w) (w_log w)) as Hstable.
    assert (Hbody : keeps (holds_once dir c (w_modules w) (w_log w))
                      (_ ← for_ experts (stage_expert tmpdirname (isoformat "_" now));
                       copy_tree depth tmpdirname checkpoint_dir)).
    { apply keeps_bind.
      - apply keeps_for. intros item. by apply keeps_stage_expert.
      - intros _. by apply keeps_copy_tree. }
    specialize (Hbody _ H1). unfold finally.
    destruct ((_ ← for_ experts (stage_expert tmpdirname (isoformat "_" now));
               copy_tree depth tmpdirname checkpoint_dir) (with_fs w fs1))
      as [r w2].
    cbn [snd] in Hbody. destruct Hbody as [(es & Hdir & Hin & Hone) [Hm Hl]].
    destruct (remove_node_last dir c (w_fs w2) es Hdir) as (fs3 & Hrm & Hdir3).
    rewrite <- Htmp in Hrm.
    assert (Hrmtree : rmtree tmpdirname w2 = (Ok tt, with_fs w2 fs3)).
    { unfold rmtree, mbind, IO_bind, get_fs, put_fs. cbv beta iota.
      rewrite Hrm, Htmp, lookup_node_app, Hdir.
      cbn [lookup_node]. by destruct Hin as [x ->]. }
    rewrite Hrmtree. subst Q. cbn [snd w_fs w_modules w_log with_fs].
    split; [|done]. rewrite Htmp, lookup_node_app, Hdir3. cbn [lookup_node].
    by rewrite Hone.
  - apply create_raises in Hmk as ->. by subst Q.
Qed.

Lemma store_experts_removes_staging_witness :
  let w' := (store_experts 1 (mkDatetime 2024 1 2 3 4 5 6) ["tmp"; "tmpa"]
               example_experts ["ckpt"] example_world_old).2 in
  (store_experts 1 (mkDatetime 2024 1 2 3 4 5 6) ["tmp"; "tmpa"]
     example_experts ["ckpt"] example_world_old).1 = Raise RecursionError
  /\ lookup_node ["tmp"; "tmpa"] (w_fs w') = None
  /\ w_modules w' = w_modules example_world_old
  /\ w_log w' = [(DEBUG, "Storing experts at /ckpt")].
Proof.
  intros w'. split; [vm_compute; reflexivity|].
  apply (store_experts_removes_staging 1 (mkDatetime 2024 1 2 3 4 5 6) ["tmp"; "tmpa"]
           example_experts ["ckpt"] example_world_old).
  reflexivity.
Defined.

(** ** [copy_tree] without a source; safetensors files *)




Lemma resolve_after_write (hops : nat) (fs fs' : node) (p q : path) (v : node)
    (es : list (string * node)) :
  resolve hops fs p = Some q ->
  lookup_node q fs = None \/ (exists c, lookup_node q fs = Some (File c)) ->
  lookup_node (parent q) fs = Some (Dir es) -> q <> [] ->
  (forall t, v <> Symlink t) ->
  (forall r, r <> [] -> lookup_node r v = None) ->
  set_node q v fs = Some fs' ->
  resolve hops fs' p = Some q.
Proof.
  intros Hres Hold Hpar Hq Hv Hleaf Hset.
  assert (Hafter : lookup_node q fs' = Some v) by (by apply (set_node_at _ _ _ _ Hset)).
  revert p Hres. induction hops as [|hops IH]; intros p Hres.
  - cbn [resolve] in *.
    destruct (lookup_node p fs) as [[| |t]|] eqn:Hp; try done;
      injection Hres as Heq; subst p; rewrite Hafter; destruct v; try done;
      by destruct (Hv target).
  - cbn [resolve] in Hres.
    destruct (lookup_node p fs) as [[c0|es0|t]|] eqn:Hp;
      try (injection Hres as Heq; subst p; apply resolve_not_link; rewrite Hafter;
           intros t' [= ->]; by destruct (Hv t')).
    assert (Hnp : ~ p `prefix_of` q).
    { intros [k ->]. destruct k as [|c k].
      - rewrite app_nil_r in Hold. rewrite Hp in Hold. by destruct Hold as [|[? ?]].
      - destruct (exists_last (l := c :: k)) as (k' & y & Hk); [done|].
        rewrite Hk, app_assoc in Hpar. unfold parent in Hpar.
        rewrite removelast_last, lookup_node_app, Hp in Hpar.
        by destruct k'. }
    cbn [resolve].
    rewrite (set_node_frame _ _ _ _ _ Hset) by (try done; intros r Hr; by apply old_below).
    rewrite Hp. by apply IH.
Qed.

Lemma read_back (p q : path) (c : content) (w : World) (fs' : node)
    (es : list (string * node)) :
  resolve MAXSYMLINKS (w_fs w) p = Some q ->
  lookup_node q (w_fs w) = None \/ (exists c0, lookup_node q (w_fs w) = Some (File c0)) ->
  lookup_node (parent q) (w_fs w) = Some (Dir es) -> q <> [] ->
  set_node q (File c) (w_fs w) = Some fs' ->
  read_file p (with_fs w fs') = (Ok c, with_fs w fs').
Proof.
  intros Hres Hold Hpar Hq Hset.
  unfold read_file, mbind, IO_bind, get_fs, mret, IO_ret. cbv beta iota.
  cbn [w_fs with_fs]. unfold stat.
  rewrite (resolve_after_write _ (w_fs w) fs' p q (File c) es Hres Hold Hpar Hq);
    try done.
  - by rewrite (set_node_at _ _ _ _ Hset).
  - intros r Hr. by destruct r.
Qed.

Lemma load_file_reads (p : path) (tensors : list (string * Tensor)) (w : World) :
  read_file p w = (Ok (Safetensors tensors), w) ->
  load_file p w = (Ok (sort_by_key tensors), w).
Proof. intros Hread. unfold load_file, mbind, IO_bind. by rewrite Hread. Qed.

(** X8. What [save_safetensor] has written to a path, [load_safetensor]
    reads back from it (also through a link) as the same dictionary: the
    entries that were saved, each key with its tensor, in the order that
    [load_file] gives them (which need not be the order they were saved
    in); nothing is changed by reading. *)
Theorem save_then_load_safetensor (tensors : list (string * Tensor)) (p : path)
    (w w' : World) :
  save_safetensor tensors p w = (Ok tt, w') ->
  exists loaded,
    load_safetensor p w' = (Ok loaded, w')
    /\ Permutation loaded tensors
    /\ forall key, assoc key loaded = assoc key tensors.
Proof.
  intros Hsave. exists (sort_by_key tensors).
  split; [|split; [apply sort_by_key_perm|apply assoc_sort_by_key]].
  revert Hsave.
  unfold save_safetensor, save_file, load_safetensor. rewrite write_file_eq.
  destruct (resolve MAXSYMLINKS (w_fs w) p) as [q|] eqn:Hres; [|done].
  destruct (lookup_node q (w_fs w)) as [[c0|es0|t]|] eqn:Hq; [|done| |].
  - destruct (lookup_node (parent q) (w_fs w)) as [[|es|]|] eqn:Hpar; try done;
      destruct q as [|s q]; try done.
    destruct (set_node _ _ _) as [fs'|] eqn:Hset; [|done]. intros [= <-].
    apply load_file_reads.
    by rewrite (read_back p (s :: q) (Safetensors tensors) w fs' es Hres);
      [|right; exists c0|..].
  - by destruct (resolve_final _ _ _ _ t Hres).
  - destruct (lookup_node (parent q) (w_fs w)) as [[|es|]|] eqn:Hpar; try done;
      destruct q as [|s q]; try done.
    destruct (set_node _ _ _) as [fs'|] eqn:Hset; [|done]. intros [= <-].
    apply load_file_reads.
    by rewrite (read_back p (s :: q) (Safetensors tensors) w fs' es Hres);
      [|left|..].
Qed.

Lemma save_then_load_safetensor_witness :
  let tensors := [ ("weight", mkTensor float32 [1%nat; 1%nat] [1]);
                   ("bias", mkTensor float32 [1%nat] [2]) ] in
  let w' := (save_safetensor tensors ["ckpt"; "module.safetensors"] example_world).2 in
  save_safetensor tensors ["ckpt"; "module.safetensors"] example_world = (Ok tt, w')
  /\ exists loaded,
       load_safetensor ["ckpt"; "module.safetensors"] w' = (Ok loaded, w')
       /\ Permutation loaded tensors
       /\ forall key, assoc key loaded = assoc key tensors.
Proof.
  intros tensors w'.
  assert (Hsave : save_safetensor tensors ["ckpt"; "module.safetensors"] example_world
                  = (Ok tt, w')) by (vm_compute; reflexivity).
  split; [exact Hsave|].
  exact (save_then_load_safetensor tensors ["ckpt"; "module.safetensors"]
           example_world w' Hsave).
Defined.



(** ** Loading from a HuggingFace repository: names and failures *)

Lemma source_key_inj_all (layer_id expert_id layer_id' expert_id' : Z) (n n' : string) :
  source_key layer_id expert_id n = source_key layer_id' expert_id' n' ->
  layer_id = layer_id' /\ expert_id = expert_id' /\ n = n'.
Proof.
  unfold source_key. intros Heq. apply String.app_inj in Heq.
  change (".block_sparse_moe.experts." +:+ ?r)
    with (String "." ("block_sparse_moe.experts." +:+ r)) in Heq.
  apply num_split in Heq as [Hl Heq]; [|apply str_of_int_all_num..|done].
  apply str_of_int_inj in Hl as ->. apply String.app_inj in Heq.
  change (".w" +:+ ?r) with (String "." ("w" +:+ r)) in Heq.
  apply num_split in Heq as [He Heq]; [|apply str_of_int_all_num..|done].
  apply str_of_int_inj in He as ->. apply String.app_inj in Heq.
  by apply app_inv_tail_str in Heq.
Qed.

(** X9. The tensors that [mixtral_rules] names for two different experts
    (another layer or another expert index) are never the same tensor: no
    source name of the one is a source name of the other. *)
Theorem mixtral_rules_sources_disjoint (layer_id expert_id layer_id' expert_id' : Z) :
  (layer_id, expert_id) <> (layer_id', expert_id') ->
  forall key,
    In key (map fst (mixtral_rules layer_id expert_id)) ->
    ~ In key (map fst (mixtral_rules layer_id' expert_id')).
Proof.
  intros Hne key. rewrite !mixtral_rules_keys. cbn [map fst In].
  intros [<-|[<-|[<-|[]]]] [H|[H|[H|[]]]];
    symmetry in H; apply source_key_inj_all in H as (-> & -> & _); by apply Hne.
Qed.

Lemma mixtral_rules_sources_disjoint_witness :
  (0, 1) <> (1, 0)
  /\ forall key,
       In key (map fst (mixtral_rules 0 1)) -> ~ In key (map fst (mixtral_rules 1 0)).
Proof.
  assert (H : (0, 1) <> (1, 0)) by discriminate.
  split; [exact H|]. exact (mixtral_rules_sources_disjoint 0 1 1 0 H).
Defined.

Lemma get_tensor_cases (hub : Hub) (repo_id : string) (wm : list (string * string))
    (key : string) :
  match shard_tensor hub repo_id wm key with
  | Some t =>
      (state_dict ← get_state_dict_by_key hub key wm repo_id;
       get_expert_state_dict state_dict key) = Ok t
  | None =>
      exists err,
        (state_dict ← get_state_dict_by_key hub key wm repo_id;
         get_expert_state_dict state_dict key) = Raise err
        /\ fetch_error err
  end.
Proof.
  unfold shard_tensor, get_state_dict_by_key, get_expert_state_dict, getitem, fetch_error.
  destruct (assoc key wm) as [f|]; cbn [mbind res_bind];
    [|eexists; split; [reflexivity|tauto]].
  destruct (assoc repo_id hub) as [r|]; cbn [mbind res_bind];
    [|eexists; split; [reflexivity|tauto]].
  destruct (assoc f (shards r)) as [sd|]; cbn [mbind res_bind];
    [|eexists; split; [reflexivity|tauto]].
  rewrite assoc_sort_by_key. destruct (assoc key sd); [done|].
  eexists; split; [reflexivity|tauto].
Qed.

Lemma assemble_step (hub : Hub) (repo_id : string) (wm : list (string * string))
    (key expert_key : string) (rest : list (string * string))
    (acc : list (string * Tensor)) :
  for_each ((key, expert_key) :: rest) (fun '(key, expert_key) module_state_dict =>
    state_dict ← get_state_dict_by_key hub key wm repo_id;
    value ← get_expert_state_dict state_dict key;
    Ok (setitem module_state_dict expert_key value)) acc
  = match (state_dict ← get_state_dict_by_key hub key wm repo_id;
           get_expert_state_dict state_dict key) with
    | Ok value =>
        for_each rest (fun '(key, expert_key) module_state_dict =>
          state_dict ← get_state_dict_by_key hub key wm repo_id;
          value ← get_expert_state_dict state_dict key;
          Ok (setitem module_state_dict expert_key value))
          (setitem acc expert_key value)
    | Raise err => Raise err
    end.
Proof.
  cbn [for_each]. destruct (get_state_dict_by_key hub key wm repo_id) as [sd|];
    cbn [mbind res_bind]; [|done].
  by destruct (get_expert_state_dict sd key).
Qed.

(** X10. [_load_weights_from_hf] fetches all three tensors before it
    touches the expert: when the repository is not there or has no usable
    weight map, or one of the three source names has no shard, or the shard
    lacks the tensor, the call raises (RepositoryNotFoundError,
    FileNotFoundError, KeyError or EntryNotFoundError) and the expert, like
    every loaded module, is as it was. *)
Theorem load_weights_from_hf_fetch_failure {cast : Casting} (hub : Hub) (expert : nat)
    (expert_id layer_id : Z) (repo_id : string) (w : World) :
  (forall weights_map,
     load_weights_map hub repo_id = Ok weights_map ->
     exists n, In n ["1"; "2"; "3"]
               /\ shard_tensor hub repo_id weights_map
                    (source_key layer_id expert_id n) = None) ->
  let r := _load_weights_from_hf hub expert expert_id layer_id repo_id w in
  (exists err, r.1 = Raise err /\ fetch_error err)
  /\ w_modules r.2 = w_modules w.
Proof.
  intros Hfail r.
  enough (H : exists err, r = (Raise err, w) /\ fetch_error err).
  { destruct H as (err & -> & Herr). split; [by exists err|done]. }
  subst r. unfold _load_weights_from_hf, lift.
  unfold mbind at 1, IO_bind at 1.
  destruct (load_weights_map hub repo_id) as [wm|err] eqn:Hwm.
  - destruct (Hfail wm eq_refl) as (n & Hn & Hnone).
    unfold mbind at 1, IO_bind at 1.
    assert (exists err, assemble_state_dict hub (mixtral_rules layer_id expert_id) wm repo_id
                        = Raise err /\ fetch_error err)
      as (err & -> & Herr); [|by exists err].
    rewrite mixtral_rules_keys. unfold assemble_state_dict.
    pose proof (get_tensor_cases hub repo_id wm (source_key layer_id expert_id "1")) as H1.
    pose proof (get_tensor_cases hub repo_id wm (source_key layer_id expert_id "2")) as H2.
    pose proof (get_tensor_cases hub repo_id wm (source_key layer_id expert_id "3")) as H3.
    rewrite assemble_step.
    destruct (shard_tensor hub repo_id wm (source_key layer_id expert_id "1")) as [t1|]
      eqn:E1;
      [rewrite H1|destruct H1 as (err & -> & Herr); by exists err].
    rewrite assemble_step.
    destruct (shard_tensor hub repo_id wm (source_key layer_id expert_id "2")) as [t2|]
      eqn:E2;
      [rewrite H2|destruct H2 as (err & -> & Herr); by exists err].
    rewrite assemble_step.
    destruct (shard_tensor hub repo_id wm (source_key layer_id expert_id "3")) as [t3|]
      eqn:E3;
      [rewrite H3|destruct H3 as (err & -> & Herr); by exists err].
    exfalso. cbn [In] in Hn. destruct Hn as [<-|[<-|[<-|[]]]]; congruence.
  - exists err. split; [done|]. revert Hwm. unfold load_weights_map, getitem, fetch_error.
    destruct (assoc repo_id hub) as [r|]; [|intros [= <-]; tauto].
    destruct (index_json r) as [json|]; [|intros [= <-]; tauto].
    destruct (assoc "weight_map" json); [done|]. intros [= <-]. tauto.
Qed.

Lemma load_weights_from_hf_fetch_failure_witness :
  let hub := [ ("org/mixtral",
                mkHubRepo (Some [("weight_map",
                                  [(source_key 0 1 "1", "a.safetensors")])])
                  [ ("a.safetensors",
                     [(source_key 0 1 "1", mkTensor float16 [1; 1]%nat [1])]) ]) ] in
  let w := example_world_old in
  let r := _load_weights_from_hf (cast := id_casting) hub 0 1 0 "org/mixtral" w in
  (exists err, r.1 = Raise err /\ fetch_error err)
  /\ w_modules r.2 = w_modules w.
Proof.
  intros hub w.
  apply (load_weights_from_hf_fetch_failure (cast := id_casting) hub 0 1 0
           "org/mixtral" w).
  intros weights_map [= <-]. exists "2". split; [cbn [In]; tauto|reflexivity].
Defined.

Lemma assemble_mixtral (hub : Hub) (repo_id : string) (wm : list (string * string))
    (layer_id expert_id : Z) (t1 t2 t3 : Tensor) :
  shard_tensor hub repo_id wm (source_key layer_id expert_id "1") = Some t1 ->
  shard_tensor hub repo_id wm (source_key layer_id expert_id "2") = Some t2 ->
  shard_tensor hub repo_id wm (source_key layer_id expert_id "3") = Some t3 ->
  assemble_state_dict hub (mixtral_rules layer_id expert_id) wm repo_id
  = Ok [("block.w1.weight", t1); ("block.w2.weight", t2); ("block.w3.weight", t3)].
Proof.
  intros E1 E2 E3. rewrite mixtral_rules_keys. unfold assemble_state_dict.
  pose proof (get_tensor_cases hub repo_id wm (source_key layer_id expert_id "1")) as H1.
  pose proof (get_tensor_cases hub repo_id wm (source_key layer_id expert_id "2")) as H2.
  pose proof (get_tensor_cases hub repo_id wm (source_key layer_id expert_id "3")) as H3.
  rewrite E1 in H1. rewrite E2 in H2. rewrite E3 in H3.
  rewrite assemble_step, H1, assemble_step, H2, assemble_step, H3. reflexivity.
Qed.

(** X11. Loading is strict: when the three tensors are fetched but the
    expert has a parameter under another name than [block.w1.weight],
    [block.w2.weight], [block.w3.weight], or lacks one of these, then
    [_load_weights_from_hf] raises RuntimeError.  (One case apart: when one
    of the three tensors is an empty one-dimensional tensor the exception
    can be IndexError, which torch raises when it takes the first element of
    such a tensor for a parameter without dimensions.) *)
Theorem load_weights_from_hf_strict {cast : Casting} (hub : Hub) (expert : nat)
    (expert_id layer_id : Z) (repo_id : string) (weights_map : list (string * string))
    (t1 t2 t3 : Tensor) (m : nn_Module) (w : World) (key : string) :
  load_weights_map hub repo_id = Ok weights_map ->
  shard_tensor hub repo_id weights_map (source_key layer_id expert_id "1") = Some t1 ->
  shard_tensor hub repo_id weights_map (source_key layer_id expert_id "2") = Some t2 ->
  shard_tensor hub repo_id weights_map (source_key layer_id expert_id "3") = Some t3 ->
  w_modules w !! expert = Some m ->
  let local := ["block.w1.weight"; "block.w2.weight"; "block.w3.weight"] in
  (In key (map fst (state_dict m)) /\ ~ In key local)
  \/ (In key local /\ ~ In key (map fst (state_dict m))) ->
  let result := (_load_weights_from_hf hub expert expert_id layer_id repo_id w).1 in
  result = Raise RuntimeError
  \/ (result = Raise IndexError
      /\ Exists (fun t => t_shape t = [0%nat]) [t1; t2; t3]).
Proof.
  intros Hwm E1 E2 E3 Hm local Hkey result. subst result.
  unfold _load_weights_from_hf, lift, mbind, IO_bind.
  rewrite Hwm, (assemble_mixtral _ _ _ _ _ _ _ _ E1 E2 E3).
  unfold load_state_dict. rewrite Hm.
  set (sd := [("block.w1.weight", t1); ("block.w2.weight", t2); ("block.w3.weight", t3)]).
  assert (Hmismatch : strict_match (state_dict m) sd = false).
  { destruct (strict_match _ _) eqn:Hstrict; [|done].
    pose proof (strict_match_keys _ _ Hstrict key) as Hiff.
    cbn [map fst sd] in Hiff. fold local in Hiff. tauto. }
  pose proof (load_from_error sd m) as Herr.
  destruct (load_from "" sd m) as [m' [err|]] eqn:Hload.
  - rewrite (Herr err "") by (by rewrite Hload). right. split; [done|].
    destruct (decide (Exists (fun t => t_shape t = [0%nat]) [t1; t2; t3]))
      as [|Hnone]; [done|].
    exfalso. rewrite load_from_loaded in Hload; [done|].
    intros k old t _ Ht. apply input_for_not_empty. intros Hempty. apply Hnone.
    apply assoc_In in Ht. apply Exists_exists. exists t. split; [|done].
    rewrite !elem_of_cons.
    cbn [In sd] in Ht. destruct Ht as [[= _ <-]|[[= _ <-]|[[= _ <-]|[]]]]; tauto.
  - rewrite Hmismatch. by left.
Qed.

Lemma load_weights_from_hf_strict_witness :
  let t (n : Z) := mkTensor float16 [1; 1]%nat [n] in
  let wm := [ (source_key 0 1 "1", "a.safetensors");
              (source_key 0 1 "2", "a.safetensors");
              (source_key 0 1 "3", "a.safetensors") ] in
  let hub := [ ("org/mixtral",
                mkHubRepo (Some [("weight_map", wm)])
                  [ ("a.safetensors",
                     [(source_key 0 1 "1", t 1); (source_key 0 1 "2", t 2);
                      (source_key 0 1 "3", t 3)]) ]) ] in
  let w := mkWorld (Dir []) {[ 7%nat := example_module ]} [] in
  let result := (_load_weights_from_hf (cast := id_casting) hub 7 1 0 "org/mixtral" w).1 in
  result = Raise RuntimeError
  /\ (result = Raise RuntimeError
      \/ (result = Raise IndexError
          /\ Exists (fun t0 => t_shape t0 = [0%nat]) [t 1; t 2; t 3])).
Proof.
  intros t wm hub w result. split; [reflexivity|].
  apply (load_weights_from_hf_strict (cast := id_casting) hub 7 1 0 "org/mixtral" wm
           (t 1) (t 2) (t 3) example_module w "weight"); try reflexivity.
  left. split; [left; reflexivity|].
  cbn [In]. intros [H|[H|[H|[]]]]; discriminate H.
Defined.

(** The case apart: an expert that lacks two of the three keys and has a
    parameter without dimensions under the first, for which an empty
    one-dimensional tensor is fetched; the call raises IndexError. *)
Example load_weights_from_hf_empty_vector :
  let t (n : Z) := mkTensor float16 [1; 1]%nat [n] in
  let empty := mkTensor float16 [0%nat] [] in
  let wm := [ (source_key 0 1 "1", "a.safetensors");
              (source_key 0 1 "2", "a.safetensors");
              (source_key 0 1 "3", "a.safetensors") ] in
  let hub := [ ("org/mixtral",
                mkHubRepo (Some [("weight_map", wm)])
                  [ ("a.safetensors",
                     [(source_key 0 1 "1", empty); (source_key 0 1 "2", t 2);
                      (source_key 0 1 "3", t 3)]) ]) ] in
  let scale := mkModule (OtherModule "Scale")
                 [("weight", mkParameter (mkTensor float16 [] [0]) true)] [] None None in
  let expert := mkModule (OtherModule "Expert") []
                  [("block", mkModule (OtherModule "Block") [] [("w1", scale)] None None)]
                  None None in
  let w := mkWorld (Dir []) {[ 7%nat := expert ]} [] in
  (_load_weights_from_hf (cast := id_casting) hub 7 1 0 "org/mixtral" w).1
  = Raise IndexError.
Proof. reflexivity. Qed.

(** ** Quantization: what the replacement keeps *)

Lemma descendants_spec (m d : nn_Module) :
  In d (descendants m)
  <-> exists n c, In (n, c) (m_children m) /\ (d = c \/ In d (descendants c)).
Proof.
  destruct m as [cl ps cs f4 f8]. cbn [descendants m_children].
  induction cs as [|[n c] cs IH].
  - split; [done|]. by intros (? & ? & [] & _).
  - cbn [In]. rewrite in_app_iff, IH. split.
    + intros [->|[Hd|(n' & c' & Hin & Hd)]].
      * exists n, d. split; [by left|by left].
      * exists n, c. split; [by left|by right].
      * exists n', c'. split; [by right|done].
    + intros (n' & c' & [[= <- <-]|Hin] & [->|Hd]).
      * by left.
      * right. by left.
      * right. right. exists n', c'. split; [done|by left].
      * right. right. exists n', c'. split; [done|by right].
Qed.

Lemma named_children_loop_Forall2 recurse cfg excl cur cs has cs' has' :
  named_children_loop recurse cfg excl cur cs has = Ok (cs', has') ->
  Forall2 (fun nm nc =>
             nc.1 = nm.1
             /\ exists h1 h2, visit_child recurse cfg excl cur nm.1 nm.2 h1 = Ok (nc.2, h2))
    cs cs'.
Proof.
  revert has cs' has'. induction cs as [|[n0 m0] cs IH]; intros has cs' has' Hloop.
  - injection Hloop as <- <-. constructor.
  - cbn [named_children_loop] in Hloop.
    destruct (visit_child recurse cfg excl cur n0 m0 has) as [[child h1]|] eqn:Hv;
      cbn [mbind res_bind] in Hloop; [|done].
    destruct (named_children_loop recurse cfg excl cur cs h1) as [[rest' h2]|] eqn:Hl;
      cbn [mbind res_bind] in Hloop; [|done].
    injection Hloop as <- <-. constructor; [|by eapply IH].
    split; [done|]. by exists has, h1.
Qed.

Lemma replace_children (model : nn_Module) cfg excl cur model' flag :
  _replace_with_bnb_layers model cfg excl cur = Ok (model', flag) ->
  m_class model' = m_class model
  /\ m_parameters model' = m_parameters model
  /\ is_loaded_in_4bit model' = is_loaded_in_4bit model
  /\ is_loaded_in_8bit model' = is_loaded_in_8bit model
  /\ Forall2 (fun nm nc =>
                nc.1 = nm.1
                /\ exists h1 h2,
                     visit_child
                       (fun module key => _replace_with_bnb_layers module cfg excl key)
                       cfg excl cur nm.1 nm.2 h1 = Ok (nc.2, h2))
       (m_children model) (m_children model').
Proof.
  destruct model as [c ps cs f4 f8]. cbn [_replace_with_bnb_layers m_children].
  destruct (named_children_loop _ _ _ _ _ _) as [[cs' h]|] eqn:Hloop;
    cbn [mbind res_bind]; [|done].
  intros [= <- <-]. repeat split. by eapply named_children_loop_Forall2.
Qed.

(** What one turn of the loop leaves under the name of a child. *)
Lemma visit_child_cases recurse cfg excl cur name m has child has' :
  visit_child recurse cfg excl cur name m has = Ok (child, has') ->
  (isinstance_Linear m = true /\ bnb_layer cfg m = Ok child)
  \/ (m_children m = [] /\ child = m)
  \/ (m_children m <> [] /\ exists h, recurse m (cur ++ [name]) = Ok (child, h)).
Proof.
  unfold visit_child. intros Hv.
  destruct (isinstance_Linear m && negb (str_mem name excl)) eqn:Hel.
  - apply andb_true_iff in Hel as [Hlin _].
    destruct (proceed_scan excl _).
    + destruct (bnb_layer cfg m) as [q|] eqn:Hq; cbn [mbind res_bind] in Hv; [|done].
      left. split; [done|].
      destruct (0 <? length (m_children m))%nat.
      * destruct (recurse m (cur ++ [name])) as [[m' h]|]; cbn [mbind res_bind] in Hv;
          [|done]. by injection Hv as <- _.
      * by injection Hv as <- _.
    + cbn [mbind res_bind] in Hv. right.
      destruct (m_children m) as [|c0 cs0] eqn:Hcs; cbn [length Nat.ltb Nat.leb] in Hv.
      * left. split; [done|]. by injection Hv as <- _.
      * right. split; [done|].
        destruct (recurse m (cur ++ [name])) as [[m' h]|]; cbn [mbind res_bind] in Hv;
          [|done]. injection Hv as <- _. by exists h.
  - cbn [mbind res_bind] in Hv. right.
    destruct (m_children m) as [|c0 cs0] eqn:Hcs; cbn [length Nat.ltb Nat.leb] in Hv.
    + left. split; [done|]. by injection Hv as <- _.
    + right. split; [done|].
      destruct (recurse m (cur ++ [name])) as [[m' h]|]; cbn [mbind res_bind] in Hv;
        [|done]. injection Hv as <- _. by exists h.
Qed.

Lemma bnb_layer_state_dict cfg (m q : nn_Module) (prefix : string) :
  bnb_layer cfg m = Ok q -> plain_linear m ->
  state_dict_from prefix q = state_dict_from prefix m.
Proof.
  intros Hq [Hcs Hps]. rewrite !state_dict_from_eq, Hcs.
  assert (m_children q = [] /\ m_parameters q = bnb_parameters m) as [-> ->].
  { unfold bnb_layer in Hq. destruct (load_in_8bit cfg); [by injection Hq as <-|].
    destruct (load_in_4bit cfg); [by injection Hq as <-|done]. }
  f_equal. unfold bnb_parameters, weight_of, bias_of.
  destruct Hps as [[w ->]|(w & b & ->)]; reflexivity.
Qed.

Lemma replace_state_dict_from cfg excl (model : nn_Module) :
  (forall d, In d (descendants model) -> isinstance_Linear d = true -> plain_linear d) ->
  forall cur model' flag prefix,
    _replace_with_bnb_layers model cfg excl cur = Ok (model', flag) ->
    state_dict_from prefix model' = state_dict_from prefix model.
Proof.
  induction model as [c ps cs f4 f8 IH] using nn_Module_tree_ind.
  intros Hplain cur model' flag prefix Hrun.
  destruct (replace_children _ _ _ _ _ _ Hrun) as (Hc & Hp & _ & _ & Hcs).
  rewrite !state_dict_from_eq, Hp. f_equal. cbn [m_children] in *.
  assert (Hsub : forall n m, In (n, m) cs ->
            (isinstance_Linear m = true -> plain_linear m)
            /\ (forall d, In d (descendants m) ->
                  isinstance_Linear d = true -> plain_linear d)).
  { intros n m Hin. split.
    - apply Hplain. apply descendants_spec. exists n, m. by split; [|left].
    - intros d Hd. apply Hplain. apply descendants_spec. exists n, m. by split; [|right]. }
  clear Hplain Hrun Hc Hp.
  induction Hcs as [|[n m] [n' child] cs cs' [Hn (h1 & h2 & Hv)] _ IHcs]; [done|].
  cbn [fst snd] in *. subst n'. cbn [flat_map]. f_equal.
  - destruct (Hsub n m (or_introl eq_refl)) as [Hm Hbelow].
    destruct (visit_child_cases _ _ _ _ _ _ _ _ _ Hv)
      as [[Hlin Hq]|[[_ ->]|[_ [h Hrec]]]]; [|done|].
    + by apply (bnb_layer_state_dict cfg m), Hm.
    + by apply (IH n m (or_introl eq_refl) Hbelow (cur ++ [n]) child h).
  - apply IHcs.
    + intros n0 m0 Hin. apply (IH n0 m0). by right.
    + intros n0 m0 Hin. apply (Hsub n0 m0). by right.
Qed.

(** X12. The replacement keeps the state dictionary: for a model whose
    linear layers are as [torch.nn.Linear] has them (a weight, maybe a bias,
    no children), the model that [replace_with_bnb_layers] returns has the
    same keys, in the same order, with the same tensors; weights and biases
    are carried over as they are. *)
Theorem replace_keeps_state_dict (model : nn_Module) (cfg : BnbQuantizationConfig)
    (modules_to_not_convert : option (list string)) (current_key_name : list string)
    (model' : nn_Module) :
  (forall d, In d (descendants model) -> isinstance_Linear d = true -> plain_linear d) ->
  replace_with_bnb_layers model cfg modules_to_not_convert current_key_name = Ok model' ->
  state_dict model' = state_dict model.
Proof.
  intros Hplain. unfold replace_with_bnb_layers.
  destruct (_replace_with_bnb_layers _ _ _ _) as [[m' flag]|] eqn:Hrun;
    cbn [mbind res_bind]; [|done].
  intros [= <-]. by apply (replace_state_dict_from cfg _ model Hplain _ _ _ _ Hrun).
Qed.

Lemma replace_keeps_state_dict_witness :
  exists model',
    replace_with_bnb_layers example_block BASE_QUANT_CONFIG None [] = Ok model'
    /\ model' <> example_block
    /\ state_dict model' = state_dict example_block.
Proof.
  eexists. split; [reflexivity|]. split; [discriminate|].
  apply (replace_keeps_state_dict example_block BASE_QUANT_CONFIG None []);
    [|reflexivity].
  intros d Hd _. cbn in Hd. destruct Hd as [<-|[<-|[]]]; (split; [reflexivity|]).
  - left. by eexists.
  - right. by eexists _, _.
Defined.

Lemma Forall2_In_r {A B} (R : A -> B -> Prop) (l : list A) (l' : list B) (y : B) :
  Forall2 R l l' -> In y l' -> exists x, In x l /\ R x y.
Proof.
  induction 1 as [|x y' l l' HR _ IH]; [done|].
  intros [->|Hin]; [exists x; by split; [left|]|].
  destruct (IH Hin) as (x' & Hx' & HR'). exists x'. by split; [right|].
Qed.

(** With no exclusion every linear child is handed to [bnb_layer]. *)
Lemma visit_child_all recurse cfg cur name m has child has' :
  visit_child recurse cfg [] cur name m has = Ok (child, has') ->
  (isinstance_Linear m = true /\ bnb_layer cfg m = Ok child)
  \/ (isinstance_Linear m = false
      /\ ((m_children m = [] /\ child = m)
          \/ exists h, recurse m (cur ++ [name]) = Ok (child, h))).
Proof.
  unfold visit_child. cbn [str_mem existsb negb proceed_scan]. rewrite andb_true_r.
  intros Hv. destruct (isinstance_Linear m).
  - left. split; [done|].
    destruct (bnb_layer cfg m) as [q|]; cbn [mbind res_bind] in Hv; [|done].
    destruct (0 <? length (m_children m))%nat.
    + destruct (recurse m (cur ++ [name])) as [[m' h]|]; cbn [mbind res_bind] in Hv;
        [|done]. by injection Hv as <- _.
    + by injection Hv as <- _.
  - right. split; [done|]. cbn [mbind res_bind] in Hv.
    destruct (m_children m) as [|c0 cs0] eqn:Hcs; cbn [length Nat.ltb Nat.leb] in Hv.
    + left. split; [done|]. by injection Hv as <- _.
    + right. destruct (recurse m (cur ++ [name])) as [[m' h]|];
        cbn [mbind res_bind] in Hv; [|done]. injection Hv as <- _. by exists h.
Qed.

Lemma base_layer (m q : nn_Module) :
  bnb_layer BASE_QUANT_CONFIG m = Ok q -> isinstance_Linear q = true /\ is_base_4bit q.
Proof.
  unfold bnb_layer. cbn [load_in_8bit load_in_4bit BASE_QUANT_CONFIG].
  intros [= <-]. split; [done|]. split; [done|]. split; [done|].
  cbn [m_parameters]. unfold bnb_parameters.
  destruct (weight_of m), (bias_of m); repeat constructor.
Qed.

Lemma replace_all_linear (model : nn_Module) :
  forall cur model' flag,
    _replace_with_bnb_layers model BASE_QUANT_CONFIG [] cur = Ok (model', flag) ->
    forall d, In d (descendants model') -> isinstance_Linear d = true -> is_base_4bit d.
Proof.
  induction model as [c ps cs f4 f8 IH] using nn_Module_tree_ind.
  intros cur model' flag Hrun d Hd Hlin.
  destruct (replace_children _ _ _ _ _ _ Hrun) as (_ & _ & _ & _ & Hcs).
  cbn [m_children] in Hcs.
  apply descendants_spec in Hd as (n' & c' & Hin & Hd).
  destruct (Forall2_In_r _ _ _ _ Hcs Hin) as ([n m] & Hm & _ & h1 & h2 & Hv).
  cbn [fst snd] in Hv.
  destruct (visit_child_all _ _ _ _ _ _ _ _ Hv)
    as [[_ Hq]|[Hnl [[Hleaf ->]|[h Hrec]]]].
  - destruct (base_layer _ _ Hq) as [_ Hbase]. destruct Hd as [->|Hd]; [done|].
    destruct Hbase as (_ & Hnone & _). apply descendants_spec in Hd.
    rewrite Hnone in Hd. by destruct Hd as (? & ? & [] & _).
  - destruct Hd as [->|Hd]; [congruence|]. apply descendants_spec in Hd.
    rewrite Hleaf in Hd. by destruct Hd as (? & ? & [] & _).
  - destruct Hd as [->|Hd].
    + destruct (replace_children _ _ _ _ _ _ Hrec) as (Hc & _).
      unfold isinstance_Linear in Hlin, Hnl. rewrite Hc in Hlin. congruence.
    + by apply (IH n m Hm _ _ _ Hrec).
Qed.

(** X14. [quantization] returns for every model.  The model itself keeps
    its class and its own parameters (a model that is itself a linear layer
    is not replaced) and has [is_loaded_in_4bit] true and [is_loaded_in_8bit]
    false; the names of its children are the same; and below it every
    module that is a linear layer is a 4-bit layer ([nf4], computing in
    float16, statistics compressed) without children and without a
    parameter that takes a gradient. *)
Theorem quantization_result {cast : Casting} (model : nn_Module) :
  exists quantized,
    quantization model = Ok quantized
    /\ m_class quantized = m_class model
    /\ m_parameters quantized = m_parameters model
    /\ is_loaded_in_4bit quantized = Some true
    /\ is_loaded_in_8bit quantized = Some false
    /\ map fst (m_children quantized) = map fst (m_children model)
    /\ forall d, In d (descendants quantized) ->
         isinstance_Linear d = true -> is_base_4bit d.
Proof.
  rewrite quantization_is_replacement. unfold replace_with_bnb_layers.
  cbn [default].
  destruct (replace_ok BASE_QUANT_CONFIG [] eq_refl
              (mkModule (m_class model) (m_parameters model) (m_children model)
                 (Some true) (Some false)) []) as (q & flag & Hrun).
  rewrite Hrun. cbn [mbind res_bind]. exists q. split; [done|].
  destruct (replace_children _ _ _ _ _ _ Hrun) as (Hc & Hp & H4 & H8 & Hcs).
  cbn [m_class m_parameters m_children is_loaded_in_4bit is_loaded_in_8bit] in *.
  repeat (split; [done|]). split.
  - clear -Hcs. induction Hcs as [|[n m] [n' c'] cs cs' [Hn _] _ IH]; [done|].
    cbn [map fst] in *. by rewrite Hn, IH.
  - by apply (replace_all_linear _ _ _ _ Hrun).
Qed.

Lemma bnb_parameters_again cfg (m q : nn_Module) :
  bnb_layer cfg m = Ok q -> bnb_layer cfg q = Ok q /\ isinstance_Linear q = true
                            /\ m_children q = [].
Proof.
  unfold bnb_layer. intros Hq.
  assert (Hps : forall cl f4 f8,
            bnb_parameters (mkModule cl (bnb_parameters m) [] f4 f8) = bnb_parameters m).
  { intros cl f4 f8. unfold bnb_parameters, weight_of, bias_of. cbn [m_parameters].
    destruct (assoc "weight" (m_parameters m)), (assoc "bias" (m_parameters m));
      reflexivity. }
  destruct (load_in_8bit cfg).
  - injection Hq as <-. by rewrite Hps.
  - destruct (load_in_4bit cfg); [|done]. injection Hq as <-. by rewrite Hps.
Qed.

Lemma replace_again (cfg : BnbQuantizationConfig) (excl : list string)
    (model : nn_Module) :
  forall cur model' flag,
    _replace_with_bnb_layers model cfg excl cur = Ok (model', flag) ->
    exists flag', _replace_with_bnb_layers model' cfg excl cur = Ok (model', flag').
Proof.
  induction model as [c ps cs f4 f8 IH] using nn_Module_tree_ind.
  intros cur model' flag Hrun.
  destruct (replace_children _ _ _ _ _ _ Hrun) as (Hc & Hp & H4 & H8 & Hcs).
  destruct model' as [c' ps' cs' f4' f8'].
  cbn [m_class m_parameters m_children is_loaded_in_4bit is_loaded_in_8bit] in *.
  subst c' ps' f4' f8'. clear Hrun. cbn [_replace_with_bnb_layers m_children].
  assert (Hloop : forall has,
            exists has',
              named_children_loop
                (fun module key => _replace_with_bnb_layers module cfg excl key)
                cfg excl cur cs' has = Ok (cs', has')).
  { induction Hcs as [|[n m] [n' child] cs cs' [Hn (h1 & h2 & Hv)] _ IHcs];
      intros has; [by eexists|].
    cbn [fst snd] in *. subst n'. cbn [named_children_loop].
    assert (Hvisit : exists has1,
              visit_child (fun module key => _replace_with_bnb_layers module cfg excl key)
                cfg excl cur n child has = Ok (child, has1)).
    { revert Hv. unfold visit_child.
      destruct (isinstance_Linear m && negb (str_mem n excl)) eqn:Hel.
      - apply andb_true_iff in Hel as [Hlin Hmem].
        destruct (proceed_scan excl _) eqn:Hscan.
        + destruct (bnb_layer cfg m) as [q|] eqn:Hq; cbn [mbind res_bind]; [|done].
          intros Hv.
          assert (child = q) as ->.
          { destruct (0 <? length (m_children m))%nat.
            - destruct (_replace_with_bnb_layers m cfg excl (cur ++ [n])) as [[m' h]|];
                cbn [mbind res_bind] in Hv; [|done]. by injection Hv as <- _.
            - by injection Hv as <- _. }
          destruct (bnb_parameters_again _ _ _ Hq) as (Hqq & Hql & Hqc).
          rewrite Hql, Hmem, Hqq, Hqc. cbn [andb mbind res_bind length Nat.ltb Nat.leb].
          by eexists.
        + cbn [mbind res_bind].
          destruct (m_children m) as [|c0 cs0] eqn:Hmcs; cbn [length Nat.ltb Nat.leb].
          * intros [= <- _]. rewrite Hlin, Hmem, Hmcs. by eexists.
          * destruct (_replace_with_bnb_layers m cfg excl (cur ++ [n])) as [[m' h]|]
              eqn:Hrec; cbn [mbind res_bind]; [|done]. intros [= <- _].
            destruct (replace_children _ _ _ _ _ _ Hrec) as (Hc & _ & _ & _ & Hsame).
            destruct (IH n m (or_introl eq_refl) _ _ _ Hrec) as [h' Hrec'].
            unfold isinstance_Linear in *. rewrite Hc, Hlin, Hmem.
            cbn [andb mbind res_bind]. rewrite Hmcs in Hsame.
            destruct (m_children m') as [|? ?]; [by inversion Hsame|].
            cbn [length].
            rewrite Hrec'. cbn [mbind res_bind]. by eexists.
      - cbn [mbind res_bind].
        destruct (m_children m) as [|c0 cs0] eqn:Hmcs; cbn [length Nat.ltb Nat.leb].
        + intros [= <- _]. rewrite Hel, Hmcs. by eexists.
        + destruct (_replace_with_bnb_layers m cfg excl (cur ++ [n])) as [[m' h]|]
            eqn:Hrec; cbn [mbind res_bind]; [|done]. intros [= <- _].
          destruct (replace_children _ _ _ _ _ _ Hrec) as (Hc & _ & _ & _ & Hsame).
          destruct (IH n m (or_introl eq_refl) _ _ _ Hrec) as [h' Hrec'].
          unfold isinstance_Linear in *. rewrite Hc, Hel.
          cbn [mbind res_bind]. rewrite Hmcs in Hsame.
          destruct (m_children m') as [|? ?]; [by inversion Hsame|].
          cbn [length].
          rewrite Hrec'. cbn [mbind res_bind]. by eexists. }
    destruct Hvisit as [has1 ->]. cbn [mbind res_bind].
    destruct (IHcs (fun n0 m0 Hin => IH n0 m0 (or_intror Hin)) has1) as [has2 ->].
    cbn [mbind res_bind]. by eexists. }
  destruct (Hloop false) as [has' ->]. cbn [mbind res_bind]. by eexists.
Qed.

(** X13. Replacing twice is replacing once: the model that
    [replace_with_bnb_layers] returns, given to it again with the same
    configuration and exclusions, comes back as it is. *)
Theorem replace_idempotent (model : nn_Module) (cfg : BnbQuantizationConfig)
    (modules_to_not_convert : option (list string)) (current_key_name : list string)
    (model' : nn_Module) :
  replace_with_bnb_layers model cfg modules_to_not_convert current_key_name = Ok model' ->
  replace_with_bnb_layers model' cfg modules_to_not_convert current_key_name = Ok model'.
Proof.
  unfold replace_with_bnb_layers.
  destruct (_replace_with_bnb_layers model _ _ _) as [[m' flag]|] eqn:Hrun;
    cbn [mbind res_bind]; [|done].
  intros [= <-]. destruct (replace_again _ _ _ _ _ _ Hrun) as [flag' ->]. done.
Qed.

Lemma replace_idempotent_witness :
  exists model',
    replace_with_bnb_layers example_block BASE_QUANT_CONFIG (Some ["w2"]) [] = Ok model'
    /\ model' <> example_block
    /\ replace_with_bnb_layers model' BASE_QUANT_CONFIG (Some ["w2"]) [] = Ok model'.
Proof.
  eexists. split; [reflexivity|]. split; [discriminate|].
  apply (replace_idempotent example_block BASE_QUANT_CONFIG (Some ["w2"]) []).
  reflexivity.
Defined.

Lemma replace_without_bits_tree (cfg : BnbQuantizationConfig) (excl : list string)
    (model : nn_Module) :
  load_in_8bit cfg = false -> load_in_4bit cfg = false ->
  forall cur,
    _replace_with_bnb_layers model cfg excl cur = Ok (model, false)
    \/ _replace_with_bnb_layers model cfg excl cur = Raise ValueError.
Proof.
  intros H8 H4. induction model as [c ps cs f4 f8 IH] using nn_Module_tree_ind.
  intros cur. cbn [_replace_with_bnb_layers m_children].
  assert (Hloop : forall has,
            named_children_loop
              (fun module key => _replace_with_bnb_layers module cfg excl key)
              cfg excl cur cs has = Ok (cs, has)
            \/ named_children_loop
                 (fun module key => _replace_with_bnb_layers module cfg excl key)
                 cfg excl cur cs has = Raise ValueError).
  { induction cs as [|[n m] cs IHcs]; intros has; [by left|].
    cbn [named_children_loop].
    assert (Hvisit :
              visit_child (fun module key => _replace_with_bnb_layers module cfg excl key)
                cfg excl cur n m has = Ok (m, has)
              \/ visit_child (fun module key => _replace_with_bnb_layers module cfg excl key)
                   cfg excl cur n m has = Raise ValueError).
    { unfold visit_child, bnb_layer. rewrite H8, H4.
      assert (Hrest :
                (if (0 <? length (m_children m))%nat
                 then '(module', _has_been_replaced) ←
                        _replace_with_bnb_layers m cfg excl (cur ++ [n]);
                      Ok (module', has || _has_been_replaced)
                 else Ok (m, has)) = Ok (m, has)
                \/ (if (0 <? length (m_children m))%nat
                    then '(module', _has_been_replaced) ←
                           _replace_with_bnb_layers m cfg excl (cur ++ [n]);
                         Ok (module', has || _has_been_replaced)
                    else Ok (m, has)) = Raise ValueError).
      { destruct (0 <? length (m_children m))%nat; [|by left].
        destruct (IH n m (or_introl eq_refl) (cur ++ [n])) as [-> | ->];
          cbn [mbind res_bind]; [left; by rewrite orb_false_r|by right]. }
      destruct (isinstance_Linear m && negb (str_mem n excl)); [|exact Hrest].
      destruct (proceed_scan excl _); [by right|exact Hrest]. }
    destruct Hvisit as [-> | ->]; cbn [mbind res_bind]; [|by right].
    destruct (IHcs (fun n0 m0 Hin => IH n0 m0 (or_intror Hin)) has) as [-> | ->];
      cbn [mbind res_bind]; [by left|by right]. }
  destruct (Hloop false) as [-> | ->]; cbn [mbind res_bind]; [by left|by right].
Qed.

(** X15. Under a configuration that asks neither for 8 nor for 4 bits,
    [replace_with_bnb_layers] replaces nothing: it returns the model as it
    is, or raises ValueError; and it does raise when a direct child of the
    model is a linear layer that is not exempted. *)
Theorem replace_without_bits (cfg : BnbQuantizationConfig)
    (modules_to_not_convert current_key_name : list string) (model : nn_Module) :
  load_in_8bit cfg = false -> load_in_4bit cfg = false ->
  let result := replace_with_bnb_layers model cfg (Some modules_to_not_convert)
                  current_key_name in
  (result = Ok model \/ result = Raise ValueError)
  /\ forall i name m,
       nth_error (m_children model) i = Some (name, m) ->
       isinstance_Linear m = true ->
       ~ exempted name (String.concat "." (current_key_name ++ [name]))
           modules_to_not_convert ->
       result = Raise ValueError.
Proof.
  intros H8 H4 result. subst result. unfold replace_with_bnb_layers.
  change (default [] (Some modules_to_not_convert)) with modules_to_not_convert.
  destruct (replace_without_bits_tree cfg modules_to_not_convert model H8 H4
              current_key_name) as [Hrun|Hrun]; rewrite Hrun; cbn [mbind res_bind].
  - split; [by left|]. intros i name m Hi Hlin Hex. exfalso.
    destruct model as [c ps cs f4 f8]. cbn [_replace_with_bnb_layers m_children] in *.
    destruct (named_children_loop _ _ _ _ _ _) as [[cs' h]|] eqn:Hloop;
      cbn [mbind res_bind] in Hrun; [|done].
    destruct (named_children_loop_nth _ _ _ _ _ _ _ _ _ _ _ Hloop Hi)
      as (child & h1 & h2 & Hv & _).
    revert Hv. unfold visit_child, bnb_layer. rewrite Hlin, H8, H4.
    pose proof (exempted_dec name (String.concat "." (current_key_name ++ [name]))
                  modules_to_not_convert) as Hdec.
    destruct (negb (str_mem name modules_to_not_convert)); cbn [andb].
    + destruct (proceed_scan modules_to_not_convert _); [done|].
      destruct Hex. by apply Hdec.
    + destruct Hex. by apply Hdec.
  - split; [by right|done].
Qed.

Lemma replace_without_bits_witness :
  let cfg := mkBnbQuantizationConfig false false 6 float16 true "nf4" float16 in
  replace_with_bnb_layers example_block cfg (Some ["w2"]) [] = Raise ValueError
  /\ replace_with_bnb_layers example_block cfg (Some ["w1"; "w2"]) [] = Ok example_block.
Proof.
  intros cfg. split; [|reflexivity].
  apply (proj2 (replace_without_bits cfg ["w2"] [] example_block eq_refl eq_refl)
           0%nat "w1" _ eq_refl eq_refl).
  intros [Hin|(key & Hkey & Hm)].
  - destruct Hin as [H|[]]; discriminate H.
  - destruct Hkey as [<-|[]]. destruct Hm as [H|H]; discriminate H.
Defined.

(** ** [_generate_uids]: how many, and patterns that cannot be filled *)

Lemma for_each_length {A B} (f : A -> list B -> res (list B)) (k : nat)
    (xs : list A) (acc r : list B) :
  (forall x acc r, f x acc = Ok r -> length r = (length acc + k)%nat) ->
  for_each xs f acc = Ok r ->
  length r = (length acc + k * length xs)%nat.
Proof.
  intros Hf. revert acc. induction xs as [|x xs IH]; intros acc Hrun.
  - injection Hrun as <-. cbn [length]. lia.
  - cbn [for_each] in Hrun. destruct (f x acc) as [acc1|] eqn:Hx;
      cbn [mbind res_bind] in Hrun; [|done].
    rewrite (IH _ Hrun), (Hf _ _ _ Hx). cbn [length]. lia.
Qed.

Lemma length_py_range (a b : Z) : length (py_range a b) = Z.to_nat (b - a).
Proof. unfold py_range. by rewrite length_map, length_seq. Qed.

(** X18. [_generate_uids], when it returns, returns
    [num_experts * (num_layers - layers_start)] identifiers: [num_layers]
    is where the layer indices end, not how many layers are made.  With
    [0 < layers_start] these are fewer than the [num_experts * num_layers]
    that [Server.create] logs. *)
Theorem generate_uids_count {DHT RemoteExpert : Type}
    (get_experts : DHT -> list string -> list (option RemoteExpert))
    (num_experts num_layers layers_start : Z) (expert_pattern : pattern)
    (dht : option DHT) (attempts_per_expert : Z) (uids : list ExpertUID) :
  _generate_uids get_experts num_experts num_layers layers_start
    expert_pattern dht attempts_per_expert = Ok uids ->
  Z.of_nat (length uids)
  = Z.max 0 num_experts * Z.max 0 (num_layers - layers_start)
  /\ (0 < layers_start -> 0 < num_experts -> 0 < num_layers ->
      Z.of_nat (length uids) < uids_to_generate num_experts num_layers).
Proof.
  intros Hrun.
  assert (Hlen : length uids
                 = (Z.to_nat num_experts * Z.to_nat (num_layers - layers_start))%nat).
  { unfold _generate_uids in Hrun.
    destruct (for_each (py_range layers_start num_layers) _ []) as [new_uids|] eqn:Hloop;
      cbn [mbind res_bind] in Hrun; [|done].
    assert (uids = new_uids) as ->.
    { destruct dht as [d|]; [|by injection Hrun as <-].
      destruct (check_found _); cbn [mbind res_bind] in Hrun; [|done].
      by injection Hrun as <-. }
    apply (for_each_length _ (Z.to_nat num_experts)) in Hloop.
    - rewrite Hloop, length_py_range. cbn [length]. lia.
    - intros l acc r Hinner.
      apply (for_each_length _ 1) in Hinner.
      + rewrite Hinner, length_py_range. lia.
      + intros e acc' r'. destruct (_generate_uid expert_pattern l e);
          cbn [mbind res_bind]; [|done].
        intros [= <-]. rewrite length_app. cbn [length]. lia. }
  split; [lia|]. unfold uids_to_generate. intros Hs He Hl. rewrite Hlen. nia.
Qed.

Lemma generate_uids_count_witness :
  let p := [Lit "x."; Field "layer_id"; Lit "."; Field "expert_id"] in
  let get_experts := fun (_ : unit) (_ : list string) => @nil (option unit) in
  exists uids,
    _generate_uids get_experts 3 2 1 p None 10 = Ok uids
    /\ Z.of_nat (length uids) = Z.max 0 3 * Z.max 0 (2 - 1)
    /\ (0 < 1 -> 0 < 3 -> 0 < 2 -> Z.of_nat (length uids) < uids_to_generate 3 2).
Proof.
  intros p get_experts. eexists. split; [reflexivity|].
  apply (generate_uids_count get_experts 3 2 1 p None 10). reflexivity.
Defined.






(** ** [_load_expert_weights]: which source is used *)

(** X17. With [hugginface_rep] alone given, [_load_expert_weights] loads
    into the expert the tensors that the repository holds for the layer and
    the expert index of the uid, in this order (the uid's [layer_id] names
    the layer, its [expert_id] the expert): they go to [load_state_dict]
    under [block.w1.weight], [block.w2.weight], [block.w3.weight], and for an
    expert whose parameters are exactly these three, of the shapes of the
    tensors, the call returns and afterwards each parameter holds the
    elements of the tensor of its key. *)
Theorem load_expert_weights_from_repository {cast : Casting} (hub : Hub) (expert : nat)
    (expert_uid : ExpertUID) (hugginface_rep : string)
    (weights_map : list (string * string)) (t1 t2 t3 : Tensor) (w : World) :
  hugginface_rep <> "" ->
  load_weights_map hub hugginface_rep = Ok weights_map ->
  shard_tensor hub hugginface_rep weights_map
    (source_key (layer_id expert_uid) (expert_id expert_uid) "1") = Some t1 ->
  shard_tensor hub hugginface_rep weights_map
    (source_key (layer_id expert_uid) (expert_id expert_uid) "2") = Some t2 ->
  shard_tensor hub hugginface_rep weights_map
    (source_key (layer_id expert_uid) (expert_id expert_uid) "3") = Some t3 ->
  let module_state_dict :=
    [("block.w1.weight", t1); ("block.w2.weight", t2); ("block.w3.weight", t3)] in
  _load_expert_weights hub expert expert_uid None (Some hugginface_rep) w
  = load_state_dict expert module_state_dict w
  /\ forall m : nn_Module,
       w_modules w !! expert = Some m ->
       (forall key, In key (map fst (state_dict m))
                    <-> In key (map fst module_state_dict)) ->
       (forall key old t, In (key, old) (state_dict m) ->
                          assoc key module_state_dict = Some t ->
                          t_shape t = t_shape old) ->
       exists m',
         _load_expert_weights hub expert expert_uid None (Some hugginface_rep) w
         = (Ok tt, mkWorld (w_fs w) (<[expert := m']> (w_modules w)) (w_log w))
         /\ Forall2 (fun old new =>
                       exists t, assoc old.1 module_state_dict = Some t
                                 /\ new = (old.1, Tensor_copy_ old.2 t))
              (state_dict m) (state_dict m').
Proof.
  intros Hrep Hwm E1 E2 E3 module_state_dict.
  assert (Hcall : _load_expert_weights hub expert expert_uid None (Some hugginface_rep) w
                  = load_state_dict expert module_state_dict w).
  { rewrite load_expert_weights_cases.
    apply String.eqb_neq in Hrep. rewrite Hrep. cbn [negb].
    unfold load_expert_from_hf, _load_weights_from_hf, lift, mbind, IO_bind.
    by rewrite Hwm, (assemble_mixtral _ _ _ _ _ _ _ _ E1 E2 E3). }
  split; [exact Hcall|]. intros m Hm Hkeys Hshapes. rewrite Hcall.
  by apply load_state_dict_fitting.
Qed.

Lemma load_expert_weights_from_repository_witness :
  let t (n : Z) := mkTensor float16 [1; 1]%nat [n] in
  let wm := [ (source_key 3 5 "1", "a.safetensors");
              (source_key 3 5 "2", "a.safetensors");
              (source_key 3 5 "3", "a.safetensors") ] in
  let hub := [ ("org/mixtral",
                mkHubRepo (Some [("weight_map", wm)])
                  [ ("a.safetensors",
                     [(source_key 3 5 "1", t 1); (source_key 3 5 "2", t 2);
                      (source_key 3 5 "3", t 3)]) ]) ] in
  let module_state_dict :=
    [("block.w1.weight", t 1); ("block.w2.weight", t 2); ("block.w3.weight", t 3)] in
  let w := mkWorld (Dir []) {[ 7%nat := example_expert ]} [] in
  let uid := mkExpertUID "x.3.5" 5 3 in
  let w' := (_load_expert_weights (cast := id_casting) hub 7 uid None
               (Some "org/mixtral") w).2 in
  (exists m',
     _load_expert_weights (cast := id_casting) hub 7 uid None (Some "org/mixtral") w
     = (Ok tt, mkWorld (w_fs w) (<[7%nat := m']> (w_modules w)) (w_log w))
     /\ Forall2 (fun old new =>
                   exists t0, assoc old.1 module_state_dict = Some t0
                              /\ new = (old.1, Tensor_copy_ (cast := id_casting) old.2 t0))
          (state_dict example_expert) (state_dict m'))
  /\ option_map state_dict (w_modules w' !! 7%nat) = Some module_state_dict.
Proof.
  intros t wm hub module_state_dict w uid w'.
  split; [|vm_compute; reflexivity].
  assert (Hrep : "org/mixtral" <> "") by discriminate.
  destruct (load_expert_weights_from_repository (cast := id_casting) hub 7 uid
              "org/mixtral" wm (t 1) (t 2) (t 3) w Hrep eq_refl eq_refl eq_refl eq_refl)
    as [_ Hinto].
  apply (Hinto example_expert); [reflexivity| |].
  - intros key. reflexivity.
  - intros key old t0 Hin Ht0. cbn in Hin.
    destruct Hin as [[= <- <-]|[[= <- <-]|[[= <- <-]|[]]]];
      cbn in Ht0; by injection Ht0 as <-.
Defined.

(** ** [ModuleWrapper]: state dictionaries out and in *)

(** X20. A [ModuleWrapper] takes back the state dictionary it gives:
    [load_state_dict] of what [get_state_dict] answers returns and leaves
    the module, and everything else, as it was.  (The keys of a state
    dictionary are distinct, and elements re-encoded within their own type
    are the same elements.) *)
Theorem wrapper_state_dict_round_trip {Optimizer : Type} {cast : Casting}
    (self : ModuleWrapper Optimizer) (m : nn_Module) (w : World) :
  same_type_cast_is_identity cast ->
  w_modules w !! mw_module self = Some m ->
  List.NoDup (map fst (state_dict m)) ->
  (state_dict ← get_state_dict self; ModuleWrapper_load_state_dict self state_dict) w
  = (Ok tt, w).
Proof.
  intros Hcast Hm Hnd. unfold mbind, IO_bind, get_state_dict. rewrite Hm.
  by apply load_own_state_dict.
Qed.

Lemma wrapper_state_dict_round_trip_witness :
  let w := mkWorld (Dir []) {[ 7%nat := example_block ]} [] in
  let self := mkModuleWrapper 7 1 0 tt in
  (state_dict ← get_state_dict self;
   ModuleWrapper_load_state_dict (cast := id_casting) self state_dict) w
  = (Ok tt, w).
Proof.
  intros w self.
  apply (wrapper_state_dict_round_trip (cast := id_casting) self example_block w).
  - intros d data. reflexivity.
  - reflexivity.
  - vm_compute. constructor; [intros [H|[H|[]]]; discriminate H|].
    constructor; [intros [H|[]]; discriminate H|].
    constructor; [intros []|constructor].
Defined.

(** X21. What a [ModuleWrapper] has loaded it gives back: after a
    [load_state_dict] that returns, [get_state_dict] answers the keys that
    the module had, in their order, and each tensor holds the elements of
    the tensor that was given for its key, in the element type that the
    parameter had.  The given tensor has the shape of the parameter; for a
    parameter without dimensions a one-dimensional tensor is taken at its
    first element. *)
Theorem wrapper_load_then_get {Optimizer : Type} {cast : Casting}
    (self : ModuleWrapper Optimizer) (m : nn_Module)
    (state_dict_in : list (string * Tensor)) (w w' : World) :
  w_modules w !! mw_module self = Some m ->
  ModuleWrapper_load_state_dict self state_dict_in w = (Ok tt, w') ->
  exists state_dict_out,
    get_state_dict self w' = (Ok state_dict_out, w')
    /\ map fst state_dict_out = map fst (state_dict m)
    /\ Forall2 (fun old new =>
                  exists given input,
                    assoc old.1 state_dict_in = Some given
                    /\ input_for old.2 given = Ok input
                    /\ t_shape input = t_shape old.2
                    /\ new = (old.1, Tensor_copy_ old.2 input))
         (state_dict m) state_dict_out.
Proof.
  intros Hm Hload. unfold ModuleWrapper_load_state_dict in Hload.
  destruct (load_state_dict_returns _ _ _ _ _ Hm Hload) as [Hstrict ->].
  unfold get_state_dict. cbn [w_modules]. rewrite lookup_insert_eq.
  eexists. split; [reflexivity|].
  pose proof (loaded_entries state_dict_in m Hstrict) as Hall.
  split; [|exact Hall].
  clear -Hall. induction Hall as [|[k old] new own out (t & t' & _ & _ & _ & ->) _ IH];
    [done|]. cbn [map fst]. by rewrite IH.
Qed.

Lemma wrapper_load_then_get_witness :
  let scalar := mkModule (OtherModule "Scale")
                  [("scale", mkParameter (mkTensor float32 [] [1]) true)]
                  [("linear", example_module)] None None in
  let w := mkWorld (Dir []) {[ 7%nat := scalar ]} [] in
  let self := mkModuleWrapper 7 1 0 tt in
  let given := [ ("scale", mkTensor float32 [1%nat] [3]);
                 ("linear.weight", mkTensor float32 [1%nat; 1%nat] [5]) ] in
  let w' := (ModuleWrapper_load_state_dict (cast := id_casting) self given w).2 in
  ModuleWrapper_load_state_dict (cast := id_casting) self given w = (Ok tt, w')
  /\ get_state_dict self w'
     = (Ok [ ("scale", mkTensor float32 [] [3]);
             ("linear.weight", mkTensor float32 [1%nat; 1%nat] [5]) ], w')
  /\ exists state_dict_out,
       get_state_dict self w' = (Ok state_dict_out, w')
       /\ map fst state_dict_out = map fst (state_dict scalar)
       /\ Forall2 (fun old new =>
                     exists t input,
                       assoc old.1 given = Some t
                       /\ input_for old.2 t = Ok input
                       /\ t_shape input = t_shape old.2
                       /\ new = (old.1, Tensor_copy_ (cast := id_casting) old.2 input))
            (state_dict scalar) state_dict_out.
Proof.
  intros scalar w self given w'.
  assert (Hload : ModuleWrapper_load_state_dict (cast := id_casting) self given w
                  = (Ok tt, w')) by reflexivity.
  split; [exact Hload|]. split; [reflexivity|].
  exact (wrapper_load_then_get (cast := id_casting) self scalar given w w'
           eq_refl Hload).
Defined.

(** X22. Restoring right after storing changes nothing: after store cycles
    that all return, [load_expert] (called with its four parameters) for an
    expert and the module that its backend hosts returns, and the module,
    like everything else, is as it was.  (The checkpoint directory is a
    directory, the directories of the experts are not there at first or hold
    regular files, and no staging directory is made inside the checkpoint
    directory; the keys of the state dictionary are distinct, and
    elements re-encoded within their own type are the same elements.) *)
Theorem store_then_restore_unchanged {cast : Casting} (depth : nat)
    (cycles : list cycle) (last : cycle) (experts : list (string * ModuleBackend))
    (checkpoint_dir : path) (w w' : World) (expert_name : string)
    (expert_backend : ModuleBackend) (m : nn_Module) (Module_ : value) :
  store_cycles depth (cycles ++ [last]) experts checkpoint_dir w = (Ok tt, w') ->
  Forall (fun c => is_prefix checkpoint_dir (c_tmpdirname c) = false)
    (cycles ++ [last]) ->
  is_dir_node (lookup_node checkpoint_dir (w_fs w)) = true ->
  (forall e, In e (map fst experts) ->
     flat_or_absent (checkpoint_dir ++ [e]) (w_fs w)) ->
  In (expert_name, expert_backend) experts ->
  c_modules last !! mb_module expert_backend = Some m ->
  List.NoDup (map fst (state_dict m)) ->
  same_type_cast_is_identity cast ->
  load_expert [VModule (mb_module expert_backend); Module_; VStr expert_name;
               VPath checkpoint_dir] w'
  = (Ok tt, w').
Proof.
  intros Hrun Htmp Hck Hdir Hin Hm Hnd Hcast.
  destruct (store_cycles_last_effect _ _ _ _ _ _ _ Hrun Htmp Hck Hdir) as [Hmods Hpost].
  destruct (Hpost _ _ Hin) as (m' & des & Hm' & Hlook).
  assert (m' = m) as -> by congruence.
  rewrite (load_expert_reads _ _ _ _ _ _ _ Hlook (staged_module_file _ _ _ _)).
  apply load_own_state_dict; [done| |done]. by rewrite Hmods.
Qed.

Lemma store_then_restore_unchanged_witness :
  let first := mkCycle (mkDatetime 2024 1 2 3 4 5 6) ["tmp"; "tmpa"]
                 {[ 0%nat := example_module ]} in
  let last := mkCycle (mkDatetime 2024 1 2 3 4 6 7) ["tmp"; "tmpb"]
                {[ 0%nat := example_module ]} in
  let backend := mkModuleBackend 0 [("step", mkTensor int64 [] [0])] in
  let w' := (store_cycles 3 ([first] ++ [last]) example_experts ["ckpt"]
               example_world).2 in
  store_cycles 3 ([first] ++ [last]) example_experts ["ckpt"] example_world
  = (Ok tt, w')
  /\ load_expert (cast := id_casting)
       [VModule (mb_module backend); VNone; VStr "expert.0"; VPath ["ckpt"]] w'
     = (Ok tt, w').
Proof.
  intros first last backend w'.
  assert (Hrun : store_cycles 3 ([first] ++ [last]) example_experts ["ckpt"]
                   example_world = (Ok tt, w')) by (vm_compute; reflexivity).
  split; [exact Hrun|].
  apply (store_then_restore_unchanged (cast := id_casting) 3 [first] last
           example_experts ["ckpt"] example_world w' "expert.0" backend example_module
           VNone Hrun).
  - repeat constructor.
  - reflexivity.
  - intros e [<-|[]]. exact I.
  - left. reflexivity.
  - reflexivity.
  - vm_compute. constructor; [intros []|constructor].
  - intros d data. reflexivity.
Defined.

(** ** [_make_expert]: the element type of a 4-bit expert *)

Lemma Module_to_eq {cast : Casting} (m : nn_Module) (d : dtype) :
  Module_to m d
  = mkModule (m_class m)
      (map (fun '(n, p) =>
              (n, if is_floating_point (p_data p)
                  then mkParameter (Tensor_to (p_data p) d) (p_requires_grad p)
                  else p))
         (m_parameters m))
      (map (fun '(n, c) => (n, Module_to c d)) (m_children m))
      (is_loaded_in_4bit m) (is_loaded_in_8bit m).
Proof.
  destruct m as [cl ps cs f4 f8].
  cbn [Module_to m_class m_parameters m_children is_loaded_in_4bit is_loaded_in_8bit].
  f_equal. induction cs as [|[n c] cs IH]; [done|]. cbn [map]. by rewrite IH.
Qed.

Lemma Tensor_to_dtype {cast : Casting} (t : Tensor) (d : dtype) :
  t_dtype (Tensor_to t d) = d.
Proof. unfold Tensor_to. by destruct (decide (t_dtype t = d)). Qed.

Lemma Module_to_floating {cast : Casting} (d : dtype) (m : nn_Module) :
  forall prefix k t,
    In (k, t) (state_dict_from prefix (Module_to m d)) ->
    is_floating_point t = true -> t_dtype t = d.
Proof.
  induction m as [c ps cs f4 f8 IH] using nn_Module_tree_ind.
  intros prefix k t. rewrite Module_to_eq, state_dict_from_eq.
  cbn [m_class m_parameters m_children is_loaded_in_4bit is_loaded_in_8bit].
  intros [Hin|Hin]%in_app_iff Hfl.
  - rewrite map_map in Hin. apply in_map_iff in Hin as ([n p] & [= _ <-] & _).
    destruct (is_floating_point (p_data p)) eqn:Hp; cbn [p_data] in *.
    + apply Tensor_to_dtype.
    + congruence.
  - apply in_flat_map in Hin as ([n c'] & Hc & Hin).
    apply in_map_iff in Hc as ([n0 c0] & [= <- <-] & Hc0).
    by apply (IH n0 c0 Hc0 _ _ _ Hin).
Qed.

Lemma bnb_layer_incl cfg (m q : nn_Module) (prefix : string) :
  bnb_layer cfg m = Ok q ->
  incl (state_dict_from prefix q) (state_dict_from prefix m).
Proof.
  intros Hq [k t]. rewrite !state_dict_from_eq.
  assert (m_children q = [] /\ m_parameters q = bnb_parameters m) as [-> ->].
  { unfold bnb_layer in Hq. destruct (load_in_8bit cfg); [by injection Hq as <-|].
    destruct (load_in_4bit cfg); [by injection Hq as <-|done]. }
  cbn [flat_map]. rewrite app_nil_r. intros Hin. apply in_app_iff. left.
  apply in_map_iff in Hin as ([n p] & [= <- <-] & Hin).
  unfold bnb_parameters, weight_of, bias_of in Hin.
  apply in_app_iff in Hin as [Hin|Hin].
  - destruct (assoc "weight" (m_parameters m)) as [pw|] eqn:Hw; [|done].
    destruct Hin as [[= <- <-]|[]]. apply assoc_In in Hw.
    apply in_map_iff. by exists ("weight", pw).
  - destruct (assoc "bias" (m_parameters m)) as [pb|] eqn:Hb; [|done].
    destruct Hin as [[= <- <-]|[]]. apply assoc_In in Hb.
    apply in_map_iff. by exists ("bias", pb).
Qed.

(** The replacement makes no tensor: what the state dictionary of the
    result holds under a key, that of the model held under it. *)
Lemma replace_state_dict_incl cfg excl (model : nn_Module) :
  forall cur model' flag prefix,
    _replace_with_bnb_layers model cfg excl cur = Ok (model', flag) ->
    incl (state_dict_from prefix model') (state_dict_from prefix model).
Proof.
  induction model as [c ps cs f4 f8 IH] using nn_Module_tree_ind.
  intros cur model' flag prefix Hrun.
  destruct (replace_children _ _ _ _ _ _ Hrun) as (_ & Hp & _ & _ & Hcs).
  rewrite !state_dict_from_eq, Hp. cbn [m_children m_parameters] in *.
  apply incl_app; [apply incl_appl, incl_refl|]. apply incl_appr. clear Hrun Hp.
  revert IH.
  induction Hcs as [|[n m] [n' child] cs cs' [Hn (h1 & h2 & Hv)] _ IHcs]; intros IH;
    [apply incl_refl|].
  cbn [fst snd] in *. subst n'. cbn [flat_map]. apply incl_app.
  - apply incl_appl.
    destruct (visit_child_cases _ _ _ _ _ _ _ _ _ Hv)
      as [[_ Hq]|[[_ ->]|[_ [h Hrec]]]]; [|apply incl_refl|].
    + by apply (bnb_layer_incl cfg m).
    + by apply (IH n m (or_introl eq_refl) (cur ++ [n]) child h).
  - apply incl_appr. apply IHcs. intros n0 m0 Hin. apply (IH n0 m0). by right.
Qed.

(** X23. [_make_expert] with [load_in_4bit] makes, for a known expert
    type, an expert all of whose floating-point parameters are float16:
    the block is cast to float16 before [quantization], which keeps the
    tensors it is given. *)
Theorem make_expert_float16 {cast : Casting}
    (name_to_block : list (string * (Z -> nn_Module))) (expert_cls : string)
    (hidden_dim : Z) (block : Z -> nn_Module) :
  getitem name_to_block expert_cls = Ok block ->
  exists expert,
    _make_expert name_to_block true expert_cls hidden_dim = Ok expert
    /\ forall key t,
         In (key, t) (state_dict expert) ->
         is_floating_point t = true -> t_dtype t = float16.
Proof.
  intros Hblock. unfold _make_expert. rewrite Hblock. cbn [mbind res_bind].
  set (half := Module_to (block hidden_dim) float16).
  rewrite quantization_is_replacement. unfold replace_with_bnb_layers.
  change (default [] None) with (@nil string).
  destruct (replace_ok BASE_QUANT_CONFIG [] eq_refl
              (mkModule (m_class half) (m_parameters half) (m_children half)
                 (Some true) (Some false)) []) as (q & flag & Hrun).
  rewrite Hrun. cbn [mbind res_bind]. exists q. split; [done|].
  intros key t Hin Hfl.
  apply (replace_state_dict_incl _ _ _ _ _ _ "" Hrun) in Hin.
  apply (Module_to_floating float16 (block hidden_dim) "" key t); [|done].
  fold half. revert Hin. by rewrite !state_dict_from_eq.
Qed.

Lemma make_expert_float16_witness :
  let block (hidden_dim : Z) :=
    mkModule (OtherModule "Block") []
      [("w1", mkModule (Linear (Z.to_nat hidden_dim) 1)
                [("weight", mkParameter (mkTensor float32 [1%nat; 1%nat] [1]) true)]
                [] None None)] None None in
  let half : Casting := fun _ _ data => data in
  exists expert,
    _make_expert (cast := half) [("ffn", block)] true "ffn" 1 = Ok expert
    /\ forall key t,
         In (key, t) (state_dict expert) ->
         is_floating_point t = true -> t_dtype t = float16.
Proof.
  intros block half.
  apply (make_expert_float16 (cast := half) [("ffn", block)] "ffn" 1 block).
  reflexivity.
Defined.

(** ** [Server.create]: experts filed under their uids *)

Lemma names_setitem {A} (d : list (string * A)) (k : string) (v : A) :
  map fst (setitem d k v) = add_name (map fst d) k.
Proof.
  unfold add_name. induction d as [|[k' v'] d IH]; [done|].
  cbn [setitem map fst]. unfold str_mem in *. cbn [existsb].
  rewrite (String.eqb_sym k' k). destruct (String.eqb k k') eqn:E; [done|].
  cbn [map fst orb]. rewrite IH. by destruct (existsb _ _).
Qed.

Lemma create_experts_names {Backend : Type} (make_backend : ExpertUID -> IO Backend)
    (expert_uids : list ExpertUID) :
  forall (acc experts : list (string * Backend)) (w w' : World),
    create_experts make_backend expert_uids acc w = (Ok experts, w') ->
    map fst experts = add_names (map uid expert_uids) (map fst acc).
Proof.
  induction expert_uids as [|u uids IH]; intros acc experts w w' Hrun.
  - by injection Hrun as <- _.
  - cbn [create_experts] in Hrun. unfold mbind, IO_bind in Hrun.
    destruct (make_backend u w) as [[b|] w1]; [|done].
    rewrite (IH _ _ _ _ Hrun), names_setitem. reflexivity.
Qed.

Lemma add_names_length (new : list string) :
  forall names, List.NoDup names ->
    (length (add_names new names) <= length names + length new)%nat
    /\ (length (add_names new names) = (length names + length new)%nat
        <-> List.NoDup (names ++ new)).
Proof.
  induction new as [|n new IH]; intros names Hnd.
  - cbn [add_names fold_left length]. rewrite app_nil_r. split; [lia|]. split; [done|lia].
  - unfold add_names. cbn [fold_left]. fold (add_names new (add_name names n)).
    destruct (IH (add_name names n) (NoDup_add_name _ _ Hnd)) as [Hle Hiff].
    destruct (str_mem n names) eqn:Hmem.
    + assert (Hin : In n names) by (by apply str_mem_In).
      rewrite (add_name_there _ _ Hin) in *. cbn [length]. split; [lia|].
      split.
      * intros Heq. lia.
      * intros Hall. exfalso. apply NoDup_app_remove_r in Hall as Hx.
        apply List.NoDup_remove_2 in Hall. apply Hall. apply in_app_iff. by left.
    + assert (Hnin : ~ In n names) by (by apply str_mem_false).
      rewrite (add_name_fresh _ _ Hnin) in *. rewrite length_app in *.
      cbn [length] in *. split; [lia|].
      replace (names ++ n :: new) with ((names ++ [n]) ++ new)
        by (by rewrite <- app_assoc).
      rewrite <- Hiff. lia.
Qed.

Lemma assoc_setitem {A} (d : list (string * A)) (k : string) (v : A) :
  assoc k (setitem d k v) = Some v.
Proof.
  induction d as [|[k' v'] d IH]; cbn [setitem assoc].
  - by rewrite String.eqb_refl.
  - destruct (String.eqb k' k) eqn:E; cbn [assoc]; by rewrite E.
Qed.

Lemma create_experts_last {Backend : Type} (make_backend : ExpertUID -> IO Backend)
    (init : list ExpertUID) (u : ExpertUID) :
  forall (acc experts : list (string * Backend)) (w w' : World),
    create_experts make_backend (init ++ [u]) acc w = (Ok experts, w') ->
    exists backend w1,
      make_backend u w1 = (Ok backend, w') /\ assoc (uid u) experts = Some backend.
Proof.
  induction init as [|u0 init IH]; intros acc experts w w' Hrun.
  - cbn [app create_experts] in Hrun. unfold mbind, IO_bind in Hrun.
    destruct (make_backend u w) as [[b|] w1] eqn:Hmake; [|done].
    injection Hrun as <- <-. exists b, w. split; [done|]. apply assoc_setitem.
  - cbn [app create_experts] in Hrun. unfold mbind, IO_bind in Hrun.
    destruct (make_backend u0 w) as [[b|] w1]; [|done]. by apply (IH _ _ _ _ Hrun).
Qed.

(** X24. [Server.create] hosts one expert per distinct uid: the experts
    it has made, when the loop is over, are filed under the uids in the order
    of their first occurrence, and under the uid of the last expert made is
    that expert, whatever was made under this uid before; so there are as
    many experts as uids exactly when the uids are pairwise distinct, and
    fewer otherwise. *)
Theorem create_experts_one_per_uid {Backend : Type}
    (make_backend : ExpertUID -> IO Backend) (expert_uids : list ExpertUID)
    (experts : list (string * Backend)) (w w' : World) :
  create_experts make_backend expert_uids [] w = (Ok experts, w') ->
  map fst experts = add_names (map uid expert_uids) []
  /\ List.NoDup (map fst experts)
  /\ (length experts <= length expert_uids)%nat
  /\ (length experts = length expert_uids <-> List.NoDup (map uid expert_uids))
  /\ forall init expert_uid, expert_uids = init ++ [expert_uid] ->
       exists backend w1,
         make_backend expert_uid w1 = (Ok backend, w')
         /\ assoc (uid expert_uid) experts = Some backend.
Proof.
  intros Hrun. pose proof (create_experts_names _ _ _ _ _ _ Hrun) as Hnames.
  cbn [map] in Hnames.
  destruct (add_names_length (map uid expert_uids) [] (List.NoDup_nil _)) as [Hle Hiff].
  rewrite <- Hnames, !length_map in *. cbn [length app] in *.
  split; [done|]. split; [|split; [lia|split; [done|]]].
  - rewrite Hnames. clear. generalize (@nil string) (List.NoDup_nil string).
    induction (map uid expert_uids) as [|n new IH]; intros acc Hacc; [done|].
    unfold add_names. cbn [fold_left]. by apply IH, NoDup_add_name.
  - intros init u ->. by apply (create_experts_last _ _ _ _ _ _ _ Hrun).
Qed.

Lemma create_experts_one_per_uid_witness :
  let uids := [ mkExpertUID "110" 10 1; mkExpertUID "110" 0 11 ] in
  let make := fun u : ExpertUID => (mret (layer_id u) : IO Z) in
  let w := mkWorld (Dir []) ∅ [] in
  create_experts make uids [] w = (Ok [("110", 11)], w)
  /\ (length [("110", 11)] <= length uids)%nat
  /\ ~ List.NoDup (map uid uids).
Proof.
  intros uids make w.
  assert (Hrun : create_experts make uids [] w = (Ok [("110", 11)], w)) by reflexivity.
  split; [exact Hrun|].
  destruct (create_experts_one_per_uid make uids [("110", 11)] w w Hrun)
    as (_ & _ & Hle & Hiff & _).
  split; [exact Hle|]. intros Hnd. apply Hiff in Hnd. discriminate Hnd.
Defined.
